(** * getaddrinfo.c for OS/2 kLIBC: a shallow embedding and its properties

    The development follows [examples/dvbinfo/getaddrinfo.c]:
    - [gai_strerror]   (error code to text),
    - [getnameinfo]    (socket address to numeric host and service text),
    - [freeaddrinfo], [makeaddrinfo], [makeipv4info] (result records on the heap),
    - [getaddrinfo]    (host and service text to a list of result records).

    C [int]s are integers of [Z]; pointers are integers with [NULL = 0]; the
    heap, the allocator, the resolver and the two error variables [errno]
    and [h_errno] are the fields of an explicit [world] that every stateful
    function threads through. *)

From Stdlib Require Import ZArith Lia Ascii String List.
From stdpp Require Import gmap strings list.

Open Scope string_scope.
Open Scope Z_scope.

(* ===================================================================== *)
(** ** Constants of getaddrinfo.h and of the platform headers            *)
(* ===================================================================== *)

(** getaddrinfo.h *)
Definition EAI_BADFLAGS   : Z := -1.
Definition EAI_NONAME     : Z := -2.
Definition EAI_AGAIN      : Z := -3.
Definition EAI_FAIL       : Z := -4.
Definition EAI_NODATA     : Z := -5.
Definition EAI_FAMILY     : Z := -6.
Definition EAI_SOCKTYPE   : Z := -7.
Definition EAI_SERVICE    : Z := -8.
Definition EAI_ADDRFAMILY : Z := -9.
Definition EAI_MEMORY     : Z := -10.
Definition EAI_OVERFLOW   : Z := -11.
Definition EAI_SYSTEM     : Z := -12.

Definition NI_NUMERICHOST : Z := 1.
Definition NI_NUMERICSERV : Z := 2.
Definition NI_NOFQDN      : Z := 4.
Definition NI_NAMEREQD    : Z := 8.
Definition NI_DGRAM       : Z := 16.

Definition AI_PASSIVE     : Z := 1.
Definition AI_CANONNAME   : Z := 2.
Definition AI_NUMERICHOST : Z := 4.

(** getaddrinfo.c *)
Definition _NI_MASK : Z :=
  Z.lor NI_NUMERICHOST (Z.lor NI_NUMERICSERV (Z.lor NI_NOFQDN (Z.lor NI_NAMEREQD NI_DGRAM))).
Definition _AI_MASK : Z := Z.lor AI_PASSIVE (Z.lor AI_CANONNAME AI_NUMERICHOST).

(** The BSD socket headers of the platform (sys/socket.h, netinet/in.h,
    netdb.h, errno.h): the values every BSD-derived stack uses. *)
Definition NULL            : Z := 0.
Definition AF_INET         : Z := 2.
Definition SOCK_STREAM     : Z := 1.
Definition SOCK_DGRAM      : Z := 2.
Definition SOCK_RAW        : Z := 3.
Definition IPPROTO_TCP     : Z := 6.
Definition IPPROTO_UDP     : Z := 17.
Definition INADDR_ANY      : Z := 0.
Definition INADDR_LOOPBACK : Z := 0x7f000001.
Definition INADDR_NONE     : Z := 0xffffffff.
Definition HOST_NOT_FOUND  : Z := 1.
Definition TRY_AGAIN       : Z := 2.
Definition NO_RECOVERY     : Z := 3.
Definition NO_DATA         : Z := 4.
Definition NO_ADDRESS      : Z := NO_DATA.
Definition ENOMEM          : Z := 12.
Definition ERANGE          : Z := 34.
Definition ULONG_MAX       : Z := 0xffffffff.
(** [sizeof (struct sockaddr_in)] *)
Definition sizeof_sockaddr_in : Z := 16.

(** A C truth value: non-zero is true. *)
Definition truthy (z : Z) : bool := negb (z =? 0).

(** An [int] converted to [size_t] (32 bits). *)
Definition to_size_t (n : Z) : Z := n mod 2 ^ 32.

(* ===================================================================== *)
(** ** Byte order (the target is little-endian x86)                      *)
(* ===================================================================== *)

Definition bswap16 (x : Z) : Z :=
  Z.lor (Z.shiftl (Z.land x 0xff) 8) (Z.land (Z.shiftr x 8) 0xff).

Definition bswap32 (x : Z) : Z :=
  Z.lor (Z.shiftl (Z.land x 0xff) 24)
    (Z.lor (Z.shiftl (Z.land (Z.shiftr x 8) 0xff) 16)
       (Z.lor (Z.shiftl (Z.land (Z.shiftr x 16) 0xff) 8)
          (Z.land (Z.shiftr x 24) 0xff))).

Definition htons := bswap16.
Definition ntohs := bswap16.
Definition htonl := bswap32.
Definition ntohl := bswap32.

(** The 32-bit host-order value of the address [a.b.c.d]. *)
Definition ipv4_of (a b c d : Z) : Z :=
  Z.lor (Z.shiftl a 24) (Z.lor (Z.shiftl b 16) (Z.lor (Z.shiftl c 8) d)).

Definition octet (a : Z) : Prop := 0 <= a < 256.

(* ===================================================================== *)
(** ** C library text routines                                           *)
(* ===================================================================== *)

Definition ascii_code (c : ascii) : Z := Z.of_N (N_of_ascii c).

Definition digit_char (d : Z) : ascii := ascii_of_N (Z.to_N (48 + d)).

(** The value of [c] as a digit in [base] (8, 10 or 16), if it is one. *)
Definition digit_of (base : Z) (c : ascii) : option Z :=
  let n := ascii_code c in
  let v := if (48 <=? n) && (n <=? 57) then n - 48
           else if (97 <=? n) && (n <=? 102) then n - 87
           else if (65 <=? n) && (n <=? 70) then n - 55
           else 16 in
  if v <? base then Some v else None.

Definition isdigit (c : ascii) : bool :=
  let n := ascii_code c in (48 <=? n) && (n <=? 57).

Definition isspace (c : ascii) : bool :=
  let n := ascii_code c in (n =? 32) || ((9 <=? n) && (n <=? 13)).

(** Reads the longest run of [base] digits, accumulating their value. *)
Fixpoint scan_digits (base acc : Z) (s : string) : Z * string :=
  match s with
  | String c s' =>
      match digit_of base c with
      | Some d => scan_digits base (acc * base + d) s'
      | None => (acc, s)
      end
  | EmptyString => (acc, s)
  end.

(** [printf ("%u", n)] for a 32-bit unsigned [n]: at most ten digits, the
    least significant one produced first. *)
Fixpoint utoa_digits (fuel : nat) (n : Z) (acc : string) : string :=
  match fuel with
  | O => acc
  | S fuel' =>
      let acc' := String (digit_char (n mod 10)) acc in
      if n / 10 =? 0 then acc' else utoa_digits fuel' (n / 10) acc'
  end.

Definition utoa (n : Z) : string := utoa_digits 10 n "".

(** [printf ("%u.%u.%u.%u", a, b, c, d)] *)
Definition fmt_ipv4 (a b c d : Z) : string :=
  (utoa a ++ "." ++ utoa b ++ "." ++ utoa c ++ "." ++ utoa d)%string.

Definition strlen (s : string) : Z := Z.of_nat (String.length s).

(** [snprintf (buf, size, ...)] where the formatted text is [s]: the buffer
    receives the first [size - 1] characters of [s] and a terminator
    (nothing when [size] is 0), and the length of [s] is returned. *)
Definition snprintf (buf : string) (size : Z) (s : string) : string * Z :=
  let n := to_size_t size in
  (if n =? 0 then buf else substring 0 (Z.to_nat (Z.min (strlen s) (n - 1))) s,
   strlen s).

(** [strtoul (nptr, &end, 0)] of the C library, [unsigned long] being 32
    bits wide: leading white space, an optional sign, then a number whose
    base follows its prefix (0x: sixteen, 0: eight, otherwise ten). The
    result is the value, the text [end] points to, and whether the value
    was out of range (then it is [ULONG_MAX] and [errno] becomes
    [ERANGE]). With no digits at all the value is 0 and [end] is [nptr]. *)
Fixpoint skip_space (s : string) : string :=
  match s with
  | String c s' => if isspace c then skip_space s' else s
  | EmptyString => s
  end.

Definition is_x (c : ascii) : bool :=
  (ascii_code c =? 120) || (ascii_code c =? 88).

Definition starts_with_digit (base : Z) (s : string) : bool :=
  match s with
  | String c _ => match digit_of base c with Some _ => true | None => false end
  | EmptyString => false
  end.

Definition strtoul (nptr : string) : Z * string * bool :=
  let s := skip_space nptr in
  let '(neg, s1) :=
    match s with
    | String c r =>
        if ascii_code c =? 45 then (true, r)
        else if ascii_code c =? 43 then (false, r)
        else (false, s)
    | EmptyString => (false, s)
    end in
  let '(base, s2) :=
    match s1 with
    | String c (String x r) =>
        if (ascii_code c =? 48) && is_x x && starts_with_digit 16 r then (16, r)
        else if ascii_code c =? 48 then (8, s1)
        else (10, s1)
    | String c EmptyString => if ascii_code c =? 48 then (8, s1) else (10, s1)
    | EmptyString => (10, s1)
    end in
  if starts_with_digit base s2 then
    let '(v, rest) := scan_digits base 0 s2 in
    if v >? ULONG_MAX then (ULONG_MAX, rest, true)
    else (if neg then (2 ^ 32 - v) mod 2 ^ 32 else v, rest, false)
  else (0, nptr, false).

(** [inet_addr] of the BSD C library. The text is one to four numbers
    separated by dots, each in C notation (0x: sixteen, 0: eight); the last
    number fills the bytes left over. The result is in network byte order,
    and [INADDR_NONE] when the text is not an address. *)
Definition inet_part (s : string) : option (Z * string) :=
  match s with
  | String c s' =>
      if isdigit c then
        if ascii_code c =? 48 then
          match s' with
          | String x s'' =>
              if is_x x then Some (scan_digits 16 0 s'')
              else Some (scan_digits 8 0 s')
          | EmptyString => Some (0, s')
          end
        else Some (scan_digits 10 0 s)
      else None
  | EmptyString => None
  end.

(** [dots] is the number of dots that may still follow (three at first). *)
Fixpoint inet_parts (dots : nat) (parts : list Z) (s : string) : option (list Z) :=
  match inet_part s with
  | None => None
  | Some (val, rest) =>
      match rest with
      | String c rest' =>
          if ascii_code c =? 46 then
            match dots with
            | O => None
            | S dots' => inet_parts dots' (parts ++ [val])%list rest'
            end
          else if isspace c then Some (parts ++ [val])%list
          else None
      | EmptyString => Some (parts ++ [val])%list
      end
  end.

Definition inet_aton (s : string) : option Z :=
  match inet_parts 3 [] s with
  | Some [a] => if a <=? 0xffffffff then Some a else None
  | Some [a; b] =>
      if (a <=? 0xff) && (b <=? 0xffffff)
      then Some (Z.lor (Z.shiftl a 24) b) else None
  | Some [a; b; c] =>
      if (a <=? 0xff) && (b <=? 0xff) && (c <=? 0xffff)
      then Some (Z.lor (Z.shiftl a 24) (Z.lor (Z.shiftl b 16) c)) else None
  | Some [a; b; c; d] =>
      if (a <=? 0xff) && (b <=? 0xff) && (c <=? 0xff) && (d <=? 0xff)
      then Some (ipv4_of a b c d) else None
  | _ => None
  end.

Definition inet_addr (s : string) : Z :=
  match inet_aton s with
  | Some v => htonl v
  | None => INADDR_NONE
  end.

(* ===================================================================== *)
(** ** gai_strerror                                                      *)
(* ===================================================================== *)

Definition gai_errlist : list (Z * string) :=
  [ (0,              "Error 0");
    (EAI_BADFLAGS,   "Invalid flag used");
    (EAI_NONAME,     "Host or service not found");
    (EAI_AGAIN,      "Temporary name service failure");
    (EAI_FAIL,       "Non-recoverable name service failure");
    (EAI_NODATA,     "No data for host name");
    (EAI_FAMILY,     "Unsupported address family");
    (EAI_SOCKTYPE,   "Unsupported socket type");
    (EAI_SERVICE,    "Incompatible service for socket type");
    (EAI_ADDRFAMILY, "Unavailable address family for host name");
    (EAI_MEMORY,     "Memory allocation failure");
    (EAI_OVERFLOW,   "Buffer overflow");
    (EAI_SYSTEM,     "System error");
    (0,              "") ].

Definition gai_unknownerr : string := "Unrecognized error number".

(** The loop [for (i = 0; *gai_errlist[i].msg; i++)]: it stops at the entry
    with the empty message. *)
Fixpoint gai_strerror_from (tbl : list (Z * string)) (errnum : Z) : string :=
  match tbl with
  | (code, msg) :: rest =>
      match msg with
      | EmptyString => gai_unknownerr
      | String _ _ => if errnum =? code then msg else gai_strerror_from rest errnum
      end
  | [] => gai_unknownerr
  end.

Definition gai_strerror (errnum : Z) : string :=
  gai_strerror_from gai_errlist errnum.

(** The error enumeration of the interface: the twelve EAI_ codes. *)
Definition eai_codes : list Z :=
  [ EAI_BADFLAGS; EAI_NONAME; EAI_AGAIN; EAI_FAIL; EAI_NODATA; EAI_FAMILY;
    EAI_SOCKTYPE; EAI_SERVICE; EAI_ADDRFAMILY; EAI_MEMORY; EAI_OVERFLOW;
    EAI_SYSTEM ].

(* ===================================================================== *)
(** ** getnameinfo                                                       *)
(* ===================================================================== *)

(** [struct sockaddr_in]; [sin_zero] is padding and is left out. The port
    and the address are kept as the machine reads them, that is in network
    byte order. *)
Record sockaddr_in := mk_sockaddr_in {
  sin_len    : Z;
  sin_family : Z;
  sin_port   : Z;
  sin_addr   : Z
}.

(** The block [if (serv != NULL) { ... }] and the final [return 0]. A
    caller's text buffer is [None] for a null pointer and [Some s] for a
    buffer that holds the text [s]. *)
Definition getnameinfo_serv (sa : sockaddr_in) (host : option string)
    (serv : option string) (servlen : Z)
  : Z * option string * option string :=
  match serv with
  | Some sbuf =>
      let '(sbuf', m) := snprintf sbuf servlen (utoa (ntohs (sin_port sa))) in
      if m >=? servlen then (EAI_OVERFLOW, host, Some sbuf')
      else (0, host, Some sbuf')
  | None => (0, host, None)
  end.

(** [getnameinfo (sa, salen, host, hostlen, serv, servlen, flags)]: the
    result is the return code and the two buffers after the call. *)
Definition getnameinfo (sa : sockaddr_in) (salen : Z)
    (host : option string) (hostlen : Z)
    (serv : option string) (servlen : Z) (flags : Z)
  : Z * option string * option string :=
  if (to_size_t salen <? sizeof_sockaddr_in) || negb (sin_family sa =? AF_INET)
  then (EAI_FAMILY, host, serv)
  else if truthy (Z.land flags (Z.lnot _NI_MASK))
  then (EAI_BADFLAGS, host, serv)
  else
    match host with
    | Some hbuf =>
        (* host name resolution *)
        if negb (truthy (Z.land flags NI_NUMERICHOST))
           && truthy (Z.land flags NI_NAMEREQD)
        then (EAI_NONAME, host, serv)
        else
          let ipv4 := ntohl (sin_addr sa) in
          let '(hbuf', n) :=
            snprintf hbuf hostlen
              (fmt_ipv4 (Z.shiftr ipv4 24)
                        (Z.land (Z.shiftr ipv4 16) 0xff)
                        (Z.land (Z.shiftr ipv4 8) 0xff)
                        (Z.land ipv4 0xff)) in
          if n >=? hostlen then (EAI_OVERFLOW, Some hbuf', serv)
          else getnameinfo_serv sa (Some hbuf') serv servlen
    | None => getnameinfo_serv sa None serv servlen
    end.

(* ===================================================================== *)
(** ** The world: heap, allocator, resolver, error variables             *)
(* ===================================================================== *)

(** [struct addrinfo]; the three pointer fields are addresses. *)
Record addrinfo := mk_addrinfo {
  ai_flags     : Z;
  ai_family    : Z;
  ai_socktype  : Z;
  ai_protocol  : Z;
  ai_addrlen   : Z;
  ai_addr      : Z;
  ai_canonname : Z;
  ai_next      : Z
}.

(** What a heap block holds. *)
Inductive block :=
  | BInfo (ai : addrinfo)       (* a struct addrinfo *)
  | BAddr (sa : sockaddr_in)    (* a socket address buffer *)
  | BStr (s : string).          (* a string *)

(** [struct hostent], with [h_addr] the first address as [u_long] reads it. *)
Record hostent := mk_hostent {
  h_name     : string;
  h_addrtype : Z;
  h_length   : Z;
  h_addr     : Z
}.

(** The calls into the platform, in the order they happen. [EvMalloc NULL]
    is an allocation request that failed. *)
Inductive event :=
  | EvMalloc (p : Z)
  | EvFree (p : Z)
  | EvLookup (name : string).

Record world := mk_world {
  heap     : gmap Z block;          (* the live heap blocks *)
  mallocs  : list bool;             (* outcomes of the coming allocation
                                       requests; past its end they succeed *)
  resolver : string -> hostent + Z; (* gethostbyname: the entry, or the
                                       value it leaves in h_errno *)
  h_errno  : Z;
  errno    : Z;
  fault    : bool;                  (* an invalid pointer was freed or read *)
  trace    : list event
}.

Definition set_heap (h : gmap Z block) (w : world) : world :=
  mk_world h (mallocs w) (resolver w) (h_errno w) (errno w) (fault w) (trace w).
Definition set_mallocs (l : list bool) (w : world) : world :=
  mk_world (heap w) l (resolver w) (h_errno w) (errno w) (fault w) (trace w).
Definition set_h_errno (e : Z) (w : world) : world :=
  mk_world (heap w) (mallocs w) (resolver w) e (errno w) (fault w) (trace w).
Definition set_errno (e : Z) (w : world) : world :=
  mk_world (heap w) (mallocs w) (resolver w) (h_errno w) e (fault w) (trace w).
Definition set_fault (w : world) : world :=
  mk_world (heap w) (mallocs w) (resolver w) (h_errno w) (errno w) true (trace w).
Definition log (e : event) (w : world) : world :=
  mk_world (heap w) (mallocs w) (resolver w) (h_errno w) (errno w) (fault w)
    (trace w ++ [e])%list.

(** An address that is neither null nor a live block. *)
Definition fresh_ptr (h : gmap Z block) : Z := fresh ({[NULL]} ∪ dom h).

(** [malloc]: the block starts out holding [init]. *)
Definition malloc (init : block) (w : world) : Z * world :=
  match mallocs w with
  | false :: rest => (NULL, log (EvMalloc NULL) (set_mallocs rest w))
  | ok =>
      let p := fresh_ptr (heap w) in
      (p, log (EvMalloc p) (set_heap (<[p := init]> (heap w)) (set_mallocs (tail ok) w)))
  end.

(** [free]: nothing for a null pointer. *)
Definition free (p : Z) (w : world) : world :=
  if p =? NULL then w
  else match heap w !! p with
       | Some _ => log (EvFree p) (set_heap (delete p (heap w)) w)
       | None => log (EvFree p) (set_fault w)
       end.

(** Reads the struct [p] points to. *)
Definition read_info (p : Z) (w : world) : option addrinfo :=
  match heap w !! p with
  | Some (BInfo ai) => Some ai
  | _ => None
  end.

(** Writes to the block [p] points to. *)
Definition store (p : Z) (b : block) (w : world) : world :=
  match heap w !! p with
  | Some _ => set_heap (<[p := b]> (heap w)) w
  | None => set_fault w
  end.

Definition blank_addrinfo : addrinfo := mk_addrinfo 0 0 0 0 0 NULL NULL NULL.
Definition blank_sockaddr : sockaddr_in := mk_sockaddr_in 0 0 0 0.

(** Reads one pointer field of [*res]. *)
Definition field (f : addrinfo -> Z) (res : Z) (w : world) : Z * world :=
  match read_info res w with
  | Some ai => (f ai, w)
  | None => (NULL, set_fault w)
  end.

(* ===================================================================== *)
(** ** freeaddrinfo, makeaddrinfo, makeipv4info                          *)
(* ===================================================================== *)

Definition freeaddrinfo (res : Z) (w : world) : world :=
  if res =? NULL then w
  else
    let '(p, w) := field ai_canonname res w in
    let w := free p w in
    let '(p, w) := field ai_addr res w in
    let w := free p w in
    let '(p, w) := field ai_next res w in
    let w := free p w in
    free res w.

(** [strdup] *)
Definition strdup (s : string) (w : world) : Z * world := malloc (BStr s) w.

Definition makeaddrinfo (af type proto : Z) (addr : sockaddr_in) (addrlen : Z)
    (canonname : option string) (w : world) : Z * world :=
  let '(res, w) := malloc (BInfo blank_addrinfo) w in
  if negb (res =? NULL) then
    let '(pa, w) := malloc (BAddr blank_sockaddr) w in
    let w := store res (BInfo (mk_addrinfo 0 af type proto addrlen pa NULL NULL)) w in
    if negb (pa =? NULL) then
      let w := store pa (BAddr addr) w in
      match canonname with
      | Some name =>
          let '(pc, w) := strdup name w in
          let w := store res (BInfo (mk_addrinfo 0 af type proto addrlen pa pc NULL)) w in
          if negb (pc =? NULL) then (res, w) (* success ! *)
          else (NULL, freeaddrinfo res w)
      | None => (res, w)
      end
    else (NULL, freeaddrinfo res w)
  else (NULL, freeaddrinfo res w).

Definition makeipv4info (type proto ip port : Z) (name : option string)
    (w : world) : Z * world :=
  let addr := mk_sockaddr_in sizeof_sockaddr_in AF_INET port ip in
  makeaddrinfo AF_INET type proto addr sizeof_sockaddr_in name w.

(* ===================================================================== *)
(** ** getaddrinfo                                                       *)
(* ===================================================================== *)

(** Converts the current [h_errno] value into an EAI_ error code. *)
Definition gai_error_from_herrno (w : world) : Z :=
  let e := h_errno w in
  if e =? HOST_NOT_FOUND then EAI_NONAME
  else if (e =? NO_ADDRESS) || (e =? NO_DATA) then EAI_NODATA
  else if e =? NO_RECOVERY then EAI_FAIL
  else if e =? TRY_AGAIN then EAI_AGAIN
  else EAI_SYSTEM.

(** [gethostbyname]: a failure leaves its reason in [h_errno]. *)
Definition gethostbyname (name : string) (w : world) : option hostent * world :=
  let w := log (EvLookup name) w in
  match resolver w name with
  | inl entry => (Some entry, w)
  | inr e => (None, set_h_errno e w)
  end.

(** The block [if (hints != NULL) { ... }]: the error it returns, or the
    values it leaves in [flags] and [protocol]. *)
Definition check_hints (hints : option addrinfo) : Z + Z * Z :=
  match hints with
  | None => inr (0, 0)
  | Some h =>
      let flags := ai_flags h in
      if truthy (Z.land flags (Z.lnot _AI_MASK)) then inl EAI_BADFLAGS
      (* only accept AF_INET and AF_UNSPEC *)
      else if truthy (ai_family h) && negb (ai_family h =? AF_INET)
      then inl EAI_FAMILY
      else
        (* protocol sanity check *)
        let sw : option Z :=
          if ai_socktype h =? SOCK_STREAM then Some IPPROTO_TCP
          else if ai_socktype h =? SOCK_DGRAM then Some IPPROTO_UDP
          else if (ai_socktype h =? SOCK_RAW) || (ai_socktype h =? 0) then Some 0
          else None in
        match sw with
        | None => inl EAI_SOCKTYPE
        | Some protocol =>
            if truthy (ai_protocol h) && truthy protocol
               && negb (protocol =? ai_protocol h)
            then inl EAI_SERVICE
            else inr (flags, protocol)
        end
  end.

(** The block that sets [ip] (and [name] from a lookup): the error it
    returns, or [ip] and [name]. *)
Definition resolve_node (node : option string) (flags : Z) (w : world)
  : (Z + Z * option string) * world :=
  match node with
  | None =>
      (inr (if truthy (Z.land flags AI_PASSIVE) then htonl INADDR_ANY
            else htonl INADDR_LOOPBACK, None), w)
  | Some n =>
      let ip := inet_addr n in
      if ip =? INADDR_NONE then
        (* hostname resolution *)
        let '(entry, w) :=
          if negb (truthy (Z.land flags AI_NUMERICHOST)) then gethostbyname n w
          else (None, w) in
        match entry with
        | None => (inl (gai_error_from_herrno w), w)
        | Some e =>
            if negb (h_length e =? 4) || negb (h_addrtype e =? AF_INET)
            then (inl EAI_FAMILY, w)
            else (inr (h_addr e,
                       if truthy (Z.land flags AI_CANONNAME) then Some (h_name e)
                       else None), w)
        end
      else (inr (ip, None), w)
  end.

(** The service resolution block: the error it returns, or [port]. *)
Definition resolve_service (service : option string) (w : world)
  : (Z + Z) * world :=
  match service with
  | None => (inr 0, w)
  | Some s =>
      let '(d, end_, range) := strtoul s in
      let w := if range then set_errno ERANGE w else w in
      if negb (end_ =? "")%string || (d >? 65535) then (inl EAI_SERVICE, w)
      else (inr (htons d), w)
  end.

(** [if (flags & AI_PASSIVE) info->ai_flags |= AI_PASSIVE;] *)
Definition or_passive (flags info : Z) (w : world) : world :=
  if truthy (Z.land flags AI_PASSIVE) then
    match read_info info w with
    | Some ai =>
        store info
          (BInfo (mk_addrinfo (Z.lor (ai_flags ai) AI_PASSIVE) (ai_family ai)
                    (ai_socktype ai) (ai_protocol ai) (ai_addrlen ai)
                    (ai_addr ai) (ai_canonname ai) (ai_next ai))) w
    | None => set_fault w
    end
  else w.

(** [info->ai_next = next;] *)
Definition set_next (info next : Z) (w : world) : world :=
  match read_info info w with
  | Some ai =>
      store info
        (BInfo (mk_addrinfo (ai_flags ai) (ai_family ai) (ai_socktype ai)
                  (ai_protocol ai) (ai_addrlen ai) (ai_addr ai)
                  (ai_canonname ai) next)) w
  | None => set_fault w
  end.

(** The part after "building results...". [res] is the current value of
    [*res]; the result is the return code and the final value of [*res]. *)
Definition build_results (flags protocol ip port : Z) (name : option string)
    (res : Z) (w : world) : Z * Z * world :=
  let udp : (Z + Z) * world :=
    if negb (truthy protocol) || (protocol =? IPPROTO_UDP) then
      let '(info, w) := makeipv4info SOCK_DGRAM IPPROTO_UDP ip port name w in
      if info =? NULL then (inl EAI_SYSTEM, set_errno ENOMEM w)
      else (inr info, or_passive flags info w)
    else (inr res, w) in
  match udp with
  | (inl e, w) => (e, res, w)
  | (inr res, w) =>
      if negb (truthy protocol) || (protocol =? IPPROTO_TCP) then
        let '(info, w) := makeipv4info SOCK_STREAM IPPROTO_TCP ip port name w in
        if info =? NULL then (EAI_SYSTEM, res, set_errno ENOMEM w)
        else
          let w := set_next info res w in
          let w := or_passive flags info w in
          (0, info, w)
      else (0, res, w)
  end.

(** [if ((flags & AI_CANONNAME) && (name == NULL)) name = node;] *)
Definition canon_name (flags : Z) (name node : option string) : option string :=
  if truthy (Z.land flags AI_CANONNAME)
  then match name with None => node | Some _ => name end
  else name.

(** [getaddrinfo (node, service, hints, res)]: [res0] is what [*res] holds
    before the call; the result is the return code, what [*res] holds
    after the call, and the world after the call. *)
Definition getaddrinfo (node service : option string) (hints : option addrinfo)
    (res0 : Z) (w : world) : Z * Z * world :=
  match check_hints hints with
  | inl e => (e, res0, w)
  | inr (flags, protocol) =>
      (* *res = NULL; *)
      let res := NULL in
      match resolve_node node flags w with
      | (inl e, w) => (e, res, w)
      | (inr (ip, name), w) =>
          let name := canon_name flags name node in
          match resolve_service service w with
          | (inl e, w) => (e, res, w)
          | (inr port, w) => build_results flags protocol ip port name res w
          end
      end
  end.

(** The records of the list that starts at [p], as far as the heap holds
    it. *)
Inductive addrinfo_list (h : gmap Z block) : Z -> list addrinfo -> Prop :=
  | addrinfo_list_nil : addrinfo_list h NULL []
  | addrinfo_list_cons p ai l :
      p <> NULL ->
      h !! p = Some (BInfo ai) ->
      addrinfo_list h (ai_next ai) l ->
      addrinfo_list h p (ai :: l).

(** The socket address a record owns. *)
Definition sockaddr_of (h : gmap Z block) (ai : addrinfo) : option sockaddr_in :=
  match h !! ai_addr ai with
  | Some (BAddr sa) => Some sa
  | _ => None
  end.

(** A resolver that knows no host at all. *)
Definition no_hosts : string -> hostent + Z := fun _ => inr HOST_NOT_FOUND.

(** A world with an empty heap and [h_errno = 0]. *)
Definition world0 (oracle : list bool) (dns : string -> hostent + Z) : world :=
  mk_world ∅ oracle dns 0 0 false [].

(* ===================================================================== *)
(** ** Vocabulary of the statements                                      *)
(* ===================================================================== *)

Definition lookup_of (e : event) : option string :=
  match e with
  | EvLookup n => Some n
  | _ => None
  end.

(** The names handed to [gethostbyname], in order. *)
Definition lookups (t : list event) : list string := omap lookup_of t.

(** What no allocation, release or store changes. *)
Definition same_env (w w' : world) : Prop :=
  resolver w' = resolver w /\ h_errno w' = h_errno w /\ errno w' = errno w
  /\ fault w' = fault w /\ lookups (trace w') = lookups (trace w).

(** All the coming allocation requests succeed. *)
Definition plenty (w : world) : Prop := Forall (eq true) (mallocs w).

(** The heap [h'] is [h] with one more record at [p], made of fresh
    blocks: the struct, its address buffer and, when a name was given, its
    copy of the name. *)
Definition built (h h' : gmap Z block) (p af ty pr len : Z)
    (addr : sockaddr_in) (name : option string) : Prop :=
  exists pa pc,
    p <> NULL /\ pa <> NULL /\ pa <> p
    /\ h !! p = None /\ h !! pa = None
    /\ h' !! p = Some (BInfo (mk_addrinfo 0 af ty pr len pa pc NULL))
    /\ h' !! pa = Some (BAddr addr)
    /\ match name with
       | None => pc = NULL
       | Some s =>
           pc <> NULL /\ pc <> p /\ pc <> pa /\ h !! pc = None
           /\ h' !! pc = Some (BStr s)
       end
    /\ (forall q, q <> p -> q <> pa -> pc = NULL \/ q <> pc -> h' !! q = h !! q).

(** The heap holds at [p] a record with flags [fl], socket type [ty],
    protocol [pr] and successor [nxt], which owns a socket address with
    the address [ip] and the port [port] and, when [name] is given, a copy
    of it. *)
Definition node_at (h : gmap Z block) (p fl ty pr ip port : Z)
    (name : option string) (nxt : Z) : Prop :=
  p <> NULL /\ exists pa pc,
    h !! p = Some (BInfo (mk_addrinfo fl AF_INET ty pr sizeof_sockaddr_in pa pc nxt))
    /\ pa <> p
    /\ h !! pa = Some (BAddr (mk_sockaddr_in sizeof_sockaddr_in AF_INET port ip))
    /\ match name with
       | None => pc = NULL
       | Some s => pc <> p /\ pc <> NULL /\ h !! pc = Some (BStr s)
       end.

(** Every live block of [h] is the same in [h']. *)
Definition preserves (h h' : gmap Z block) : Prop :=
  forall q b, h !! q = Some b -> h' !! q = Some b.

(** The value [ai_flags] ends with: the AI_PASSIVE bit of the request. *)
Definition passive_of (flags fl : Z) : Z :=
  if truthy (Z.land flags AI_PASSIVE) then Z.lor fl AI_PASSIVE else fl.

(** What a successful [build_results] leaves at [r]: the TCP record
    followed by the UDP record when no protocol was chosen, else the one
    record of the chosen protocol. *)
Definition results_at (h : gmap Z block) (r flags protocol ip port : Z)
    (name : option string) : Prop :=
  (protocol = 0 /\ exists p1,
      node_at h r (passive_of flags 0) SOCK_STREAM IPPROTO_TCP ip port name p1
      /\ node_at h p1 (passive_of flags 0) SOCK_DGRAM IPPROTO_UDP ip port name NULL)
  \/ (protocol = IPPROTO_TCP
      /\ node_at h r (passive_of flags 0) SOCK_STREAM IPPROTO_TCP ip port name NULL)
  \/ (protocol = IPPROTO_UDP
      /\ node_at h r (passive_of flags 0) SOCK_DGRAM IPPROTO_UDP ip port name NULL).

Definition hint_socktype (hints : option addrinfo) : Z :=
  match hints with
  | Some h => ai_socktype h
  | None => 0
  end.

Definition hint_flags (hints : option addrinfo) : Z :=
  match hints with
  | Some h => ai_flags h
  | None => 0
  end.

(** The four codes the block of the hints can return. *)
Definition hint_errors : list Z :=
  [ EAI_BADFLAGS; EAI_FAMILY; EAI_SOCKTYPE; EAI_SERVICE ].

(** The codes a failed address determination can return. *)
Definition lookup_errors : list Z :=
  [ EAI_NONAME; EAI_NODATA; EAI_FAIL; EAI_AGAIN; EAI_SYSTEM; EAI_FAMILY ].

(** The text [s] is not a port number: something follows the number, or
    the number is above 65535. *)
Definition bad_service (s : string) : Prop :=
  let '(d, end_, _) := strtoul s in end_ <> "" \/ d > 65535.

(** The text [s] reads as the decimal number [m]. *)
Definition reads_as (s : string) (m : Z) : Prop :=
  forall v t,
    scan_digits 10 v (s ++ t)%string
    = scan_digits 10 (v * 10 ^ Z.of_nat (String.length s) + m) t.

(** What may follow a number inside an address: nothing, or a dot. *)
Definition stops (t : string) : Prop := t = "" \/ exists r, t = String "."%char r.

(** What a record of a result list says. *)
Definition record_ok (h : gmap Z block) (ai : addrinfo)
    (fl ty pr ip port : Z) : Prop :=
  ai_flags ai = fl /\ ai_family ai = AF_INET /\ ai_socktype ai = ty
  /\ ai_protocol ai = pr /\ ai_addrlen ai = sizeof_sockaddr_in
  /\ sockaddr_of h ai = Some (mk_sockaddr_in sizeof_sockaddr_in AF_INET port ip).

(** Hints that ask for TCP over IPv4 and echo AI_PASSIVE. *)
Definition stream_hints : addrinfo :=
  mk_addrinfo AI_PASSIVE AF_INET SOCK_STREAM 0 0 NULL NULL NULL.

(** Hints with a flag bit outside the mask. *)
Definition bad_flag_hints : addrinfo := mk_addrinfo 8 0 0 0 0 NULL NULL NULL.

(** A resolver that knows the one name "host". *)
Definition one_host : string -> hostent + Z :=
  fun n => if (n =? "host")%string
           then inl (mk_hostent "host" AF_INET 4 (htonl (ipv4_of 10 0 0 1)))
           else inr HOST_NOT_FOUND.

(** Hints that ask for the canonical name. *)
Definition canon_hints : addrinfo :=
  mk_addrinfo AI_CANONNAME 0 0 0 0 NULL NULL NULL.

(** Hints that forbid the name lookup. *)
Definition numeric_hints : addrinfo :=
  mk_addrinfo AI_NUMERICHOST 0 0 0 0 NULL NULL NULL.

(** A world in which an earlier lookup left TRY_AGAIN in [h_errno]. *)
Definition stale_world : world := mk_world ∅ [] no_hosts TRY_AGAIN 0 false [].

(** The text [getnameinfo] formats for the host: the four bytes of the
    address, most significant first. *)
Definition host_text (sa : sockaddr_in) : string :=
  let ipv4 := ntohl (sin_addr sa) in
  fmt_ipv4 (Z.shiftr ipv4 24) (Z.land (Z.shiftr ipv4 16) 0xff)
    (Z.land (Z.shiftr ipv4 8) 0xff) (Z.land ipv4 0xff).

(** The text [getnameinfo] formats for the service. *)
Definition serv_text (sa : sockaddr_in) : string := utoa (ntohs (sin_port sa)).

(** The three checks of [getnameinfo] that come before any text is
    written: the code they return, if any. *)
Definition getnameinfo_gate (sa : sockaddr_in) (salen : Z)
    (host : option string) (flags : Z) : option Z :=
  if (to_size_t salen <? sizeof_sockaddr_in) || negb (sin_family sa =? AF_INET)
  then Some EAI_FAMILY
  else if truthy (Z.land flags (Z.lnot _NI_MASK)) then Some EAI_BADFLAGS
  else match host with
       | Some _ =>
           if negb (truthy (Z.land flags NI_NUMERICHOST))
              && truthy (Z.land flags NI_NAMEREQD)
           then Some EAI_NONAME else None
       | None => None
       end.

(** The canonical name a record owns, if it has one. *)
Definition canonname_of (h : gmap Z block) (ai : addrinfo) : option string :=
  if ai_canonname ai =? NULL then None
  else match h !! ai_canonname ai with
       | Some (BStr s) => Some s
       | _ => None
       end.

(** The four fields every record of a result list has, its socket
    address and its name. *)
Definition record_of (h : gmap Z block) (flags ip port : Z)
    (name : option string) (ai : addrinfo) : Prop :=
  ai_flags ai = passive_of flags 0 /\ ai_family ai = AF_INET
  /\ ai_addrlen ai = sizeof_sockaddr_in
  /\ ((ai_socktype ai = SOCK_STREAM /\ ai_protocol ai = IPPROTO_TCP)
      \/ (ai_socktype ai = SOCK_DGRAM /\ ai_protocol ai = IPPROTO_UDP))
  /\ sockaddr_of h ai = Some (mk_sockaddr_in sizeof_sockaddr_in AF_INET port ip)
  /\ canonname_of h ai = name.

(** The heap [h'] is [h] and, on top of it, one record at [p] that is the
    last of its list: its struct, its address buffer and, if it has one,
    its name, all three on fresh addresses. *)
Definition lone_record (h h' : gmap Z block) (p : Z) : Prop :=
  exists ai,
    p <> NULL /\ h !! p = None /\ h' !! p = Some (BInfo ai)
    /\ ai_next ai = NULL
    /\ ai_addr ai <> NULL /\ ai_addr ai <> p
    /\ h !! ai_addr ai = None /\ is_Some (h' !! ai_addr ai)
    /\ (ai_canonname ai = NULL
        \/ (ai_canonname ai <> NULL
            /\ ai_canonname ai <> p /\ ai_canonname ai <> ai_addr ai
            /\ h !! ai_canonname ai = None /\ is_Some (h' !! ai_canonname ai)))
    /\ (forall q, q <> p -> q <> ai_addr ai ->
                  ai_canonname ai = NULL \/ q <> ai_canonname ai ->
                  h' !! q = h !! q).

(** The text [s] is the decimal numeral of [m]: digits only, at least
    one, the first of them not 0. *)
Fixpoint decimal_value (acc : Z) (s : string) : Z :=
  match s with
  | String c s' => decimal_value (acc * 10 + (ascii_code c - 48)) s'
  | EmptyString => acc
  end.

Fixpoint all_digits (s : string) : bool :=
  match s with
  | String c s' => isdigit c && all_digits s'
  | EmptyString => true
  end.

Definition decimal_numeral (s : string) (m : Z) : Prop :=
  match s with
  | String c _ => ascii_code c <> 48 /\ all_digits s = true /\ decimal_value 0 s = m
  | EmptyString => False
  end.

(* ===================================================================== *)
(** * Properties                                                         *)
(* ===================================================================== *)

(** ** Arithmetic of the byte-order helpers *)

Lemma land_shiftl_low (hi lo k : Z) :
  0 <= k -> 0 <= lo < 2 ^ k -> Z.land (Z.shiftl hi k) lo = 0.
Proof.
  intros Hk Hlo. apply Z.bits_inj'; intros n Hn.
  rewrite Z.land_spec, Z.bits_0.
  destruct (Z.lt_ge_cases n k) as [Hlt | Hge].
  - rewrite Z.shiftl_spec_low by lia. reflexivity.
  - replace (Z.testbit lo n) with false; [ apply Bool.andb_false_r | ].
    symmetry. destruct (Z.eq_dec lo 0) as [-> | Hne]; [ apply Z.bits_0 | ].
    apply Z.bits_above_log2; [ lia | ].
    apply Z.lt_le_trans with k; [ | lia ].
    apply Z.log2_lt_pow2; lia.
Qed.

Lemma lor_shiftl_add (hi lo k : Z) :
  0 <= k -> 0 <= lo < 2 ^ k -> Z.lor (Z.shiftl hi k) lo = hi * 2 ^ k + lo.
Proof.
  intros Hk Hlo.
  rewrite <- Z.lxor_lor, <- Z.add_nocarry_lxor by (apply land_shiftl_low; lia).
  rewrite Z.shiftl_mul_pow2 by lia. reflexivity.
Qed.

Section Octets.
Variables a b c d : Z.
Hypotheses (Ha : octet a) (Hb : octet b) (Hc : octet c) (Hd : octet d).

Lemma ipv4_of_sum :
  ipv4_of a b c d = a * 2 ^ 24 + b * 2 ^ 16 + c * 2 ^ 8 + d.
Proof.
  unfold octet, ipv4_of in *.
  rewrite (lor_shiftl_add c d 8) by lia.
  rewrite (lor_shiftl_add b _ 16) by lia.
  rewrite (lor_shiftl_add a _ 24) by lia.
  lia.
Qed.

Lemma ipv4_of_bytes :
  let x := ipv4_of a b c d in
  Z.shiftr x 24 = a /\ Z.land (Z.shiftr x 16) 0xff = b /\
  Z.land (Z.shiftr x 8) 0xff = c /\ Z.land x 0xff = d.
Proof.
  intros x. subst x. rewrite ipv4_of_sum.
  unfold octet in *.
  change 0xff with (Z.ones 8).
  rewrite !Z.land_ones, !Z.shiftr_div_pow2 by lia.
  change (2 ^ 24) with 16777216. change (2 ^ 16) with 65536.
  change (2 ^ 8) with 256.
  repeat split; Z.div_mod_to_equations; lia.
Qed.

Lemma ipv4_of_top_byte : Z.land (Z.shiftr (ipv4_of a b c d) 24) 0xff = a.
Proof.
  destruct ipv4_of_bytes as (E1 & _). rewrite E1.
  change 0xff with (Z.ones 8). rewrite Z.land_ones by lia.
  unfold octet in Ha. apply Z.mod_small. lia.
Qed.
End Octets.

Lemma bswap32_ipv4_of (a b c d : Z) :
  octet a -> octet b -> octet c -> octet d ->
  bswap32 (ipv4_of a b c d) = ipv4_of d c b a.
Proof.
  intros Ha Hb Hc Hd.
  destruct (ipv4_of_bytes a b c d Ha Hb Hc Hd) as (_ & E2 & E3 & E4).
  unfold bswap32.
  rewrite E2, E3, E4, (ipv4_of_top_byte a b c d Ha Hb Hc Hd). reflexivity.
Qed.

Lemma bswap16_port (p : Z) : 0 <= p < 65536 -> bswap16 (bswap16 p) = p.
Proof.
  intros Hp. unfold bswap16.
  change 0xff with (Z.ones 8).
  rewrite !Z.land_ones, !Z.shiftr_div_pow2 by lia.
  rewrite !lor_shiftl_add by (try lia; apply Z.mod_pos_bound; lia).
  change (2 ^ 8) with 256.
  Z.div_mod_to_equations; lia.
Qed.

(** ** Text helpers *)

Lemma substring_all (s : string) : substring 0 (String.length s) s = s.
Proof. induction s as [| c s IH]; simpl; [ reflexivity | now rewrite IH ]. Qed.

Lemma snprintf_fits (buf : string) (size : Z) (s : string) :
  strlen s < size < 2 ^ 32 -> snprintf buf size s = (s, strlen s).
Proof.
  intros H. unfold snprintf, to_size_t, strlen in *.
  rewrite Z.mod_small by lia.
  destruct (Z.eqb_spec size 0) as [-> | _]; [ lia | ].
  rewrite Z.min_l by lia. rewrite Nat2Z.id, substring_all. reflexivity.
Qed.

(** ** gai_strerror *)

Ltac split_code code :=
  repeat match goal with
         | |- context [code =? ?k] => destruct (Z.eqb_spec code k)
         end.

(** C9 (as amended). [gai_strerror] never returns the empty string; each of
    the twelve EAI_ codes has its own fixed text; 0 has the text "Error 0";
    and a code that is neither one of the twelve nor 0 gets the text
    "Unrecognized error number". *)
Theorem gai_strerror_spec (code : Z) :
  gai_strerror code <> ""
  /\ (gai_strerror EAI_BADFLAGS = "Invalid flag used"
      /\ gai_strerror EAI_NONAME = "Host or service not found"
      /\ gai_strerror EAI_AGAIN = "Temporary name service failure"
      /\ gai_strerror EAI_FAIL = "Non-recoverable name service failure"
      /\ gai_strerror EAI_NODATA = "No data for host name"
      /\ gai_strerror EAI_FAMILY = "Unsupported address family"
      /\ gai_strerror EAI_SOCKTYPE = "Unsupported socket type"
      /\ gai_strerror EAI_SERVICE = "Incompatible service for socket type"
      /\ gai_strerror EAI_ADDRFAMILY = "Unavailable address family for host name"
      /\ gai_strerror EAI_MEMORY = "Memory allocation failure"
      /\ gai_strerror EAI_OVERFLOW = "Buffer overflow"
      /\ gai_strerror EAI_SYSTEM = "System error"
      /\ gai_strerror 0 = "Error 0")
  /\ (~ In code eai_codes -> code <> 0 ->
      gai_strerror code = "Unrecognized error number").
Proof.
  split; [ | split ].
  - unfold gai_strerror, gai_errlist. cbn [gai_strerror_from].
    split_code code; discriminate.
  - repeat split; reflexivity.
  - intros Hout Hnz. unfold gai_strerror, gai_errlist. cbn [gai_strerror_from].
    split_code code; try reflexivity; subst; try congruence;
      exfalso; apply Hout; unfold eai_codes; simpl; tauto.
Qed.

Lemma gai_strerror_spec_witness :
  gai_strerror (-999) = "Unrecognized error number".
Proof.
  apply (proj2 (proj2 (gai_strerror_spec (-999)))).
  - unfold eai_codes. simpl. intros H.
    repeat (destruct H as [H | H]; [ discriminate H | ]). exact H.
  - discriminate.
Defined.

(** C9 (as stated) fails at 0: 0 is not one of the twelve EAI_ codes, yet
    its text is "Error 0" and not "Unrecognized error number". *)
Lemma gai_strerror_zero :
  ~ In 0 eai_codes
  /\ gai_strerror 0 = "Error 0"
  /\ gai_strerror 0 <> "Unrecognized error number".
Proof.
  split; [ | split ].
  - unfold eai_codes. simpl. intros H.
    repeat (destruct H as [H | H]; [ discriminate H | ]). exact H.
  - reflexivity.
  - discriminate.
Qed.

(** ** getnameinfo *)

Lemma ntohl_htonl_bytes (a b c d : Z) :
  octet a -> octet b -> octet c -> octet d ->
  let x := ntohl (htonl (ipv4_of a b c d)) in
  Z.shiftr x 24 = a /\ Z.land (Z.shiftr x 16) 0xff = b /\
  Z.land (Z.shiftr x 8) 0xff = c /\ Z.land x 0xff = d.
Proof.
  intros Ha Hb Hc Hd. unfold ntohl, htonl.
  rewrite bswap32_ipv4_of, bswap32_ipv4_of by assumption.
  apply ipv4_of_bytes; assumption.
Qed.

(** C8. For the socket address [a.b.c.d] port [port] and the flags
    NI_NUMERICHOST and NI_NUMERICSERV: when both texts fit, the host
    buffer receives the dotted-decimal address, the service buffer the
    decimal port, and 0 is returned; a host text that does not fit gives
    EAI_OVERFLOW whatever the service buffer is, a service text that does
    not fit gives EAI_OVERFLOW although the host text fits, and the same
    holds when only one of the two buffers is supplied. *)
Theorem getnameinfo_numeric (a b c d port hostlen servlen : Z) (hbuf sbuf : string) :
  octet a -> octet b -> octet c -> octet d -> 0 <= port < 65536 ->
  hostlen < 2 ^ 31 -> servlen < 2 ^ 31 ->
  let sa := mk_sockaddr_in sizeof_sockaddr_in AF_INET (htons port)
              (htonl (ipv4_of a b c d)) in
  let flags := Z.lor NI_NUMERICHOST NI_NUMERICSERV in
  let H := fmt_ipv4 a b c d in
  let S := utoa port in
  (strlen H < hostlen -> strlen S < servlen ->
   getnameinfo sa sizeof_sockaddr_in (Some hbuf) hostlen (Some sbuf) servlen flags
   = (0, Some H, Some S))
  /\ (hostlen <= strlen H ->
      forall serv, exists h',
        getnameinfo sa sizeof_sockaddr_in (Some hbuf) hostlen serv servlen flags
        = (EAI_OVERFLOW, h', serv))
  /\ (servlen <= strlen S -> strlen H < hostlen -> exists s',
        getnameinfo sa sizeof_sockaddr_in (Some hbuf) hostlen (Some sbuf) servlen flags
        = (EAI_OVERFLOW, Some H, s'))
  /\ (servlen <= strlen S -> exists s',
        getnameinfo sa sizeof_sockaddr_in None hostlen (Some sbuf) servlen flags
        = (EAI_OVERFLOW, None, s'))
  /\ (strlen H < hostlen ->
      getnameinfo sa sizeof_sockaddr_in (Some hbuf) hostlen None servlen flags
      = (0, Some H, None))
  /\ (strlen S < servlen ->
      getnameinfo sa sizeof_sockaddr_in None hostlen (Some sbuf) servlen flags
      = (0, None, Some S)).
Proof.
  intros Ha Hb Hc Hd Hp Hhl Hsl sa flags H S.
  destruct (ntohl_htonl_bytes a b c d Ha Hb Hc Hd) as (E1 & E2 & E3 & E4).
  assert (Eport : ntohs (sin_port sa) = port) by (apply bswap16_port; exact Hp).
  assert (Eserv : forall host,
             getnameinfo_serv sa host (Some sbuf) servlen
             = (if strlen S >=? servlen then EAI_OVERFLOW else 0, host,
                Some (fst (snprintf sbuf servlen S)))).
  { intros host. unfold getnameinfo_serv. rewrite Eport. fold S.
    unfold snprintf. cbn [fst]. destruct (strlen S >=? servlen); reflexivity. }
  assert (Ehost : forall serv,
             getnameinfo sa sizeof_sockaddr_in (Some hbuf) hostlen serv servlen flags
             = if strlen H >=? hostlen
               then (EAI_OVERFLOW, Some (fst (snprintf hbuf hostlen H)), serv)
               else getnameinfo_serv sa (Some (fst (snprintf hbuf hostlen H))) serv servlen).
  { intros serv. unfold getnameinfo.
    change (to_size_t sizeof_sockaddr_in <? sizeof_sockaddr_in) with false.
    change (sin_family sa =? AF_INET) with true.
    change (truthy (Z.land flags (Z.lnot _NI_MASK))) with false.
    change (truthy (Z.land flags NI_NUMERICHOST)) with true.
    cbn [negb orb andb]. cbn [sin_addr sa]. rewrite E1, E2, E3, E4. fold H.
    unfold snprintf. cbn [fst]. reflexivity. }
  assert (Enone : forall serv,
             getnameinfo sa sizeof_sockaddr_in None hostlen serv servlen flags
             = getnameinfo_serv sa None serv servlen) by reflexivity.
  assert (Hlen : forall s, 0 <= strlen s) by (intros s; unfold strlen; lia).
  repeat split.
  - intros Hh Hs. rewrite Ehost, Eserv.
    destruct (Z.geb_spec (strlen H) hostlen); [ lia | ].
    destruct (Z.geb_spec (strlen S) servlen); [ lia | ].
    rewrite !snprintf_fits by lia. reflexivity.
  - intros Hh serv. rewrite Ehost.
    destruct (Z.geb_spec (strlen H) hostlen); [ | lia ]. eauto.
  - intros Hs Hh. rewrite Ehost, Eserv.
    destruct (Z.geb_spec (strlen H) hostlen); [ lia | ].
    destruct (Z.geb_spec (strlen S) servlen); [ | lia ].
    rewrite (snprintf_fits hbuf) by lia. eauto.
  - intros Hs. rewrite Enone, Eserv.
    destruct (Z.geb_spec (strlen S) servlen); [ | lia ]. eauto.
  - intros Hh. rewrite Ehost.
    destruct (Z.geb_spec (strlen H) hostlen); [ lia | ].
    rewrite snprintf_fits by lia. reflexivity.
  - intros Hs. rewrite Enone, Eserv.
    destruct (Z.geb_spec (strlen S) servlen); [ lia | ].
    rewrite snprintf_fits by lia. reflexivity.
Qed.

Lemma getnameinfo_numeric_witness :
  getnameinfo
    (mk_sockaddr_in 16 AF_INET (htons 8080) (htonl (ipv4_of 192 168 1 1)))
    16 (Some "") 64 (Some "") 16 (Z.lor NI_NUMERICHOST NI_NUMERICSERV)
  = (0, Some "192.168.1.1", Some "8080").
Proof.
  apply (proj1 (getnameinfo_numeric 192 168 1 1 8080 64 16 "" ""
                  ltac:(unfold octet; lia) ltac:(unfold octet; lia)
                  ltac:(unfold octet; lia) ltac:(unfold octet; lia)
                  ltac:(lia) ltac:(lia) ltac:(lia)));
    vm_compute; reflexivity.
Defined.

(** ** The heap *)

Lemma same_env_refl w : same_env w w.
Proof. repeat split. Qed.

Lemma same_env_trans w1 w2 w3 : same_env w1 w2 -> same_env w2 w3 -> same_env w1 w3.
Proof. unfold same_env. intros (?&?&?&?&?) (?&?&?&?&?). repeat split; congruence. Qed.

Create HintDb heap.
#[local] Hint Resolve same_env_refl same_env_trans : heap.

Lemma fresh_ptr_spec (h : gmap Z block) : fresh_ptr h <> NULL /\ h !! fresh_ptr h = None.
Proof.
  unfold fresh_ptr. pose proof (is_fresh ({[NULL]} ∪ dom h)) as Hf. split.
  - intros E. apply Hf. rewrite E. set_solver.
  - apply not_elem_of_dom. set_solver.
Qed.

Lemma malloc_spec init w p w' :
  malloc init w = (p, w') ->
  same_env w w'
  /\ (plenty w -> p <> NULL /\ plenty w')
  /\ ((p = NULL /\ heap w' = heap w)
      \/ (p <> NULL /\ heap w !! p = None /\ heap w' = <[p := init]> (heap w))).
Proof.
  unfold malloc, plenty. intros E.
  destruct (fresh_ptr_spec (heap w)) as [Hnz Hfr].
  assert (Hlk : forall t e, lookups (t ++ [EvMalloc e]) = lookups t).
  { intros t e. unfold lookups. rewrite omap_app. simpl. apply app_nil_r. }
  destruct (mallocs w) as [| [] rest] eqn:Em; inversion E; subst; clear E.
  - split; [ repeat split; simpl; auto | ]. split.
    + intros _. split; [ exact Hnz | simpl; constructor ].
    + right. simpl. auto.
  - split; [ repeat split; simpl; auto | ]. split.
    + intros Hp. split; [ exact Hnz | simpl; inversion Hp; assumption ].
    + right. simpl. auto.
  - split; [ repeat split; simpl; auto | ]. split.
    + intros Hp. inversion Hp; discriminate.
    + left. simpl. auto.
Qed.

Lemma store_live p b w :
  is_Some (heap w !! p) -> store p b w = set_heap (<[p := b]> (heap w)) w.
Proof. intros [x Hx]. unfold store. rewrite Hx. reflexivity. Qed.

Lemma free_live p w :
  p <> NULL -> is_Some (heap w !! p) ->
  free p w = log (EvFree p) (set_heap (delete p (heap w)) w).
Proof.
  intros Hp [x Hx]. unfold free. rewrite Hx.
  destruct (Z.eqb_spec p NULL); [ contradiction | reflexivity ].
Qed.

Lemma field_live f res ai w :
  heap w !! res = Some (BInfo ai) -> field f res w = (f ai, w).
Proof. intros H. unfold field, read_info. rewrite H. reflexivity. Qed.

Lemma lookups_free t p : lookups (t ++ [EvFree p]) = lookups t.
Proof. unfold lookups. rewrite omap_app. simpl. apply app_nil_r. Qed.

Lemma lookups_malloc t p : lookups (t ++ [EvMalloc p]) = lookups t.
Proof. unfold lookups. rewrite omap_app. simpl. apply app_nil_r. Qed.

Ltac env_step :=
  repeat split; simpl; rewrite ?lookups_free, ?lookups_malloc; reflexivity.

(** Rewriting steps for the heap operations of a hypothesis [E]. *)
Ltac heap_proj :=
  cbn [heap mallocs resolver h_errno errno fault trace
       set_heap set_mallocs set_h_errno set_errno set_fault log].

Ltac live_tac :=
  heap_proj;
  repeat match goal with H : heap _ = _ |- _ => rewrite H end;
  repeat first [ rewrite lookup_insert_eq
               | rewrite lookup_insert_ne by congruence
               | rewrite lookup_delete_ne by congruence ];
  solve [ eauto | reflexivity | assumption | congruence ].

Ltac do_store E :=
  match type of E with
  | context [store ?p ?b ?w] => rewrite (store_live p b w) in E by live_tac
  end.

Ltac do_field E :=
  match type of E with
  | context [field ?f ?p ?w] =>
      erewrite (field_live f p _ w) in E by live_tac
  end.

Ltac do_free E :=
  match type of E with
  | context [free NULL ?w] => change (free NULL w) with w in E
  | context [free ?p ?w] => rewrite (free_live p w) in E by live_tac
  end.

Lemma makeaddrinfo_spec af ty pr addr len name w p w' :
  makeaddrinfo af ty pr addr len name w = (p, w') ->
  same_env w w'
  /\ (plenty w -> p <> NULL /\ plenty w')
  /\ ((p = NULL /\ heap w' = heap w)
      \/ built (heap w) (heap w') p af ty pr len addr name).
Proof.
  unfold makeaddrinfo. intros E.
  destruct (malloc (BInfo blank_addrinfo) w) as [res w1] eqn:E1.
  apply malloc_spec in E1 as (Henv1 & Hpl1 & Hc1).
  destruct (Z.eqb_spec res NULL) as [-> | Hres]; cbn [negb] in E.
  { (* no struct *)
    change (freeaddrinfo NULL w1) with w1 in E. inversion E; subst.
    destruct Hc1 as [[_ Hh1] | [Hc _]]; [ | contradiction ].
    split; [ exact Henv1 | ]. split; [ | left; auto ].
    intros Hp. destruct (Hpl1 Hp) as [Hc _]. contradiction. }
  destruct Hc1 as [[Hc _] | (_ & Hfr1 & Hh1)]; [ contradiction | ].
  destruct (malloc (BAddr blank_sockaddr) w1) as [pa w2] eqn:E2.
  apply malloc_spec in E2 as (Henv2 & Hpl2 & Hc2).
  destruct (Z.eqb_spec pa NULL) as [-> | Hpa]; cbn [negb] in E.
  { (* no address buffer *)
    destruct Hc2 as [[_ Hh2] | [Hc _]]; [ | contradiction ].
    unfold freeaddrinfo in E.
    destruct (Z.eqb_spec res NULL) as [? | _]; [ contradiction | ].
    do_store E.
    do_field E. cbn [ai_canonname] in E. do_free E.
    do_field E. cbn [ai_addr] in E. do_free E.
    do_field E. cbn [ai_next] in E. do_free E.
    do_free E.
    inversion E; subst p w'; clear E.
    split; [ | split ].
    - eapply same_env_trans; [ exact Henv1 | ].
      eapply same_env_trans; [ exact Henv2 | ]. env_step.
    - intros Hp. destruct (Hpl1 Hp) as [_ Hp1]. destruct (Hpl2 Hp1) as [Hc _].
      contradiction.
    - left. split; [ reflexivity | ]. heap_proj.
      rewrite delete_insert_eq, Hh2, Hh1, delete_insert_eq.
      apply delete_id. exact Hfr1. }
  destruct Hc2 as [[Hc _] | (_ & Hfr2 & Hh2)]; [ contradiction | ].
  assert (Hne : pa <> res).
  { intros ->. rewrite Hh1, lookup_insert_eq in Hfr2. discriminate. }
  assert (Hfr2' : heap w !! pa = None).
  { rewrite Hh1, lookup_insert_ne in Hfr2 by congruence. exact Hfr2. }
  do_store E. do_store E.
  destruct name as [s |].
  2: { (* no name wanted *)
    inversion E; subst p w'; clear E.
    split; [ | split ].
    - eapply same_env_trans; [ exact Henv1 | ].
      eapply same_env_trans; [ exact Henv2 | ]. env_step.
    - intros Hp. destruct (Hpl1 Hp) as [_ Hp1]. destruct (Hpl2 Hp1) as [_ Hp2].
      split; [ exact Hres | exact Hp2 ].
    - right. exists pa, NULL. heap_proj. rewrite Hh2, Hh1.
      repeat split; try assumption.
      + rewrite lookup_insert_ne, lookup_insert_eq by congruence. reflexivity.
      + rewrite lookup_insert_eq. reflexivity.
      + intros q Hq1 Hq2 _. rewrite !lookup_insert_ne by congruence. reflexivity. }
  unfold strdup in E.
  match type of E with context [malloc ?b ?w0] =>
    destruct (malloc b w0) as [pc w3] eqn:E3 end.
  apply malloc_spec in E3 as (Henv3 & Hpl3 & Hc3).
  assert (Henv3' : same_env w2 w3) by exact Henv3.
  assert (Hpl3' : plenty w2 -> pc <> NULL /\ plenty w3) by exact Hpl3.
  clear Henv3 Hpl3. revert Hc3. heap_proj. rewrite Hh2, Hh1. intros Hc3.
  destruct (Z.eqb_spec pc NULL) as [-> | Hpc]; cbn [negb] in E.
  { (* no copy of the name *)
    destruct Hc3 as [[_ Hh3] | [Hc _]]; [ | contradiction ].
    unfold freeaddrinfo in E.
    destruct (Z.eqb_spec res NULL) as [? | _]; [ contradiction | ].
    do_store E.
    do_field E. cbn [ai_canonname] in E. do_free E.
    do_field E. cbn [ai_addr] in E. do_free E.
    do_field E. cbn [ai_next] in E. do_free E.
    do_free E.
    inversion E; subst p w'; clear E.
    split; [ | split ].
    - eapply same_env_trans; [ exact Henv1 | ].
      eapply same_env_trans; [ exact Henv2 | ].
      eapply same_env_trans; [ exact Henv3' | ]. env_step.
    - intros Hp. destruct (Hpl1 Hp) as [_ Hp1]. destruct (Hpl2 Hp1) as [_ Hp2].
      destruct (Hpl3' Hp2) as [Hc _]. contradiction.
    - left. split; [ reflexivity | ]. heap_proj. rewrite Hh3.
      apply map_eq. intros q.
      destruct (decide (q = res)) as [-> | Hq1];
        [ rewrite lookup_delete_eq; congruence | ].
      rewrite lookup_delete_ne by congruence.
      destruct (decide (q = pa)) as [-> | Hq2];
        [ rewrite lookup_delete_eq; congruence | ].
      rewrite lookup_delete_ne by congruence.
      rewrite !lookup_insert_ne by congruence. reflexivity. }
  destruct Hc3 as [[Hc _] | (_ & Hfr3 & Hh3)]; [ contradiction | ].
  assert (Hne3 : pc <> res /\ pc <> pa /\ heap w !! pc = None).
  { repeat split.
    - intros ->. rewrite lookup_insert_ne, lookup_insert_eq in Hfr3 by congruence.
      discriminate.
    - intros ->. rewrite lookup_insert_eq in Hfr3. discriminate.
    - destruct (decide (pc = pa)) as [-> | N1];
        [ rewrite lookup_insert_eq in Hfr3; discriminate | ].
      destruct (decide (pc = res)) as [-> | N2];
        [ rewrite lookup_insert_ne, lookup_insert_eq in Hfr3 by congruence;
          discriminate | ].
      rewrite !lookup_insert_ne in Hfr3 by congruence. exact Hfr3. }
  destruct Hne3 as (Hn1 & Hn2 & Hfr3').
  do_store E. inversion E; subst p w'; clear E.
  split; [ | split ].
  - eapply same_env_trans; [ exact Henv1 | ].
    eapply same_env_trans; [ exact Henv2 | ].
    eapply same_env_trans; [ exact Henv3' | ]. env_step.
  - intros Hp. destruct (Hpl1 Hp) as [_ Hp1]. destruct (Hpl2 Hp1) as [_ Hp2].
    destruct (Hpl3' Hp2) as [_ Hp3]. split; [ exact Hres | exact Hp3 ].
  - right. exists pa, pc. heap_proj. rewrite Hh3.
    repeat split; try assumption.
    + rewrite lookup_insert_eq. reflexivity.
    + rewrite !lookup_insert_ne, lookup_insert_eq by congruence. reflexivity.
    + rewrite lookup_insert_ne, lookup_insert_eq by congruence. reflexivity.
    + intros q Hq1 Hq2 [Hq3 | Hq3]; [ contradiction | ].
      rewrite !lookup_insert_ne by congruence. reflexivity.
Qed.

(** ** Result records *)

Lemma preserves_trans h1 h2 h3 :
  preserves h1 h2 -> preserves h2 h3 -> preserves h1 h3.
Proof. intros H1 H2 q b H. apply H2, H1, H. Qed.

Lemma node_at_preserves h h' p fl ty pr ip port name nxt :
  preserves h h' ->
  node_at h p fl ty pr ip port name nxt -> node_at h' p fl ty pr ip port name nxt.
Proof.
  intros Hp (Hnz & pa & pc & H1 & H2 & H3 & H4).
  split; [ exact Hnz | ]. exists pa, pc. repeat split; auto.
  destruct name; [ | exact H4 ]. destruct H4 as (? & ? & ?). auto.
Qed.

Lemma makeipv4info_spec ty pr ip port name w p w' :
  makeipv4info ty pr ip port name w = (p, w') ->
  same_env w w'
  /\ (plenty w -> p <> NULL /\ plenty w')
  /\ ((p = NULL /\ heap w' = heap w)
      \/ (node_at (heap w') p 0 ty pr ip port name NULL
          /\ heap w !! p = None /\ preserves (heap w) (heap w'))).
Proof.
  unfold makeipv4info. intros E.
  apply makeaddrinfo_spec in E as (Henv & Hpl & [Hfail | Hb]).
  - split; [ exact Henv | ]. split; [ exact Hpl | ]. left. exact Hfail.
  - split; [ exact Henv | ]. split; [ exact Hpl | ]. right.
    destruct Hb as (pa & pc & Hp & Hpa & Hne & Hfp & Hfa & Hlp & Hla & Hn & Hfr).
    split; [ | split ]; [ | exact Hfp | ].
    + split; [ exact Hp | ]. exists pa, pc. repeat split; auto.
      destruct name; [ | exact Hn ]. destruct Hn as (?&?&?&?&?). auto.
    + intros q b Hq. rewrite Hfr; [ exact Hq | | | ].
      * intros ->. congruence.
      * intros ->. congruence.
      * destruct name as [s |]; [ right | left; exact Hn ].
        intros ->. destruct Hn as (?&?&?&?&?). congruence.
Qed.

Lemma set_next_spec p fl ty pr ip port name nxt0 nxt w :
  node_at (heap w) p fl ty pr ip port name nxt0 ->
  same_env w (set_next p nxt w)
  /\ mallocs (set_next p nxt w) = mallocs w
  /\ node_at (heap (set_next p nxt w)) p fl ty pr ip port name nxt
  /\ (forall q, q <> p -> heap (set_next p nxt w) !! q = heap w !! q).
Proof.
  intros (Hnz & pa & pc & H1 & H2 & H3 & H4).
  unfold set_next, read_info. rewrite H1.
  rewrite store_live by (rewrite H1; eauto). heap_proj.
  split; [ env_step | ]. split; [ reflexivity | ]. split.
  - split; [ exact Hnz | ]. exists pa, pc. cbn [ai_flags ai_family ai_socktype
      ai_protocol ai_addrlen ai_addr ai_canonname].
    rewrite lookup_insert_eq, lookup_insert_ne by congruence.
    repeat split; auto.
    destruct name; [ | exact H4 ]. destruct H4 as (?&?&?).
    rewrite lookup_insert_ne by congruence. auto.
  - intros q Hq. rewrite lookup_insert_ne by congruence. reflexivity.
Qed.

Lemma or_passive_spec flags p fl ty pr ip port name nxt w :
  node_at (heap w) p fl ty pr ip port name nxt ->
  same_env w (or_passive flags p w)
  /\ mallocs (or_passive flags p w) = mallocs w
  /\ node_at (heap (or_passive flags p w)) p (passive_of flags fl) ty pr ip port name nxt
  /\ (forall q, q <> p -> heap (or_passive flags p w) !! q = heap w !! q).
Proof.
  intros Hn. unfold or_passive, passive_of.
  destruct (truthy (Z.land flags AI_PASSIVE)).
  2: { split; [ apply same_env_refl | ]. auto. }
  destruct Hn as (Hnz & pa & pc & H1 & H2 & H3 & H4).
  unfold read_info. rewrite H1.
  rewrite store_live by (rewrite H1; eauto). heap_proj.
  split; [ env_step | ]. split; [ reflexivity | ]. split.
  - split; [ exact Hnz | ]. exists pa, pc. cbn [ai_flags ai_family ai_socktype
      ai_protocol ai_addrlen ai_addr ai_canonname ai_next].
    rewrite lookup_insert_eq, lookup_insert_ne by congruence.
    repeat split; auto.
    destruct name; [ | exact H4 ]. destruct H4 as (?&?&?).
    rewrite lookup_insert_ne by congruence. auto.
  - intros q Hq. rewrite lookup_insert_ne by congruence. reflexivity.
Qed.

Lemma node_at_live h p fl ty pr ip port name nxt :
  node_at h p fl ty pr ip port name nxt -> is_Some (h !! p).
Proof. intros (_ & pa & pc & H & _). rewrite H. eauto. Qed.

(** One record built and finished: [makeipv4info], then the link to the
    list so far, then the AI_PASSIVE bit. *)
Lemma record_step flags ty pr ip port name nxt w p w1 :
  makeipv4info ty pr ip port name w = (p, w1) -> p <> NULL ->
  let w2 := or_passive flags p (set_next p nxt w1) in
  same_env w w2
  /\ (plenty w -> plenty w2)
  /\ node_at (heap w2) p (passive_of flags 0) ty pr ip port name nxt
  /\ heap w !! p = None
  /\ preserves (heap w) (heap w2).
Proof.
  intros E Hp w2. subst w2.
  apply makeipv4info_spec in E as (Henv & Hpl & [[Hc _] | (Hn & Hfr & Hpres)]);
    [ contradiction | ].
  destruct (set_next_spec p 0 ty pr ip port name NULL nxt w1 Hn)
    as (Henv2 & Hm2 & Hn2 & Hfr2).
  destruct (or_passive_spec flags p 0 ty pr ip port name nxt _ Hn2)
    as (Henv3 & Hm3 & Hn3 & Hfr3).
  split; [ eauto with heap | ]. split; [ | split; [ exact Hn3 | ] ].
  - intros Hw. destruct (Hpl Hw) as [_ Hw1]. unfold plenty in *.
    rewrite Hm3, Hm2. exact Hw1.
  - split; [ exact Hfr | ].
    intros q b Hq. assert (Hne : q <> p) by (intros ->; congruence).
    rewrite Hfr3, Hfr2 by exact Hne. apply Hpres, Hq.
Qed.

(** The same for the record that starts the list: there is no link to
    set. *)
Lemma record_first flags ty pr ip port name w p w1 :
  makeipv4info ty pr ip port name w = (p, w1) -> p <> NULL ->
  let w2 := or_passive flags p w1 in
  same_env w w2
  /\ (plenty w -> plenty w2)
  /\ node_at (heap w2) p (passive_of flags 0) ty pr ip port name NULL
  /\ heap w !! p = None
  /\ preserves (heap w) (heap w2).
Proof.
  intros E Hp w2. subst w2.
  apply makeipv4info_spec in E as (Henv & Hpl & [[Hc _] | (Hn & Hfr & Hpres)]);
    [ contradiction | ].
  destruct (or_passive_spec flags p 0 ty pr ip port name NULL _ Hn)
    as (Henv3 & Hm3 & Hn3 & Hfr3).
  split; [ eauto with heap | ]. split; [ | split; [ exact Hn3 | ] ].
  - intros Hw. destruct (Hpl Hw) as [_ Hw1]. unfold plenty in *.
    rewrite Hm3. exact Hw1.
  - split; [ exact Hfr | ].
    intros q b Hq. assert (Hne : q <> p) by (intros ->; congruence).
    rewrite Hfr3 by exact Hne. apply Hpres, Hq.
Qed.

(** A failed [makeipv4info] leaves the heap as it was. *)
Lemma record_failed ty pr ip port name w w1 :
  makeipv4info ty pr ip port name w = (NULL, w1) ->
  same_env w w1 /\ heap w1 = heap w /\ ~ plenty w.
Proof.
  intros E.
  apply makeipv4info_spec in E as (Henv & Hpl & [[_ Hh] | (Hn & _)]).
  - split; [ exact Henv | ]. split; [ exact Hh | ].
    intros Hw. destruct (Hpl Hw) as [Hc _]. apply Hc. reflexivity.
  - destruct Hn as [Hc _]. exfalso. apply Hc. reflexivity.
Qed.

Lemma build_results_spec flags protocol ip port name w rc r w' :
  build_results flags protocol ip port name NULL w = (rc, r, w') ->
  protocol = 0 \/ protocol = IPPROTO_TCP \/ protocol = IPPROTO_UDP ->
  (resolver w' = resolver w /\ h_errno w' = h_errno w /\ fault w' = fault w
   /\ lookups (trace w') = lookups (trace w))
  /\ (plenty w -> rc = 0)
  /\ ((rc = 0 /\ errno w' = errno w /\ preserves (heap w) (heap w')
       /\ results_at (heap w') r flags protocol ip port name)
      \/ (rc = EAI_SYSTEM /\ errno w' = ENOMEM /\ (protocol <> 0 -> r = NULL))).
Proof.
  intros E Hproto. unfold build_results in E.
  destruct Hproto as [-> | [-> | ->]].
  - (* both protocols *)
    change (negb (truthy 0) || (0 =? IPPROTO_UDP)) with true in E.
    change (negb (truthy 0) || (0 =? IPPROTO_TCP)) with true in E.
    cbv iota in E.
    destruct (makeipv4info SOCK_DGRAM IPPROTO_UDP ip port name w) as [p1 w1] eqn:E1.
    destruct (Z.eqb_spec p1 NULL) as [-> | Hp1].
    { inversion E; subst rc r w'; clear E.
      apply record_failed in E1 as ((R & H & Er & F & L) & Hh & Hnp).
      split; [ heap_proj; auto | ]. split; [ intros; contradiction | ].
      right. split; [ reflexivity | ]. split; [ reflexivity | ].
      intros Hc. exfalso. apply Hc. reflexivity. }
    destruct (record_first flags _ _ _ _ _ _ _ _ E1 Hp1)
      as ((R1 & H1 & Er1 & F1 & L1) & Hpl1 & Hn1 & Hfr1 & Hpres1).
    set (w2 := or_passive flags p1 w1) in *.
    destruct (makeipv4info SOCK_STREAM IPPROTO_TCP ip port name w2) as [p2 w3] eqn:E2.
    destruct (Z.eqb_spec p2 NULL) as [-> | Hp2].
    { inversion E; subst rc r w'; clear E.
      apply record_failed in E2 as ((R & H & Er & F & L) & Hh & Hnp).
      split; [ heap_proj; repeat split; congruence | ].
      split; [ intros Hw; exfalso; apply Hnp, Hpl1, Hw | ].
      right. split; [ reflexivity | ]. split; [ reflexivity | ].
      intros Hc. exfalso. apply Hc. reflexivity. }
    inversion E; subst rc r w'; clear E.
    destruct (record_step flags _ _ _ _ _ p1 _ _ _ E2 Hp2)
      as ((R2 & H2 & Er2 & F2 & L2) & Hpl2 & Hn2 & Hfr2 & Hpres2).
    split; [ repeat split; congruence | ]. split; [ reflexivity | ].
    left. split; [ reflexivity | ]. split; [ congruence | ].
    split; [ eapply preserves_trans; eassumption | ].
    left. split; [ reflexivity | ]. exists p1. split; [ exact Hn2 | ].
    eapply node_at_preserves; [ exact Hpres2 | exact Hn1 ].
  - (* TCP only *)
    change (negb (truthy IPPROTO_TCP) || (IPPROTO_TCP =? IPPROTO_UDP)) with false in E.
    change (negb (truthy IPPROTO_TCP) || (IPPROTO_TCP =? IPPROTO_TCP)) with true in E.
    cbv iota in E.
    destruct (makeipv4info SOCK_STREAM IPPROTO_TCP ip port name w) as [p2 w3] eqn:E2.
    destruct (Z.eqb_spec p2 NULL) as [-> | Hp2].
    { inversion E; subst rc r w'; clear E.
      apply record_failed in E2 as ((R & H & Er & F & L) & Hh & Hnp).
      split; [ heap_proj; auto | ]. split; [ intros; contradiction | ].
      right. split; [ reflexivity | ]. split; [ reflexivity | ].
      intros _. reflexivity. }
    inversion E; subst rc r w'; clear E.
    destruct (record_step flags _ _ _ _ _ NULL _ _ _ E2 Hp2)
      as ((R2 & H2 & Er2 & F2 & L2) & Hpl2 & Hn2 & Hfr2 & Hpres2).
    split; [ repeat split; congruence | ]. split; [ reflexivity | ].
    left. split; [ reflexivity | ]. split; [ congruence | ].
    split; [ exact Hpres2 | ].
    right. left. split; [ reflexivity | exact Hn2 ].
  - (* UDP only *)
    change (negb (truthy IPPROTO_UDP) || (IPPROTO_UDP =? IPPROTO_UDP)) with true in E.
    change (negb (truthy IPPROTO_UDP) || (IPPROTO_UDP =? IPPROTO_TCP)) with false in E.
    cbv iota in E.
    destruct (makeipv4info SOCK_DGRAM IPPROTO_UDP ip port name w) as [p1 w1] eqn:E1.
    destruct (Z.eqb_spec p1 NULL) as [-> | Hp1].
    { inversion E; subst rc r w'; clear E.
      apply record_failed in E1 as ((R & H & Er & F & L) & Hh & Hnp).
      split; [ heap_proj; auto | ]. split; [ intros; contradiction | ].
      right. split; [ reflexivity | ]. split; [ reflexivity | ].
      intros _. reflexivity. }
    inversion E; subst rc r w'; clear E.
    destruct (record_first flags _ _ _ _ _ _ _ _ E1 Hp1)
      as ((R1 & H1 & Er1 & F1 & L1) & Hpl1 & Hn1 & Hfr1 & Hpres1).
    split; [ repeat split; congruence | ]. split; [ reflexivity | ].
    left. split; [ reflexivity | ]. split; [ congruence | ].
    split; [ exact Hpres1 | ].
    right. right. split; [ reflexivity | exact Hn1 ].
Qed.

(** ** The stages of getaddrinfo *)

Lemma check_hints_ok hints flags protocol :
  check_hints hints = inr (flags, protocol) ->
  flags = hint_flags hints
  /\ ((hint_socktype hints = SOCK_STREAM /\ protocol = IPPROTO_TCP)
      \/ (hint_socktype hints = SOCK_DGRAM /\ protocol = IPPROTO_UDP)
      \/ ((hint_socktype hints = SOCK_RAW \/ hint_socktype hints = 0) /\ protocol = 0)).
Proof.
  unfold check_hints. destruct hints as [h |]; cbn [hint_flags hint_socktype].
  2: { intros [= <- <-]. split; [ reflexivity | ]. right. right. auto. }
  destruct (truthy (Z.land (ai_flags h) (Z.lnot _AI_MASK))); [ discriminate | ].
  destruct (truthy (ai_family h) && negb (ai_family h =? AF_INET)); [ discriminate | ].
  destruct (Z.eqb_spec (ai_socktype h) SOCK_STREAM) as [Es | _].
  { destruct (_ && _ && _); [ discriminate | ]. intros [= <- <-]. auto. }
  destruct (Z.eqb_spec (ai_socktype h) SOCK_DGRAM) as [Ed | _].
  { destruct (_ && _ && _); [ discriminate | ]. intros [= <- <-]. auto. }
  destruct (Z.eqb_spec (ai_socktype h) SOCK_RAW) as [Er | _]; cbn [orb].
  { destruct (_ && _ && _); [ discriminate | ]. intros [= <- <-].
    split; [ reflexivity | ]. right. right. auto. }
  destruct (Z.eqb_spec (ai_socktype h) 0) as [Ez | _]; [ | discriminate ].
  destruct (_ && _ && _); [ discriminate | ]. intros [= <- <-].
  split; [ reflexivity | ]. right. right. auto.
Qed.

Lemma check_hints_protocol hints flags protocol :
  check_hints hints = inr (flags, protocol) ->
  protocol = 0 \/ protocol = IPPROTO_TCP \/ protocol = IPPROTO_UDP.
Proof.
  intros H. apply check_hints_ok in H as (_ & [[_ ->] | [[_ ->] | [_ ->]]]); auto.
Qed.

Lemma check_hints_error hints e :
  check_hints hints = inl e -> In e hint_errors.
Proof.
  unfold check_hints, hint_errors. destruct hints as [h |]; [ | discriminate ].
  destruct (truthy (Z.land (ai_flags h) (Z.lnot _AI_MASK)));
    [ intros [= <-]; simpl; tauto | ].
  destruct (truthy (ai_family h) && negb (ai_family h =? AF_INET));
    [ intros [= <-]; simpl; tauto | ].
  destruct (ai_socktype h =? SOCK_STREAM).
  { destruct (_ && _ && _); [ intros [= <-]; simpl; tauto | discriminate ]. }
  destruct (ai_socktype h =? SOCK_DGRAM).
  { destruct (_ && _ && _); [ intros [= <-]; simpl; tauto | discriminate ]. }
  destruct ((ai_socktype h =? SOCK_RAW) || (ai_socktype h =? 0)).
  { destruct (_ && _ && _); [ intros [= <-]; simpl; tauto | discriminate ]. }
  intros [= <-]; simpl; tauto.
Qed.

Lemma gai_error_from_herrno_in w : In (gai_error_from_herrno w) lookup_errors.
Proof.
  unfold gai_error_from_herrno, lookup_errors.
  destruct (_ =? _); [ simpl; tauto | ].
  destruct (_ || _); [ simpl; tauto | ].
  destruct (_ =? _); [ simpl; tauto | ].
  destruct (_ =? _); simpl; tauto.
Qed.

(** Address determination allocates nothing, and looks a name up only
    when the text is not a numeric address and AI_NUMERICHOST is not set. *)
Lemma resolve_node_spec node flags w x w1 :
  resolve_node node flags w = (x, w1) ->
  heap w1 = heap w /\ mallocs w1 = mallocs w /\ errno w1 = errno w
  /\ fault w1 = fault w /\ resolver w1 = resolver w
  /\ (forall e, x = inl e -> In e lookup_errors)
  /\ (trace w1 = trace w
      \/ exists n, node = Some n /\ inet_addr n = INADDR_NONE
                   /\ truthy (Z.land flags AI_NUMERICHOST) = false
                   /\ trace w1 = (trace w ++ [EvLookup n])%list).
Proof.
  unfold resolve_node. destruct node as [n |].
  2: { intros [= <- <-]. repeat split; auto. discriminate. }
  destruct (Z.eqb_spec (inet_addr n) INADDR_NONE) as [En | _].
  2: { intros [= <- <-]. repeat split; auto. discriminate. }
  destruct (truthy (Z.land flags AI_NUMERICHOST)) eqn:Ef; cbn [negb].
  { intros [= <- <-]. repeat split; auto.
    intros e [= <-]. apply gai_error_from_herrno_in. }
  unfold gethostbyname. heap_proj.
  destruct (resolver w n) as [entry | err].
  - destruct (negb (h_length entry =? 4) || negb (h_addrtype entry =? AF_INET));
      intros [= <- <-]; heap_proj; repeat split; eauto 8.
    + intros e [= <-]. unfold lookup_errors. simpl. tauto.
    + discriminate.
  - intros [= <- <-]. heap_proj. repeat split; eauto 8.
    intros e [= <-]. apply gai_error_from_herrno_in.
Qed.

(** A numeric address is used as it is: the world does not change. *)
Lemma resolve_node_numeric n flags w :
  inet_addr n <> INADDR_NONE ->
  resolve_node (Some n) flags w = (inr (inet_addr n, None), w).
Proof.
  intros H. unfold resolve_node.
  destruct (Z.eqb_spec (inet_addr n) INADDR_NONE); [ contradiction | reflexivity ].
Qed.

(** With AI_NUMERICHOST no lookup is made for a text that is not a numeric
    address, and the code comes from the [h_errno] found. *)
Lemma resolve_node_numerichost n flags w :
  inet_addr n = INADDR_NONE -> truthy (Z.land flags AI_NUMERICHOST) = true ->
  resolve_node (Some n) flags w = (inl (gai_error_from_herrno w), w).
Proof.
  intros H Hf. unfold resolve_node. rewrite H, Hf. reflexivity.
Qed.

Lemma resolve_service_spec service w x w1 :
  resolve_service service w = (x, w1) ->
  heap w1 = heap w /\ mallocs w1 = mallocs w /\ h_errno w1 = h_errno w
  /\ fault w1 = fault w /\ resolver w1 = resolver w /\ trace w1 = trace w
  /\ (forall e, x = inl e ->
        e = EAI_SERVICE /\ exists s, service = Some s /\ bad_service s)
  /\ (forall s, service = Some s -> bad_service s -> x = inl EAI_SERVICE).
Proof.
  unfold resolve_service, bad_service. destruct service as [s |].
  2: { intros [= <- <-]. repeat split; try discriminate. }
  destruct (strtoul s) as [[d end_] range] eqn:Es.
  assert (Hw : forall w0 : world,
             heap (if range then set_errno ERANGE w0 else w0) = heap w0
             /\ mallocs (if range then set_errno ERANGE w0 else w0) = mallocs w0
             /\ h_errno (if range then set_errno ERANGE w0 else w0) = h_errno w0
             /\ fault (if range then set_errno ERANGE w0 else w0) = fault w0
             /\ resolver (if range then set_errno ERANGE w0 else w0) = resolver w0
             /\ trace (if range then set_errno ERANGE w0 else w0) = trace w0).
  { intros w0. destruct range; repeat split. }
  destruct (Hw w) as (H1 & H2 & H3 & H4 & H5 & H6).
  assert (Hbad : forall s0, Some s = Some s0 ->
             (let '(d0, e0, _) := strtoul s0 in e0 <> "" \/ d0 > 65535)
             <-> (end_ <> "" \/ d > 65535)).
  { intros s0 [= <-]. rewrite Es. reflexivity. }
  destruct (String.eqb_spec end_ "") as [-> | Hend]; cbn [negb orb].
  - rewrite Z.gtb_ltb. destruct (Z.ltb_spec 65535 d) as [Hd | Hd]; intros [= <- <-].
    + do 6 (split; [ assumption | ]). split.
      * intros e [= <-]. split; [ reflexivity | ]. exists s.
        split; [ reflexivity | ]. apply Hbad; [ reflexivity | ]. right. lia.
      * reflexivity.
    + do 6 (split; [ assumption | ]). split; [ discriminate | ].
      intros s0 E0 Hb. apply (Hbad s0 E0) in Hb as [Hc | Hc]; [ congruence | lia ].
  - intros [= <- <-]. do 6 (split; [ assumption | ]). split.
    + intros e [= <-]. split; [ reflexivity | ]. exists s.
      split; [ reflexivity | ]. apply Hbad; [ reflexivity | ]. left. exact Hend.
    + reflexivity.
Qed.

(** ** Printing an address and reading it back *)

Lemma digit_of_digit_char (d : Z) :
  0 <= d < 10 -> digit_of 10 (digit_char d) = Some d.
Proof.
  intros H.
  assert (Hd : d = 0 \/ d = 1 \/ d = 2 \/ d = 3 \/ d = 4 \/ d = 5 \/ d = 6
               \/ d = 7 \/ d = 8 \/ d = 9) by lia.
  repeat (destruct Hd as [-> | Hd]; [ reflexivity | ]). subst d. reflexivity.
Qed.

Lemma append_cons (c : ascii) (s t : string) :
  (String c s ++ t)%string = String c (s ++ t)%string.
Proof. reflexivity. Qed.

Lemma append_empty (t : string) : ("" ++ t)%string = t.
Proof. reflexivity. Qed.

Lemma append_empty_r (s : string) : (s ++ "")%string = s.
Proof.
  induction s as [| c s IH]; [ reflexivity | ].
  rewrite append_cons, IH. reflexivity.
Qed.

Lemma reads_as_empty : reads_as "" 0.
Proof. intros v t. rewrite append_empty. simpl. f_equal. lia. Qed.

Lemma utoa_digits_reads (fuel : nat) :
  forall n acc m,
    0 <= n < 10 ^ Z.of_nat fuel -> reads_as acc m ->
    reads_as (utoa_digits fuel n acc) (n * 10 ^ Z.of_nat (String.length acc) + m).
Proof.
  induction fuel as [| fuel IH]; intros n acc m Hn Hacc.
  - simpl in Hn. assert (n = 0) by lia. subst n. simpl utoa_digits.
    rewrite Z.mul_0_l, Z.add_0_l. exact Hacc.
  - rewrite Nat2Z.inj_succ, Z.pow_succ_r in Hn by lia.
    set (k := Z.of_nat (String.length acc)) in *.
    assert (Hk : 0 <= k) by (subst k; lia).
    assert (Hstep : reads_as (String (digit_char (n mod 10)) acc)
                      ((n mod 10) * 10 ^ k + m)).
    { intros v t. rewrite append_cons. cbn [scan_digits String.length].
      rewrite digit_of_digit_char by (apply Z.mod_pos_bound; lia).
      rewrite Hacc. fold k. f_equal.
      rewrite Nat2Z.inj_succ. fold k. rewrite Z.pow_succ_r by lia. ring. }
    cbn [utoa_digits].
    destruct (Z.eqb_spec (n / 10) 0) as [Hz | Hnz].
    + assert (Hn' : n = n mod 10).
      { pose proof (Z.div_mod n 10 ltac:(lia)) as Hdm. rewrite Hz in Hdm. lia. }
      rewrite Hn' at 2. exact Hstep.
    + assert (Hq : 0 <= n / 10 < 10 ^ Z.of_nat fuel).
      { split; [ apply Z.div_pos; lia | apply Z.div_lt_upper_bound; lia ]. }
      pose proof (IH (n / 10) _ _ Hq Hstep) as Hr.
      cbn [String.length] in Hr. rewrite Nat2Z.inj_succ in Hr. fold k in Hr.
      rewrite Z.pow_succ_r in Hr by lia.
      replace (n * 10 ^ k + m)
        with (n / 10 * (10 * 10 ^ k) + (n mod 10 * 10 ^ k + m)); [ exact Hr | ].
      pose proof (Z.div_mod n 10 ltac:(lia)) as Hdm.
      rewrite Hdm at 3. ring.
Qed.

Lemma utoa_reads (n : Z) : 0 <= n < 10 ^ 10 -> reads_as (utoa n) n.
Proof.
  intros Hn. unfold utoa.
  pose proof (utoa_digits_reads 10 n "" 0 Hn reads_as_empty) as H.
  replace (n * 10 ^ Z.of_nat (String.length "") + 0) with n in H; [ exact H | ].
  change (Z.of_nat (String.length "")) with 0. lia.
Qed.

(** A positive number is printed with a leading digit from 1 to 9. *)
Lemma utoa_digits_head (fuel : nat) :
  forall n acc,
    0 < n < 10 ^ Z.of_nat fuel ->
    exists d s, 1 <= d <= 9 /\ utoa_digits fuel n acc = String (digit_char d) s.
Proof.
  induction fuel as [| fuel IH]; intros n acc Hn.
  - simpl in Hn. lia.
  - rewrite Nat2Z.inj_succ, Z.pow_succ_r in Hn by lia. cbn [utoa_digits].
    destruct (Z.eqb_spec (n / 10) 0) as [Hz | Hnz].
    + exists (n mod 10), acc. split; [ | reflexivity ].
      pose proof (Z.div_mod n 10 ltac:(lia)) as Hdm. rewrite Hz in Hdm.
      pose proof (Z.mod_pos_bound n 10 ltac:(lia)). lia.
    + apply IH. split.
      * assert (0 <= n / 10) by (apply Z.div_pos; lia). lia.
      * apply Z.div_lt_upper_bound; lia.
Qed.

Lemma scan_digits_stops base acc t :
  base <= 16 -> stops t -> scan_digits base acc t = (acc, t).
Proof.
  intros Hb [-> | [r ->]]; [ reflexivity | ]. cbn [scan_digits].
  unfold digit_of. change (ascii_code "."%char) with 46. cbn.
  destruct (Z.ltb_spec 16 base); [ lia | reflexivity ].
Qed.

Lemma inet_part_utoa (a : Z) (t : string) :
  0 <= a < 10 ^ 10 -> stops t -> inet_part (utoa a ++ t)%string = Some (a, t).
Proof.
  intros Ha Ht. destruct (Z.eq_dec a 0) as [-> | Hnz].
  - change (utoa 0) with "0". rewrite append_cons, append_empty. cbn [inet_part].
    change (isdigit "0"%char) with true. change (ascii_code "0"%char =? 48) with true.
    cbv iota. destruct Ht as [-> | [r ->]]; reflexivity.
  - assert (Hpos : 0 < a < 10 ^ Z.of_nat 10) by (change (Z.of_nat 10) with 10; lia).
    destruct (utoa_digits_head 10 a "" Hpos) as (d & s & Hd & Hs).
    pose proof (utoa_reads a Ha 0 t) as Hr.
    unfold utoa in *. rewrite Hs in *. rewrite append_cons in *. cbn [inet_part].
    assert (Hdig : isdigit (digit_char d) = true
                   /\ (ascii_code (digit_char d) =? 48) = false).
    { assert (Hd' : d = 1 \/ d = 2 \/ d = 3 \/ d = 4 \/ d = 5 \/ d = 6
                    \/ d = 7 \/ d = 8 \/ d = 9) by lia.
      repeat (destruct Hd' as [-> | Hd']; [ split; reflexivity | ]).
      subst d. split; reflexivity. }
    destruct Hdig as [-> ->].
    rewrite Hr.
    rewrite scan_digits_stops by (try lia; exact Ht). do 2 f_equal.
Qed.

Lemma inet_aton_fmt_ipv4 (a b c d : Z) :
  octet a -> octet b -> octet c -> octet d ->
  inet_aton (fmt_ipv4 a b c d) = Some (ipv4_of a b c d).
Proof.
  unfold octet. intros Ha Hb Hc Hd. unfold inet_aton, fmt_ipv4.
  rewrite !append_cons, !append_empty. rewrite <- (append_empty_r (utoa d)).
  assert (Hstep : forall n t parts dots,
             0 <= n < 256 ->
             inet_parts (S dots) parts (utoa n ++ String "."%char t)
             = inet_parts dots (parts ++ [n])%list t).
  { intros n t parts dots Hn. cbn [inet_parts].
    rewrite inet_part_utoa by (try lia; right; eauto).
    change (ascii_code "."%char =? 46) with true. reflexivity. }
  rewrite !Hstep by lia. cbn [app]. cbn [inet_parts].
  rewrite inet_part_utoa by (try lia; left; reflexivity).
  cbn [app].
  destruct (Z.leb_spec a 255); [ | lia ]. destruct (Z.leb_spec b 255); [ | lia ].
  destruct (Z.leb_spec c 255); [ | lia ]. destruct (Z.leb_spec d 255); [ | lia ].
  reflexivity.
Qed.

Lemma inet_addr_fmt_ipv4 (a b c d : Z) :
  octet a -> octet b -> octet c -> octet d ->
  inet_addr (fmt_ipv4 a b c d) = htonl (ipv4_of a b c d).
Proof.
  intros Ha Hb Hc Hd. unfold inet_addr.
  rewrite inet_aton_fmt_ipv4 by assumption. reflexivity.
Qed.

Lemma htonl_broadcast (a b c d : Z) :
  octet a -> octet b -> octet c -> octet d ->
  htonl (ipv4_of a b c d) = INADDR_NONE ->
  a = 255 /\ b = 255 /\ c = 255 /\ d = 255.
Proof.
  intros Ha Hb Hc Hd. unfold htonl.
  rewrite bswap32_ipv4_of, ipv4_of_sum by assumption.
  unfold octet, INADDR_NONE in *. lia.
Qed.

(** ** getaddrinfo as a whole *)

(** The ways through [getaddrinfo]: the hints are refused; or the address
    cannot be determined; or the service is refused; or the results are
    built. *)
Lemma getaddrinfo_cases node service hints res0 w rc r w' :
  getaddrinfo node service hints res0 w = (rc, r, w') ->
  (check_hints hints = inl rc /\ r = res0 /\ w' = w)
  \/ exists flags protocol,
       check_hints hints = inr (flags, protocol)
       /\ ((resolve_node node flags w = (inl rc, w') /\ r = NULL)
           \/ exists ip name w1,
                resolve_node node flags w = (inr (ip, name), w1)
                /\ ((resolve_service service w1 = (inl rc, w') /\ r = NULL)
                    \/ exists port w2,
                         resolve_service service w1 = (inr port, w2)
                         /\ build_results flags protocol ip port
                              (canon_name flags name node) NULL w2
                            = (rc, r, w'))).
Proof.
  unfold getaddrinfo. destruct (check_hints hints) as [e | [flags protocol]].
  { intros [= <- <- <-]. left. auto. }
  intros E. right. exists flags, protocol. split; [ reflexivity | ].
  destruct (resolve_node node flags w) as [[e | [ip name]] w1].
  { inversion E; subst. left. auto. }
  right. exists ip, name, w1. split; [ reflexivity | ].
  destruct (resolve_service service w1) as [[e | port] w2].
  { inversion E; subst. left. auto. }
  right. exists port, w2. split; [ reflexivity | exact E ].
Qed.

Lemma hint_errors_eai e : In e hint_errors -> In e eai_codes.
Proof.
  unfold hint_errors, eai_codes. simpl.
  intros H. repeat (destruct H as [<- | H]; [ tauto | ]). contradiction.
Qed.

Lemma lookup_errors_eai e : In e lookup_errors -> In e eai_codes.
Proof.
  unfold lookup_errors, eai_codes. simpl.
  intros H. repeat (destruct H as [<- | H]; [ tauto | ]). contradiction.
Qed.

Lemma eai_codes_nonzero e : In e eai_codes -> e <> 0.
Proof.
  unfold eai_codes. simpl.
  intros H. repeat (destruct H as [<- | H]; [ discriminate | ]). contradiction.
Qed.

(** A successful call went all the way to the results. *)
Lemma getaddrinfo_success node service hints res0 w r w' :
  getaddrinfo node service hints res0 w = (0, r, w') ->
  exists flags protocol ip name w1 port w2,
    check_hints hints = inr (flags, protocol)
    /\ resolve_node node flags w = (inr (ip, name), w1)
    /\ resolve_service service w1 = (inr port, w2)
    /\ results_at (heap w') r flags protocol ip port (canon_name flags name node).
Proof.
  intros E. apply getaddrinfo_cases in E as [(Hc & _) | (flags & protocol & Hc & E)].
  { apply check_hints_error, hint_errors_eai, eai_codes_nonzero in Hc.
    contradiction. }
  destruct E as [(Hn & _) | (ip & name & w1 & Hn & E)].
  { apply resolve_node_spec in Hn as (_ & _ & _ & _ & _ & He & _).
    specialize (He 0 eq_refl).
    apply lookup_errors_eai, eai_codes_nonzero in He. contradiction. }
  destruct E as [(Hs & _) | (port & w2 & Hs & E)].
  { apply resolve_service_spec in Hs as (_ & _ & _ & _ & _ & _ & He & _).
    destruct (He 0 eq_refl) as [Hx _]. discriminate. }
  exists flags, protocol, ip, name, w1, port, w2.
  repeat (split; [ assumption | ]).
  apply build_results_spec in E as (_ & _ & [(_ & _ & _ & Hr) | (Hx & _)]).
  - exact Hr.
  - discriminate.
  - eapply check_hints_protocol. exact Hc.
Qed.

Lemma node_at_list h p fl ty pr ip port name nxt l :
  node_at h p fl ty pr ip port name nxt -> addrinfo_list h nxt l ->
  exists ai, addrinfo_list h p (ai :: l) /\ record_ok h ai fl ty pr ip port.
Proof.
  intros (Hnz & pa & pc & H1 & H2 & H3 & H4) Hl.
  eexists. split.
  - eapply addrinfo_list_cons; [ exact Hnz | exact H1 | exact Hl ].
  - unfold record_ok, sockaddr_of. cbn [ai_flags ai_family ai_socktype
      ai_protocol ai_addrlen ai_addr]. rewrite H3. repeat split.
Qed.

Lemma addrinfo_list_unique h p l1 l2 :
  addrinfo_list h p l1 -> addrinfo_list h p l2 -> l1 = l2.
Proof.
  intros H1. revert l2. induction H1 as [| p ai l Hp Hl _ IH]; intros l2 H2.
  - inversion H2 as [| ? ? ? Hc]; [ reflexivity | contradiction ].
  - inversion H2 as [Hc | ? ai2 l2' _ Hl2 Hr]; subst; [ contradiction | ].
    rewrite Hl in Hl2. injection Hl2 as <-. f_equal. apply IH. exact Hr.
Qed.

(** The list a successful call returns. *)
Lemma results_at_list h r flags protocol ip port name :
  results_at h r flags protocol ip port name ->
  (protocol = 0 /\ exists t u,
      addrinfo_list h r [t; u]
      /\ record_ok h t (passive_of flags 0) SOCK_STREAM IPPROTO_TCP ip port
      /\ record_ok h u (passive_of flags 0) SOCK_DGRAM IPPROTO_UDP ip port)
  \/ (protocol = IPPROTO_TCP /\ exists t,
        addrinfo_list h r [t]
        /\ record_ok h t (passive_of flags 0) SOCK_STREAM IPPROTO_TCP ip port)
  \/ (protocol = IPPROTO_UDP /\ exists u,
        addrinfo_list h r [u]
        /\ record_ok h u (passive_of flags 0) SOCK_DGRAM IPPROTO_UDP ip port).
Proof.
  intros [(-> & p1 & Ht & Hu) | [(-> & Ht) | (-> & Hu)]].
  - left. split; [ reflexivity | ].
    destruct (node_at_list _ _ _ _ _ _ _ _ _ [] Hu (addrinfo_list_nil h))
      as (u & Hlu & Hru).
    destruct (node_at_list _ _ _ _ _ _ _ _ _ _ Ht Hlu) as (t & Hlt & Hrt).
    exists t, u. auto.
  - right. left. split; [ reflexivity | ].
    destruct (node_at_list _ _ _ _ _ _ _ _ _ [] Ht (addrinfo_list_nil h))
      as (t & Hlt & Hrt).
    exists t. auto.
  - right. right. split; [ reflexivity | ].
    destruct (node_at_list _ _ _ _ _ _ _ _ _ [] Hu (addrinfo_list_nil h))
      as (u & Hlu & Hru).
    exists u. auto.
Qed.

(** C7. A successful call with the socket-type hint SOCK_STREAM returns
    exactly one record, with protocol TCP; with SOCK_DGRAM exactly one
    record, with protocol UDP; with no socket type (or no hints) exactly
    two records, the TCP record before the UDP record. *)
Theorem getaddrinfo_socktype node service hints res0 w r w' :
  getaddrinfo node service hints res0 w = (0, r, w') ->
  (hint_socktype hints = SOCK_STREAM ->
   exists t, addrinfo_list (heap w') r [t]
             /\ (forall l, addrinfo_list (heap w') r l -> l = [t])
             /\ ai_socktype t = SOCK_STREAM /\ ai_protocol t = IPPROTO_TCP)
  /\ (hint_socktype hints = SOCK_DGRAM ->
      exists u, addrinfo_list (heap w') r [u]
                /\ (forall l, addrinfo_list (heap w') r l -> l = [u])
                /\ ai_socktype u = SOCK_DGRAM /\ ai_protocol u = IPPROTO_UDP)
  /\ (hint_socktype hints = 0 ->
      exists t u, addrinfo_list (heap w') r [t; u]
                  /\ (forall l, addrinfo_list (heap w') r l -> l = [t; u])
                  /\ ai_socktype t = SOCK_STREAM /\ ai_protocol t = IPPROTO_TCP
                  /\ ai_socktype u = SOCK_DGRAM /\ ai_protocol u = IPPROTO_UDP).
Proof.
  intros E.
  apply getaddrinfo_success in E
    as (flags & protocol & ip & name & w1 & port & w2 & Hc & _ & _ & Hr).
  apply check_hints_ok in Hc as (_ & Hty).
  apply results_at_list in Hr.
  repeat split.
  - intros Hs. rewrite Hs in Hty.
    destruct Hty as [[_ ->] | [[Hx _] | [[Hx | Hx] _]]]; try discriminate Hx.
    destruct Hr as [(Hx & _) | [(_ & t & Hl & Hrec) | (Hx & _)]];
      try discriminate Hx.
    exists t. destruct Hrec as (_ & _ & ? & ? & _).
    split; [ exact Hl | ]. split; [ | auto ].
    intros l Hl'. eapply addrinfo_list_unique; eassumption.
  - intros Hs. rewrite Hs in Hty.
    destruct Hty as [[Hx _] | [[_ ->] | [[Hx | Hx] _]]]; try discriminate Hx.
    destruct Hr as [(Hx & _) | [(Hx & _) | (_ & u & Hl & Hrec)]];
      try discriminate Hx.
    exists u. destruct Hrec as (_ & _ & ? & ? & _).
    split; [ exact Hl | ]. split; [ | auto ].
    intros l Hl'. eapply addrinfo_list_unique; eassumption.
  - intros Hs. rewrite Hs in Hty.
    destruct Hty as [[Hx _] | [[Hx _] | [_ ->]]]; try discriminate Hx.
    destruct Hr as [(_ & t & u & Hl & Ht & Hu) | [(Hx & _) | (Hx & _)]];
      try discriminate Hx.
    exists t, u. destruct Ht as (_ & _ & ? & ? & _). destruct Hu as (_ & _ & ? & ? & _).
    split; [ exact Hl | ]. split; [ | auto ].
    intros l Hl'. eapply addrinfo_list_unique; eassumption.
Qed.

Lemma getaddrinfo_socktype_witness :
  let out := getaddrinfo (Some "10.0.0.1") (Some "80") (Some stream_hints) NULL
               (world0 [] no_hosts) in
  exists t, addrinfo_list (heap (snd out)) (snd (fst out)) [t]
            /\ (forall l, addrinfo_list (heap (snd out)) (snd (fst out)) l -> l = [t])
            /\ ai_socktype t = SOCK_STREAM /\ ai_protocol t = IPPROTO_TCP.
Proof.
  intros out.
  assert (E : getaddrinfo (Some "10.0.0.1") (Some "80") (Some stream_hints) NULL
                (world0 [] no_hosts) = (0, snd (fst out), snd out))
    by (vm_compute; reflexivity).
  apply (proj1 (getaddrinfo_socktype _ _ _ _ _ _ _ E)). reflexivity.
Defined.





(** Every record of a returned list owns the socket address of the call. *)
Lemma results_at_addresses h r flags protocol ip port name :
  results_at h r flags protocol ip port name ->
  exists l, addrinfo_list h r l /\ l <> []
            /\ Forall (fun ai => sockaddr_of h ai
                                 = Some (mk_sockaddr_in sizeof_sockaddr_in AF_INET port ip)) l.
Proof.
  intros Hr. apply results_at_list in Hr
    as [(_ & t & u & Hl & Ht & Hu) | [(_ & t & Hl & Ht) | (_ & u & Hl & Hu)]];
    eexists; (split; [ exact Hl | ]); (split; [ discriminate | ]);
    repeat constructor;
    repeat match goal with H : record_ok _ _ _ _ _ _ _ |- _ =>
             destruct H as (_ & _ & _ & _ & _ & H) end; assumption.
Qed.

(** C4 (as amended). For a dotted-decimal literal [a.b.c.d] other than
    255.255.255.255, the service "0" and hints that are accepted, no name
    is looked up, the call succeeds whenever the allocations do, and every
    record returned owns a socket address whose 32-bit address is
    [a.b.c.d] in network byte order. *)
Theorem getaddrinfo_numeric_literal a b c d hints flags protocol res0 w rc r w' :
  octet a -> octet b -> octet c -> octet d ->
  ~ (a = 255 /\ b = 255 /\ c = 255 /\ d = 255) ->
  check_hints hints = inr (flags, protocol) ->
  getaddrinfo (Some (fmt_ipv4 a b c d)) (Some "0") hints res0 w = (rc, r, w') ->
  lookups (trace w') = lookups (trace w)
  /\ (plenty w -> rc = 0)
  /\ (rc = 0 ->
      exists l, addrinfo_list (heap w') r l /\ l <> []
                /\ Forall (fun ai => exists sa,
                             sockaddr_of (heap w') ai = Some sa
                             /\ sin_addr sa = htonl (ipv4_of a b c d)) l).
Proof.
  intros Ha Hb Hc Hd Hnb Hh E.
  assert (Hip : inet_addr (fmt_ipv4 a b c d) = htonl (ipv4_of a b c d))
    by (apply inet_addr_fmt_ipv4; assumption).
  assert (Hnum : inet_addr (fmt_ipv4 a b c d) <> INADDR_NONE).
  { rewrite Hip. intros Hx. apply Hnb. apply htonl_broadcast; assumption. }
  apply getaddrinfo_cases in E as [(Hx & _) | (flags' & protocol' & Hh' & E)];
    [ congruence | ].
  rewrite Hh in Hh'. injection Hh' as <- <-.
  rewrite (resolve_node_numeric _ flags w Hnum) in E.
  destruct E as [(Hx & _) | (ip & name & w1 & Hn & E)]; [ discriminate | ].
  injection Hn as <- <- <-.
  change (resolve_service (Some "0") w) with (@inr Z Z 0, w) in E.
  destruct E as [(Hx & _) | (port & w2 & Hs & E)]; [ discriminate | ].
  injection Hs as <- <-.
  apply build_results_spec in E as ((_ & _ & _ & Hl) & Hpl & Hres);
    [ | eapply check_hints_protocol; exact Hh ].
  split; [ exact Hl | ]. split; [ exact Hpl | ].
  intros ->. destruct Hres as [(_ & _ & _ & Hr) | (Hx & _)]; [ | discriminate ].
  apply results_at_addresses in Hr as (l & Hlist & Hne & Hall).
  exists l. split; [ exact Hlist | ]. split; [ exact Hne | ].
  eapply Forall_impl; [ exact Hall | ]. cbv beta. intros ai Hai.
  eexists. split; [ exact Hai | ]. cbn [sin_addr]. exact Hip.
Qed.

Lemma getaddrinfo_numeric_literal_witness :
  let out := getaddrinfo (Some "192.168.1.1") (Some "0") None NULL
               (world0 [] no_hosts) in
  lookups (trace (snd out)) = []
  /\ fst (fst out) = 0
  /\ exists l, addrinfo_list (heap (snd out)) (snd (fst out)) l /\ l <> []
               /\ Forall (fun ai => exists sa,
                            sockaddr_of (heap (snd out)) ai = Some sa
                            /\ sin_addr sa = htonl (ipv4_of 192 168 1 1)) l.
Proof.
  intros out.
  assert (E : getaddrinfo (Some (fmt_ipv4 192 168 1 1)) (Some "0") None NULL
                (world0 [] no_hosts) = (fst (fst out), snd (fst out), snd out))
    by (vm_compute; reflexivity).
  destruct (getaddrinfo_numeric_literal 192 168 1 1 None 0 0 NULL _ _ _ _
              ltac:(unfold octet; lia) ltac:(unfold octet; lia)
              ltac:(unfold octet; lia) ltac:(unfold octet; lia)
              ltac:(lia) eq_refl E) as (H1 & H2 & H3).
  split; [ exact H1 | ].
  assert (H0 : fst (fst out) = 0) by (apply H2; constructor).
  split; [ exact H0 | ]. apply H3. exact H0.
Defined.

(** C4 (as stated) fails at 255.255.255.255: its value is the failure
    value of [inet_addr], so the text goes to the name lookup, and with a
    resolver that does not know it the call fails with EAI_NONAME. *)
Lemma getaddrinfo_broadcast_literal :
  fmt_ipv4 255 255 255 255 = "255.255.255.255"
  /\ inet_addr "255.255.255.255" = INADDR_NONE
  /\ let out := getaddrinfo (Some "255.255.255.255") (Some "0") None NULL
                  (world0 [] no_hosts) in
     fst (fst out) = EAI_NONAME
     /\ snd (fst out) = NULL
     /\ trace (snd out) = [EvLookup "255.255.255.255"].
Proof. repeat split. Qed.

(** C6 (as amended). An error of the hints (EAI_BADFLAGS, EAI_FAMILY,
    EAI_SOCKTYPE, EAI_SERVICE for a protocol that contradicts the socket
    type) depends on the hints alone and is returned with the world
    untouched: nothing was allocated or looked up. A service text that is
    not a port number is refused before any allocation, but after the
    address determination: EAI_SERVICE is returned when that succeeded,
    its error code when it failed, and a name may have been looked up. *)
Theorem validation_order node service hints res0 w rc r w' :
  getaddrinfo node service hints res0 w = (rc, r, w') ->
  (forall e, check_hints hints = inl e -> rc = e /\ w' = w)
  /\ (forall flags protocol s,
        check_hints hints = inr (flags, protocol) ->
        service = Some s -> bad_service s ->
        heap w' = heap w /\ mallocs w' = mallocs w
        /\ (trace w' = trace w
            \/ exists n, node = Some n /\ trace w' = (trace w ++ [EvLookup n])%list)
        /\ ((rc = EAI_SERVICE
             /\ exists ip name w1, resolve_node node flags w = (inr (ip, name), w1))
            \/ (In rc lookup_errors /\ resolve_node node flags w = (inl rc, w')))).
Proof.
  intros E. apply getaddrinfo_cases in E. split.
  - intros e He.
    destruct E as [(Hc & _ & ->) | (flags & protocol & Hc & _)]; [ | congruence ].
    split; [ congruence | reflexivity ].
  - intros flags protocol s Hc -> Hbad.
    destruct E as [(Hx & _) | (flags' & protocol' & Hc' & E)]; [ congruence | ].
    rewrite Hc in Hc'. injection Hc' as <- <-.
    destruct E as [(Hn & _) | (ip & name & w1 & Hn & E)].
    { pose proof Hn as Hn'.
      apply resolve_node_spec in Hn' as (Hh & Hm & _ & _ & _ & He & Ht).
      split; [ exact Hh | ]. split; [ exact Hm | ]. split.
      - destruct Ht as [Ht | (n & Hnode & _ & _ & Ht)]; [ left | right ]; eauto.
      - right. split; [ apply He; reflexivity | exact Hn ]. }
    pose proof Hn as Hn'.
    apply resolve_node_spec in Hn' as (Hh & Hm & _ & _ & _ & _ & Ht).
    destruct E as [(Hs & _) | (port & w2 & Hs & _)].
    + apply resolve_service_spec in Hs as (Hh2 & Hm2 & _ & _ & _ & Ht2 & He & _).
      destruct (He rc eq_refl) as [-> _].
      split; [ congruence | ]. split; [ congruence | ]. split.
      * rewrite Ht2.
        destruct Ht as [Ht | (n & Hnode & _ & _ & Ht)]; [ left | right ]; eauto.
      * left. split; [ reflexivity | eauto ].
    + apply resolve_service_spec in Hs as (_ & _ & _ & _ & _ & _ & _ & He).
      specialize (He s eq_refl Hbad). discriminate.
Qed.

Lemma validation_order_witness :
  let out := getaddrinfo (Some "10.0.0.1") (Some "80abc") None NULL
               (world0 [] no_hosts) in
  heap (snd out) = ∅ /\ fst (fst out) = EAI_SERVICE.
Proof.
  intros out.
  assert (E : getaddrinfo (Some "10.0.0.1") (Some "80abc") None NULL
                (world0 [] no_hosts) = (fst (fst out), snd (fst out), snd out))
    by (vm_compute; reflexivity).
  destruct (proj2 (validation_order _ _ _ _ _ _ _ _ E) 0 0 "80abc" eq_refl eq_refl)
    as (Hh & _ & _ & [[Hrc _] | [_ Hx]]).
  - left. discriminate.
  - split; [ exact Hh | exact Hrc ].
  - discriminate Hx.
Defined.

(** C6 (as stated) fails for a service text with trailing garbage: the
    name is looked up before the service is read, so EAI_SERVICE comes
    after the lookup has run, and when the lookup fails the call returns
    EAI_NONAME for the same node, service and hints. *)
Lemma service_error_after_lookup :
  (let out := getaddrinfo (Some "host") (Some "80abc") None NULL
                (world0 [] one_host) in
   fst (fst out) = EAI_SERVICE /\ trace (snd out) = [EvLookup "host"])
  /\ (let out := getaddrinfo (Some "host") (Some "80abc") None NULL
                   (world0 [] no_hosts) in
      fst (fst out) = EAI_NONAME /\ trace (snd out) = [EvLookup "host"]).
Proof. repeat split. Qed.

(** C10. The empty service text is read by [strtoul] as 0 with nothing
    left over, so the call does exactly what it does without a service:
    it never fails with EAI_SERVICE once the hints are accepted, and on
    success every record carries port 0. *)
Theorem getaddrinfo_empty_service node hints res0 w :
  strtoul "" = (0, "", false)
  /\ getaddrinfo node (Some "") hints res0 w = getaddrinfo node None hints res0 w
  /\ (forall flags protocol rc r w',
        check_hints hints = inr (flags, protocol) ->
        getaddrinfo node (Some "") hints res0 w = (rc, r, w') ->
        rc <> EAI_SERVICE
        /\ (rc = 0 ->
            exists l, addrinfo_list (heap w') r l /\ l <> []
                      /\ Forall (fun ai => exists sa,
                                   sockaddr_of (heap w') ai = Some sa
                                   /\ sin_port sa = 0) l)).
Proof.
  split; [ reflexivity | ]. split.
  - unfold getaddrinfo. destruct (check_hints hints) as [e | [flags protocol]];
      [ reflexivity | ].
    destruct (resolve_node node flags w) as [[e | [ip name]] w1]; reflexivity.
  - intros flags protocol rc r w' Hc E.
    apply getaddrinfo_cases in E as [(Hx & _) | (flags' & protocol' & Hc' & E)];
      [ congruence | ].
    rewrite Hc in Hc'. injection Hc' as <- <-.
    destruct E as [(Hn & _) | (ip & name & w1 & Hn & E)].
    { apply resolve_node_spec in Hn as (_ & _ & _ & _ & _ & He & _).
      specialize (He rc eq_refl). split.
      - intros ->. unfold lookup_errors in He. simpl in He.
        repeat (destruct He as [He | He]; [ discriminate He | ]). exact He.
      - intros ->. apply lookup_errors_eai, eai_codes_nonzero in He.
        contradiction. }
    change (resolve_service (Some "") w1) with (@inr Z Z 0, w1) in E.
    destruct E as [(Hx & _) | (port & w2 & Hs & E)]; [ discriminate | ].
    injection Hs as <- <-.
    apply build_results_spec in E as (_ & _ & Hres);
      [ | eapply check_hints_protocol; exact Hc ].
    destruct Hres as [(-> & _ & _ & Hr) | (-> & _)].
    + split; [ discriminate | ]. intros _.
      apply results_at_addresses in Hr as (l & Hlist & Hne & Hall).
      exists l. split; [ exact Hlist | ]. split; [ exact Hne | ].
      eapply Forall_impl; [ exact Hall | ]. cbv beta. intros ai Hai.
      eexists. split; [ exact Hai | reflexivity ].
    + split; discriminate.
Qed.

Lemma getaddrinfo_empty_service_witness :
  let out := getaddrinfo None (Some "") None NULL (world0 [] no_hosts) in
  fst (fst out) = 0
  /\ exists l, addrinfo_list (heap (snd out)) (snd (fst out)) l /\ l <> []
               /\ Forall (fun ai => exists sa,
                            sockaddr_of (heap (snd out)) ai = Some sa
                            /\ sin_port sa = 0) l.
Proof.
  intros out.
  assert (E : getaddrinfo None (Some "") None NULL (world0 [] no_hosts)
              = (0, snd (fst out), snd out)) by (vm_compute; reflexivity).
  split; [ reflexivity | ].
  apply (proj2 (proj2 (proj2 (getaddrinfo_empty_service None None NULL
                                (world0 [] no_hosts)))
                  0 0 0 _ _ eq_refl E)).
  reflexivity.
Defined.

(** ** Where the code departs from the interface *)

Lemma free_other p q w : q <> p -> heap (free p w) !! q = heap w !! q.
Proof.
  intros Hq. unfold free. destruct (p =? NULL); [ reflexivity | ].
  destruct (heap w !! p); heap_proj; [ | reflexivity ].
  rewrite lookup_delete_ne by congruence. reflexivity.
Qed.

Lemma field_heap f res w : heap (snd (field f res w)) = heap w.
Proof. unfold field. destruct (read_info res w); reflexivity. Qed.

(** The value [field] reads is a field of the struct at [res], or null. *)
Lemma field_value f res ai w :
  (heap w !! res = Some (BInfo ai) \/ heap w !! res = None) ->
  fst (field f res w) = f ai \/ fst (field f res w) = NULL.
Proof.
  unfold field, read_info. intros [-> | ->]; [ left | right ]; reflexivity.
Qed.

Lemma free_same_or_gone p res ai w :
  (heap w !! res = Some (BInfo ai) \/ heap w !! res = None) ->
  heap (free p w) !! res = Some (BInfo ai) \/ heap (free p w) !! res = None.
Proof.
  intros H. destruct (decide (res = p)) as [-> | Hne].
  - unfold free. destruct (p =? NULL); [ exact H | ].
    destruct (heap w !! p) eqn:E; heap_proj.
    + right. apply lookup_delete_eq.
    + right. exact E.
  - rewrite free_other by exact Hne. exact H.
Qed.

(** [freeaddrinfo res] releases nothing but the struct at [res] and the
    three blocks its pointer fields name: every other block stays. *)
Lemma freeaddrinfo_frame res ai q w :
  heap w !! res = Some (BInfo ai) ->
  q <> res -> q <> ai_canonname ai -> q <> ai_addr ai -> q <> ai_next ai ->
  q <> NULL ->
  heap (freeaddrinfo res w) !! q = heap w !! q.
Proof.
  intros Hres Hq0 Hq1 Hq2 Hq3 Hqn. unfold freeaddrinfo.
  destruct (res =? NULL); [ reflexivity | ].
  assert (Hstep : forall f w0,
             (heap w0 !! res = Some (BInfo ai) \/ heap w0 !! res = None) ->
             q <> f ai ->
             let '(p, w1) := field f res w0 in
             heap (free p w1) !! q = heap w0 !! q
             /\ (heap (free p w1) !! res = Some (BInfo ai)
                 \/ heap (free p w1) !! res = None)).
  { intros f w0 Hw0 Hqf.
    pose proof (field_value f res ai w0 Hw0) as Hv.
    pose proof (field_heap f res w0) as Hh.
    destruct (field f res w0) as [p w1]. cbn [fst snd] in *.
    assert (Hqp : q <> p) by (destruct Hv; congruence).
    split.
    - rewrite free_other by exact Hqp. rewrite Hh. reflexivity.
    - apply free_same_or_gone. rewrite Hh. exact Hw0. }
  pose proof (Hstep ai_canonname w (or_introl Hres) Hq1) as H1.
  destruct (field ai_canonname res w) as [p1 w1]. destruct H1 as [E1 S1].
  pose proof (Hstep ai_addr (free p1 w1) S1 Hq2) as H2.
  destruct (field ai_addr res (free p1 w1)) as [p2 w2]. destruct H2 as [E2 S2].
  pose proof (Hstep ai_next (free p2 w2) S2 Hq3) as H3.
  destruct (field ai_next res (free p2 w2)) as [p3 w3]. destruct H3 as [E3 S3].
  rewrite free_other by exact Hq0. congruence.
Qed.

(** Whatever the list, [freeaddrinfo] leaves the blocks the second record
    owns on the heap. *)
Lemma freeaddrinfo_second_record res t u l q w :
  addrinfo_list (heap w) res (t :: u :: l) ->
  q = ai_addr u \/ q = ai_canonname u ->
  q <> NULL -> q <> res -> q <> ai_canonname t -> q <> ai_addr t -> q <> ai_next t ->
  heap (freeaddrinfo res w) !! q = heap w !! q.
Proof.
  intros Hl _ Hqn Hq0 Hq1 Hq2 Hq3.
  inversion Hl as [| ? ? ? _ Hres _]; subst.
  eapply freeaddrinfo_frame; eassumption.
Qed.

(** C1 fails on the code. The list is the one [getaddrinfo] returns for
    "10.0.0.1" with AI_CANONNAME: the TCP record at 4 (address buffer 5,
    name 6) followed by the UDP record at 1 (address buffer 2, name 3).
    [freeaddrinfo] releases 6, 5, the struct 1 and the struct 4, and the
    address buffer 2 and the name 3 of the UDP record stay allocated. *)
Theorem freeaddrinfo_two_records_leak :
  let out := getaddrinfo (Some "10.0.0.1") None (Some canon_hints) NULL
               (world0 [] no_hosts) in
  let r := snd (fst out) in
  let w := snd out in
  fst (fst out) = 0
  /\ addrinfo_list (heap w) r
       [ mk_addrinfo 0 AF_INET SOCK_STREAM IPPROTO_TCP 16 5 6 1;
         mk_addrinfo 0 AF_INET SOCK_DGRAM IPPROTO_UDP 16 2 3 NULL ]
  /\ heap (freeaddrinfo r w)
     = <[2 := BAddr (mk_sockaddr_in 16 AF_INET 0 (htonl (ipv4_of 10 0 0 1)))]>
         (<[3 := BStr "10.0.0.1"]> ∅)
  /\ trace (freeaddrinfo r w)
     = (trace w ++ [EvFree 6; EvFree 5; EvFree 1; EvFree 4])%list
  /\ fault (freeaddrinfo r w) = false.
Proof.
  intros out r w. split; [ reflexivity | ]. split.
  - apply addrinfo_list_cons; [ discriminate | reflexivity | ].
    apply addrinfo_list_cons; [ discriminate | reflexivity | ].
    apply addrinfo_list_nil.
  - split; [ vm_compute; reflexivity | ]. split; reflexivity.
Qed.

(** When the UDP record is built and the TCP record is not, the call
    returns with the UDP record still on the heap and in [*res]. *)
Lemma build_results_partial flags ip port name w p1 w1 w3 :
  makeipv4info SOCK_DGRAM IPPROTO_UDP ip port name w = (p1, w1) ->
  p1 <> NULL ->
  makeipv4info SOCK_STREAM IPPROTO_TCP ip port name (or_passive flags p1 w1)
  = (NULL, w3) ->
  build_results flags 0 ip port name NULL w = (EAI_SYSTEM, p1, set_errno ENOMEM w3)
  /\ is_Some (heap (set_errno ENOMEM w3) !! p1).
Proof.
  intros E1 Hp1 E2. unfold build_results.
  change (negb (truthy 0) || (0 =? IPPROTO_UDP)) with true.
  change (negb (truthy 0) || (0 =? IPPROTO_TCP)) with true.
  cbv iota. rewrite E1.
  destruct (Z.eqb_spec p1 NULL) as [? | _]; [ contradiction | ].
  rewrite E2. change (NULL =? NULL) with true. cbv iota.
  split; [ reflexivity | ]. heap_proj.
  destruct (record_first flags _ _ _ _ _ _ _ _ E1 Hp1) as (_ & _ & Hn & _).
  apply record_failed in E2 as (_ & -> & _).
  eapply node_at_live. exact Hn.
Qed.

(** C2 fails on the code. With an allocator that serves two requests and
    refuses the third, the UDP record is built (struct 1, address buffer
    2) and the TCP struct is not: the call returns EAI_SYSTEM with
    [errno = ENOMEM], but [*res] holds 1, both blocks of the UDP record
    are still allocated, and nothing was released. *)
Theorem getaddrinfo_tcp_failure_keeps_udp :
  let out := getaddrinfo None None None NULL (world0 [true; true; false] no_hosts) in
  fst (fst out) = EAI_SYSTEM
  /\ errno (snd out) = ENOMEM
  /\ snd (fst out) = 1
  /\ snd (fst out) <> NULL
  /\ heap (snd out)
     = <[1 := BInfo (mk_addrinfo 0 AF_INET SOCK_DGRAM IPPROTO_UDP 16 2 NULL NULL)]>
         (<[2 := BAddr (mk_sockaddr_in 16 AF_INET 0 (htonl INADDR_LOOPBACK))]> ∅)
  /\ trace (snd out) = [EvMalloc 1; EvMalloc 2; EvMalloc NULL].
Proof.
  intros out. repeat split; try reflexivity; discriminate.
Qed.

(** With AI_NUMERICHOST and a text that is not a numeric address, the
    call makes no lookup and returns the code of the [h_errno] it finds. *)
Lemma getaddrinfo_numerichost n service hints flags protocol res0 w :
  check_hints hints = inr (flags, protocol) ->
  truthy (Z.land flags AI_NUMERICHOST) = true ->
  inet_addr n = INADDR_NONE ->
  getaddrinfo (Some n) service hints res0 w = (gai_error_from_herrno w, NULL, w).
Proof.
  intros Hc Hf Hn. unfold getaddrinfo. rewrite Hc.
  rewrite resolve_node_numerichost by assumption. reflexivity.
Qed.

(** C5 fails on the code. For the name "example.org" with AI_NUMERICHOST
    the lookup is skipped, and the code returned is the one of the
    [h_errno] left by earlier calls: EAI_AGAIN after a TRY_AGAIN, and
    EAI_SYSTEM when [h_errno] is still 0; EAI_NONAME in neither case. *)
Theorem getaddrinfo_numerichost_stale_h_errno :
  inet_addr "example.org" = INADDR_NONE
  /\ getaddrinfo (Some "example.org") None (Some numeric_hints) NULL stale_world
     = (EAI_AGAIN, NULL, stale_world)
  /\ getaddrinfo (Some "example.org") None (Some numeric_hints) NULL
       (world0 [] no_hosts)
     = (EAI_SYSTEM, NULL, world0 [] no_hosts)
  /\ EAI_AGAIN <> EAI_NONAME /\ EAI_SYSTEM <> EAI_NONAME.
Proof. repeat split; try reflexivity; discriminate. Qed.

(* ===================================================================== *)
(** * Further properties                                                 *)
(* ===================================================================== *)

(** ** getnameinfo: codes, bounds, flags *)


Lemma strlen_nonneg (s : string) : 0 <= strlen s.
Proof. unfold strlen. lia. Qed.


Lemma getnameinfo_serv_cases sa host serv servlen :
  getnameinfo_serv sa host serv servlen
  = match serv with
    | Some sbuf =>
        (if strlen (serv_text sa) >=? servlen then EAI_OVERFLOW else 0, host,
         Some (fst (snprintf sbuf servlen (serv_text sa))))
    | None => (0, host, None)
    end.
Proof.
  unfold getnameinfo_serv, serv_text. destruct serv as [sbuf |]; [ | reflexivity ].
  unfold snprintf. cbn [fst]. destruct (_ >=? _); reflexivity.
Qed.

Lemma getnameinfo_cases sa salen host hostlen serv servlen flags :
  getnameinfo sa salen host hostlen serv servlen flags
  = match getnameinfo_gate sa salen host flags with
    | Some e => (e, host, serv)
    | None =>
        match host with
        | Some hbuf =>
            if strlen (host_text sa) >=? hostlen
            then (EAI_OVERFLOW, Some (fst (snprintf hbuf hostlen (host_text sa))), serv)
            else getnameinfo_serv sa
                   (Some (fst (snprintf hbuf hostlen (host_text sa)))) serv servlen
        | None => getnameinfo_serv sa None serv servlen
        end
    end.
Proof.
  unfold getnameinfo, getnameinfo_gate, host_text.
  destruct (_ || _); [ reflexivity | ].
  destruct (truthy (Z.land flags (Z.lnot _NI_MASK))); [ reflexivity | ].
  destruct host as [hbuf |]; [ | reflexivity ].
  destruct (_ && _); [ reflexivity | ].
  unfold snprintf. cbn [fst]. reflexivity.
Qed.

(** X1. A return value of 0 means complete texts: every buffer that was
    supplied holds the whole dotted-decimal address, respectively the
    whole decimal port, and a buffer that was not supplied stays null. *)
Theorem getnameinfo_success_complete sa salen host hostlen serv servlen flags h' s' :
  hostlen < 2 ^ 31 -> servlen < 2 ^ 31 ->
  getnameinfo sa salen host hostlen serv servlen flags = (0, h', s') ->
  h' = option_map (fun _ => host_text sa) host
  /\ s' = option_map (fun _ => serv_text sa) serv.
Proof.
  intros Hh Hs. rewrite getnameinfo_cases.
  destruct (getnameinfo_gate sa salen host flags) as [e |] eqn:Eg.
  { unfold getnameinfo_gate in Eg. intros [= -> <- <-].
    destruct (_ || _); [ discriminate | ].
    destruct (truthy (Z.land flags (Z.lnot _NI_MASK))); [ discriminate | ].
    destruct host; [ | discriminate ]. destruct (_ && _); discriminate. }
  assert (Hserv : forall hx,
             getnameinfo_serv sa hx serv servlen = (0, h', s') ->
             h' = hx /\ s' = option_map (fun _ => serv_text sa) serv).
  { intros hx. rewrite getnameinfo_serv_cases. destruct serv as [sbuf |].
    - destruct (Z.geb_spec (strlen (serv_text sa)) servlen); [ discriminate | ].
      pose proof (strlen_nonneg (serv_text sa)).
      rewrite snprintf_fits by lia. intros [= <- <-]. auto.
    - intros [= <- <-]. auto. }
  destruct host as [hbuf |]; cbn [option_map].
  - destruct (Z.geb_spec (strlen (host_text sa)) hostlen); [ discriminate | ].
    pose proof (strlen_nonneg (host_text sa)).
    rewrite snprintf_fits by lia.
    intros E. apply Hserv in E as [-> ->]. auto.
  - intros E. apply Hserv in E as [-> ->]. auto.
Qed.

Lemma getnameinfo_success_complete_witness :
  getnameinfo (mk_sockaddr_in 16 AF_INET (htons 443) (htonl (ipv4_of 10 1 2 3)))
    16 (Some "old") 16 None 0 0
  = (0, Some "10.1.2.3", None).
Proof.
  destruct (getnameinfo (mk_sockaddr_in 16 AF_INET (htons 443) (htonl (ipv4_of 10 1 2 3)))
              16 (Some "old") 16 None 0 0) as [[rc h'] s'] eqn:E.
  assert (Hrc : rc = 0) by (vm_compute in E; congruence). subst rc.
  destruct (getnameinfo_success_complete _ _ _ 16 _ 0 _ _ _
              ltac:(lia) ltac:(lia) E) as [-> ->].
  vm_compute. reflexivity.
Defined.



Lemma triple_eq {A B C : Type} (a a' : A) (b b' : B) (c c' : C) :
  (a, b, c) = (a', b', c') -> a = a' /\ b = b' /\ c = c'.
Proof. intros E. injection E as -> -> ->. auto. Qed.

Ltac in_codes := unfold In; tauto.
Ltac refused :=
  split; [ in_codes | ]; split; [ intros _; split; reflexivity | ];
  first [ intros _; reflexivity | assumption ].

(** X3. [getnameinfo] returns 0 or one of four codes, and when it refuses
    the call (EAI_FAMILY for a short or non-IPv4 address, EAI_BADFLAGS,
    EAI_NONAME) both buffers are left as they were. A short or non-IPv4
    address is refused with EAI_FAMILY whatever the flags are. *)
Theorem getnameinfo_refusals sa salen host hostlen serv servlen flags rc h' s' :
  getnameinfo sa salen host hostlen serv servlen flags = (rc, h', s') ->
  In rc [0; EAI_FAMILY; EAI_BADFLAGS; EAI_NONAME; EAI_OVERFLOW]
  /\ (rc = EAI_FAMILY \/ rc = EAI_BADFLAGS \/ rc = EAI_NONAME ->
      h' = host /\ s' = serv)
  /\ (to_size_t salen < sizeof_sockaddr_in \/ sin_family sa <> AF_INET ->
      rc = EAI_FAMILY).
Proof.
  rewrite getnameinfo_cases, !getnameinfo_serv_cases.
  unfold getnameinfo_gate.
  destruct (Z.ltb_spec (to_size_t salen) sizeof_sockaddr_in) as [Hl | Hl];
    cbn [orb].
  { intros E. apply triple_eq in E as (<- & <- & <-). refused. }
  destruct (Z.eqb_spec (sin_family sa) AF_INET) as [Hf | Hf]; cbn [negb].
  2: { intros E. apply triple_eq in E as (<- & <- & <-). refused. }
  assert (Hno : to_size_t salen < sizeof_sockaddr_in \/ sin_family sa <> AF_INET
                -> rc = EAI_FAMILY) by (intros [Hx | Hx]; [ lia | contradiction ]).
  destruct (truthy (Z.land flags (Z.lnot _NI_MASK))).
  { intros E. apply triple_eq in E as (<- & <- & <-). refused. }
  destruct host as [hbuf |].
  - destruct (_ && _).
    { intros E. apply triple_eq in E as (<- & <- & <-). refused. }
    destruct (_ >=? hostlen).
    { intros E. apply triple_eq in E as (<- & <- & <-).
      split; [ in_codes | ]. split; [ | exact Hno ].
      intros [Hx | [Hx | Hx]]; discriminate Hx. }
    rewrite getnameinfo_serv_cases.
    destruct serv as [sbuf |]; cbv beta iota.
    + destruct (_ >=? servlen); intros E; apply triple_eq in E as (<- & <- & <-);
        (split; [ in_codes | ]); (split; [ | exact Hno ]);
        intros [Hx | [Hx | Hx]]; discriminate Hx.
    + intros E. apply triple_eq in E as (<- & <- & <-).
      split; [ in_codes | ]. split; [ | exact Hno ].
      intros [Hx | [Hx | Hx]]; discriminate Hx.
  - destruct serv as [sbuf |]; cbv beta iota.
    + destruct (_ >=? servlen); intros E; apply triple_eq in E as (<- & <- & <-);
        (split; [ in_codes | ]); (split; [ | exact Hno ]);
        intros [Hx | [Hx | Hx]]; discriminate Hx.
    + intros E. apply triple_eq in E as (<- & <- & <-).
      split; [ in_codes | ]. split; [ | exact Hno ].
      intros [Hx | [Hx | Hx]]; discriminate Hx.
Qed.

Lemma getnameinfo_refusals_witness :
  getnameinfo (mk_sockaddr_in 16 AF_INET 0 0) 8 (Some "h") 64 (Some "s") 64 (-1)
  = (EAI_FAMILY, Some "h", Some "s").
Proof.
  destruct (getnameinfo (mk_sockaddr_in 16 AF_INET 0 0) 8 (Some "h") 64
              (Some "s") 64 (-1)) as [[rc h'] s'] eqn:E.
  destruct (getnameinfo_refusals _ _ _ _ _ _ _ _ _ _ E) as (_ & Hkeep & Hfam).
  assert (Hrc : rc = EAI_FAMILY) by (apply Hfam; left; vm_compute; reflexivity).
  destruct (Hkeep (or_introl Hrc)) as [-> ->]. rewrite Hrc. reflexivity.
Defined.

(** X4. The address is always formatted numerically: for flags inside the
    mask, unless NI_NAMEREQD is set without NI_NUMERICHOST, the call does
    exactly what it does with no flags at all, so NI_NUMERICHOST,
    NI_NUMERICSERV, NI_NOFQDN and NI_DGRAM change nothing. *)
Theorem getnameinfo_flags_ignored sa salen host hostlen serv servlen flags :
  Z.land flags (Z.lnot _NI_MASK) = 0 ->
  Z.land flags NI_NAMEREQD = 0 \/ Z.land flags NI_NUMERICHOST <> 0 ->
  getnameinfo sa salen host hostlen serv servlen flags
  = getnameinfo sa salen host hostlen serv servlen 0.
Proof.
  intros Hmask Hreq. rewrite !getnameinfo_cases.
  replace (getnameinfo_gate sa salen host flags)
    with (getnameinfo_gate sa salen host 0); [ reflexivity | ].
  unfold getnameinfo_gate. rewrite Hmask.
  destruct (_ || _); [ reflexivity | ].
  change (truthy (Z.land 0 (Z.lnot _NI_MASK))) with false.
  change (truthy 0) with false. cbv iota.
  destruct host as [hbuf |]; [ | reflexivity ].
  change (negb (truthy (Z.land 0 NI_NUMERICHOST)) && truthy (Z.land 0 NI_NAMEREQD))
    with false.
  unfold truthy. destruct Hreq as [-> | Hn].
  - rewrite Bool.andb_false_r. reflexivity.
  - destruct (Z.eqb_spec (Z.land flags NI_NUMERICHOST) 0); [ contradiction | ].
    reflexivity.
Qed.

Lemma getnameinfo_flags_ignored_witness :
  getnameinfo (mk_sockaddr_in 16 AF_INET (htons 53) (htonl (ipv4_of 8 8 4 4)))
    16 (Some "") 32 (Some "") 8 (Z.lor NI_DGRAM NI_NOFQDN)
  = getnameinfo (mk_sockaddr_in 16 AF_INET (htons 53) (htonl (ipv4_of 8 8 4 4)))
      16 (Some "") 32 (Some "") 8 0.
Proof.
  apply getnameinfo_flags_ignored; [ reflexivity | left; reflexivity ].
Defined.

(** ** getaddrinfo: what the records hold *)

Lemma node_at_record h p fl ty pr ip port name nxt :
  node_at h p fl ty pr ip port name nxt ->
  exists ai, p <> NULL /\ h !! p = Some (BInfo ai) /\ ai_next ai = nxt
             /\ ai_flags ai = fl /\ ai_family ai = AF_INET
             /\ ai_addrlen ai = sizeof_sockaddr_in
             /\ ai_socktype ai = ty /\ ai_protocol ai = pr
             /\ sockaddr_of h ai
                = Some (mk_sockaddr_in sizeof_sockaddr_in AF_INET port ip)
             /\ canonname_of h ai = name.
Proof.
  intros (Hnz & pa & pc & H1 & H2 & H3 & H4).
  eexists. split; [ exact Hnz | ]. split; [ exact H1 | ].
  unfold sockaddr_of, canonname_of.
  cbn [ai_flags ai_family ai_socktype ai_protocol ai_addrlen ai_addr
       ai_canonname ai_next].
  rewrite H3. repeat (split; [ reflexivity | ]).
  destruct name as [s |].
  - destruct H4 as (_ & Hpc & Hs).
    destruct (Z.eqb_spec pc NULL); [ contradiction | ]. rewrite Hs. reflexivity.
  - subst pc. reflexivity.
Qed.

(** The list of a successful call, with all that its records hold. *)
Lemma results_at_records h r flags protocol ip port name :
  results_at h r flags protocol ip port name ->
  exists l, addrinfo_list h r l /\ l <> []
            /\ Forall (record_of h flags ip port name) l.
Proof.
  assert (Hone : forall p ty pr nxt l,
             node_at h p (passive_of flags 0) ty pr ip port name nxt ->
             (ty = SOCK_STREAM /\ pr = IPPROTO_TCP)
             \/ (ty = SOCK_DGRAM /\ pr = IPPROTO_UDP) ->
             addrinfo_list h nxt l ->
             exists ai, addrinfo_list h p (ai :: l)
                        /\ record_of h flags ip port name ai).
  { intros p ty pr nxt l Hn Hty Hl.
    apply node_at_record in Hn
      as (ai & Hp & Hlk & Hnx & Hfl & Hfa & Hal & Hst & Hpr & Hsa & Hcn).
    exists ai. split.
    - apply addrinfo_list_cons; [ exact Hp | exact Hlk | ]. rewrite Hnx. exact Hl.
    - unfold record_of. rewrite Hst, Hpr. repeat split; assumption. }
  intros [(_ & p1 & Ht & Hu) | [(_ & Ht) | (_ & Hu)]].
  - destruct (Hone _ _ _ _ [] Hu ltac:(right; auto) (addrinfo_list_nil h))
      as (u & Hlu & Hru).
    destruct (Hone _ _ _ _ _ Ht ltac:(left; auto) Hlu) as (t & Hlt & Hrt).
    exists [t; u]. split; [ exact Hlt | ]. split; [ discriminate | ].
    constructor; [ exact Hrt | ]. constructor; [ exact Hru | ]. constructor.
  - destruct (Hone _ _ _ _ [] Ht ltac:(left; auto) (addrinfo_list_nil h))
      as (t & Hlt & Hrt).
    exists [t]. split; [ exact Hlt | ]. split; [ discriminate | ].
    constructor; [ exact Hrt | constructor ].
  - destruct (Hone _ _ _ _ [] Hu ltac:(right; auto) (addrinfo_list_nil h))
      as (u & Hlu & Hru).
    exists [u]. split; [ exact Hlu | ]. split; [ discriminate | ].
    constructor; [ exact Hru | constructor ].
Qed.

(** A successful call, stage by stage, with the records of its list. *)
Lemma getaddrinfo_records node service hints res0 w r w' :
  getaddrinfo node service hints res0 w = (0, r, w') ->
  exists flags protocol ip name w1 port w2 l,
    check_hints hints = inr (flags, protocol)
    /\ resolve_node node flags w = (inr (ip, name), w1)
    /\ resolve_service service w1 = (inr port, w2)
    /\ addrinfo_list (heap w') r l /\ l <> []
    /\ Forall (record_of (heap w') flags ip port (canon_name flags name node)) l.
Proof.
  intros E. apply getaddrinfo_success in E
    as (flags & protocol & ip & name & w1 & port & w2 & Hc & Hn & Hs & Hr).
  apply results_at_records in Hr as (l & Hl & Hne & Hall).
  exists flags, protocol, ip, name, w1, port, w2, l. auto 10.
Qed.

(** ** getaddrinfo: the service text *)




Lemma scan_digits_decimal (s : string) (acc : Z) :
  all_digits s = true -> scan_digits 10 acc s = (decimal_value acc s, "").
Proof.
  revert acc. induction s as [| c s IH]; intros acc H; [ reflexivity | ].
  cbn [all_digits] in H. apply andb_prop in H as [Hc Hs].
  cbn [scan_digits decimal_value].
  assert (Hd : digit_of 10 c = Some (ascii_code c - 48)).
  { unfold digit_of. unfold isdigit in Hc. rewrite Hc.
    apply andb_prop in Hc as [_ Hc]. apply Z.leb_le in Hc.
    destruct (Z.ltb_spec (ascii_code c - 48) 10); [ reflexivity | lia ]. }
  rewrite Hd. apply IH, Hs.
Qed.

(** What [strtoul] reads in a decimal numeral: all of it, in base ten,
    cut to [ULONG_MAX] when it is above. *)
Lemma strtoul_decimal (s : string) (m : Z) :
  decimal_numeral s m ->
  strtoul s = (if m >? ULONG_MAX then ULONG_MAX else m, "", m >? ULONG_MAX).
Proof.
  destruct s as [| c r]; [ contradiction | ]. intros (Hz & Hall & Hm).
  pose proof (scan_digits_decimal _ 0 Hall) as Hscan. rewrite Hm in Hscan.
  cbn [all_digits] in Hall. apply andb_prop in Hall as [Hc _].
  unfold isdigit in Hc. apply andb_prop in Hc as [Hlo Hhi].
  apply Z.leb_le in Hlo, Hhi.
  assert (Hsp : isspace c = false).
  { unfold isspace.
    destruct (Z.eqb_spec (ascii_code c) 32); [ lia | ].
    destruct (Z.leb_spec 9 (ascii_code c)); [ | reflexivity ].
    destruct (Z.leb_spec (ascii_code c) 13); [ lia | reflexivity ]. }
  assert (H45 : (ascii_code c =? 45) = false) by (apply Z.eqb_neq; lia).
  assert (H43 : (ascii_code c =? 43) = false) by (apply Z.eqb_neq; lia).
  assert (H48 : (ascii_code c =? 48) = false) by (apply Z.eqb_neq; exact Hz).
  assert (Hd : digit_of 10 c = Some (ascii_code c - 48)).
  { unfold digit_of.
    destruct (Z.leb_spec 48 (ascii_code c)); [ | lia ].
    destruct (Z.leb_spec (ascii_code c) 57); [ | lia ]. cbn [andb].
    destruct (Z.ltb_spec (ascii_code c - 48) 10); [ reflexivity | lia ]. }
  unfold strtoul. cbn [skip_space]. rewrite Hsp, H45, H43.
  assert (Hbase : (match r with
                   | String x r' =>
                       if (ascii_code c =? 48) && is_x x && starts_with_digit 16 r'
                       then (16, r')
                       else if ascii_code c =? 48
                            then (8, String c r)
                            else (10, String c r)
                   | EmptyString =>
                       if ascii_code c =? 48
                       then (8, String c r)
                       else (10, String c r)
                   end) = (10, String c r)).
  { rewrite H48. destruct r; reflexivity. }
  rewrite Hbase. cbn [starts_with_digit]. rewrite Hd, Hscan.
  destruct (m >? ULONG_MAX); reflexivity.
Qed.

Lemma resolve_service_too_big (s : string) (m : Z) (w : world) :
  decimal_numeral s m -> 65535 < m ->
  fst (resolve_service (Some s) w) = inl EAI_SERVICE.
Proof.
  intros Hs Hm. unfold resolve_service.
  rewrite (strtoul_decimal s m Hs). rewrite !Z.gtb_ltb.
  destruct (Z.ltb_spec ULONG_MAX m) as [Hx | Hx]; cbn [String.eqb negb orb].
  - reflexivity.
  - destruct (Z.ltb_spec 65535 m) as [_ | Hy]; [ reflexivity | lia ].
Qed.



(** X6. A service that is a decimal numeral above 65535, however many
    digits it has, is never accepted: with hints that are accepted the
    call does not succeed, [*res] is null, and the heap is as it was
    before the call. The code is EAI_SERVICE, or the one of the address
    determination, which comes first. *)
Theorem getaddrinfo_port_out_of_range node hints flags protocol res0 w rc r w'
    (s : string) (m : Z) :
  decimal_numeral s m -> 65535 < m ->
  check_hints hints = inr (flags, protocol) ->
  getaddrinfo node (Some s) hints res0 w = (rc, r, w') ->
  rc <> 0 /\ r = NULL /\ heap w' = heap w
  /\ (rc = EAI_SERVICE \/ In rc lookup_errors).
Proof.
  intros Hnum Hm Hc E.
  apply getaddrinfo_cases in E as [(Hx & _) | (flags' & protocol' & Hc' & E)];
    [ congruence | ].
  rewrite Hc in Hc'. injection Hc' as <- <-.
  destruct E as [(Hn & ->) | (ip & name & w1 & Hn & E)].
  { apply resolve_node_spec in Hn as (Hh & _ & _ & _ & _ & He & _).
    specialize (He rc eq_refl).
    split; [ apply eai_codes_nonzero, lookup_errors_eai, He | ]. auto. }
  apply resolve_node_spec in Hn as (Hh & _).
  pose proof (resolve_service_too_big s m w1 Hnum Hm) as Hbig.
  destruct E as [(Hs & ->) | (port & w2 & Hs & _)].
  - rewrite Hs in Hbig. cbn [fst] in Hbig. injection Hbig as ->.
    apply resolve_service_spec in Hs as (Hh2 & _).
    split; [ discriminate | ]. split; [ reflexivity | ].
    split; [ congruence | left; reflexivity ].
  - rewrite Hs in Hbig. discriminate Hbig.
Qed.

Lemma getaddrinfo_port_out_of_range_witness :
  let out := getaddrinfo None (Some "10000000000") None 77 (world0 [] no_hosts) in
  fst (fst out) = EAI_SERVICE /\ snd (fst out) = NULL /\ heap (snd out) = ∅.
Proof.
  intros out.
  assert (E : getaddrinfo None (Some "10000000000") None 77 (world0 [] no_hosts)
              = (fst (fst out), snd (fst out), snd out)) by (vm_compute; reflexivity).
  assert (Hnum : decimal_numeral "10000000000" 10000000000).
  { split; [ discriminate | split; reflexivity ]. }
  destruct (getaddrinfo_port_out_of_range None None 0 0 77 _ _ _ _ _ _
              Hnum ltac:(lia) eq_refl E) as (_ & H2 & H3 & _).
  split; [ reflexivity | auto ].
Defined.

(** ** getaddrinfo and getnameinfo together *)





(** ** getaddrinfo: address, flags and name of the records *)

(** X8. Without a node no name is looked up, and every record of a
    successful call carries the wildcard address when AI_PASSIVE was
    asked for and the loopback address 127.0.0.1 otherwise. *)
Theorem getaddrinfo_default_address service hints res0 w rc r w' :
  getaddrinfo None service hints res0 w = (rc, r, w') ->
  lookups (trace w') = lookups (trace w)
  /\ (rc = 0 ->
      exists l, addrinfo_list (heap w') r l /\ l <> []
                /\ Forall (fun ai => exists sa,
                             sockaddr_of (heap w') ai = Some sa
                             /\ sin_addr sa
                                = if truthy (Z.land (hint_flags hints) AI_PASSIVE)
                                  then htonl INADDR_ANY
                                  else htonl (ipv4_of 127 0 0 1)) l).
Proof.
  intros E. split.
  - apply getaddrinfo_cases in E as [(_ & _ & ->) | (flags & protocol & Hc & E)];
      [ reflexivity | ].
    cbn [resolve_node] in E.
    destruct E as [(Hx & _) | (ip & name & w1 & Hn & E)]; [ discriminate | ].
    injection Hn as <- <- <-.
    destruct E as [(Hs & _) | (port & w2 & Hs & E)].
    + apply resolve_service_spec in Hs as (_ & _ & _ & _ & _ & -> & _). reflexivity.
    + apply resolve_service_spec in Hs as (_ & _ & _ & _ & _ & Ht & _).
      apply build_results_spec in E as ((_ & _ & _ & Hl) & _);
        [ | eapply check_hints_protocol; exact Hc ].
      rewrite Hl, Ht. reflexivity.
  - intros ->. apply getaddrinfo_records in E
      as (flags & protocol & ip & name & w1 & port & w2 & l & Hc & Hn & _ & Hl & Hne & Hall).
    apply check_hints_ok in Hc as (-> & _).
    cbn [resolve_node] in Hn. injection Hn as <- <- <-.
    exists l. split; [ exact Hl | ]. split; [ exact Hne | ].
    eapply Forall_impl; [ exact Hall | ]. cbv beta.
    intros ai (_ & _ & _ & _ & Hsa & _). eexists. split; [ exact Hsa | ].
    cbn [sin_addr]. destruct (truthy _); reflexivity.
Qed.

Lemma getaddrinfo_default_address_witness :
  let out := getaddrinfo None None (Some stream_hints) NULL (world0 [] no_hosts) in
  exists l, addrinfo_list (heap (snd out)) (snd (fst out)) l /\ l <> []
            /\ Forall (fun ai => exists sa,
                         sockaddr_of (heap (snd out)) ai = Some sa
                         /\ sin_addr sa = htonl INADDR_ANY) l.
Proof.
  intros out.
  assert (E : getaddrinfo None None (Some stream_hints) NULL (world0 [] no_hosts)
              = (0, snd (fst out), snd out)) by (vm_compute; reflexivity).
  exact (proj2 (getaddrinfo_default_address _ _ _ _ _ _ _ E) eq_refl).
Defined.

(** X9. Every record of a successful call is an IPv4 record with a
    16-byte IPv4 socket address, and its flags are AI_PASSIVE when the
    hints had that bit and 0 otherwise: AI_CANONNAME and AI_NUMERICHOST
    are never echoed. *)
Theorem getaddrinfo_record_fields node service hints res0 w r w' :
  getaddrinfo node service hints res0 w = (0, r, w') ->
  exists l, addrinfo_list (heap w') r l /\ l <> []
            /\ Forall (fun ai =>
                         ai_flags ai = (if truthy (Z.land (hint_flags hints) AI_PASSIVE)
                                        then AI_PASSIVE else 0)
                         /\ ai_family ai = AF_INET
                         /\ ai_addrlen ai = sizeof_sockaddr_in
                         /\ exists sa, sockaddr_of (heap w') ai = Some sa
                                       /\ sin_family sa = AF_INET
                                       /\ sin_len sa = sizeof_sockaddr_in) l.
Proof.
  intros E. apply getaddrinfo_records in E
    as (flags & protocol & ip & name & w1 & port & w2 & l & Hc & _ & _ & Hl & Hne & Hall).
  apply check_hints_ok in Hc as (-> & _).
  exists l. split; [ exact Hl | ]. split; [ exact Hne | ].
  eapply Forall_impl; [ exact Hall | ]. cbv beta.
  intros ai (Hfl & Hfa & Hlen & _ & Hsa & _).
  split; [ | split; [ exact Hfa | split; [ exact Hlen | ] ] ].
  - rewrite Hfl. unfold passive_of. destruct (truthy _); reflexivity.
  - eexists. split; [ exact Hsa | ]. split; reflexivity.
Qed.

Lemma getaddrinfo_record_fields_witness :
  let out := getaddrinfo None None (Some canon_hints) NULL (world0 [] no_hosts) in
  exists l, addrinfo_list (heap (snd out)) (snd (fst out)) l /\ l <> []
            /\ Forall (fun ai =>
                         ai_flags ai = 0
                         /\ ai_family ai = AF_INET
                         /\ ai_addrlen ai = sizeof_sockaddr_in
                         /\ exists sa, sockaddr_of (heap (snd out)) ai = Some sa
                                       /\ sin_family sa = AF_INET
                                       /\ sin_len sa = sizeof_sockaddr_in) l.
Proof.
  intros out.
  assert (E : getaddrinfo None None (Some canon_hints) NULL (world0 [] no_hosts)
              = (0, snd (fst out), snd out)) by (vm_compute; reflexivity).
  exact (getaddrinfo_record_fields _ _ _ _ _ _ _ E).
Defined.

(** X10. Without a lookup (no node, or a numeric node) the canonical name
    of every record is a copy of the node text itself when AI_CANONNAME
    was asked for and a node was given, and is absent otherwise. *)
Theorem getaddrinfo_canonname_literal node service hints res0 w r w' :
  (forall n, node = Some n -> inet_addr n <> INADDR_NONE) ->
  getaddrinfo node service hints res0 w = (0, r, w') ->
  exists l, addrinfo_list (heap w') r l /\ l <> []
            /\ Forall (fun ai =>
                         canonname_of (heap w') ai
                         = if truthy (Z.land (hint_flags hints) AI_CANONNAME)
                           then node else None) l.
Proof.
  intros Hnum E. apply getaddrinfo_records in E
    as (flags & protocol & ip & name & w1 & port & w2 & l & Hc & Hn & _ & Hl & Hne & Hall).
  apply check_hints_ok in Hc as (-> & _).
  assert (Hname : name = None).
  { destruct node as [n |].
    - rewrite resolve_node_numeric in Hn by (apply Hnum; reflexivity).
      injection Hn as _ <- _. reflexivity.
    - cbn [resolve_node] in Hn. injection Hn as _ <- _. reflexivity. }
  subst name.
  exists l. split; [ exact Hl | ]. split; [ exact Hne | ].
  eapply Forall_impl; [ exact Hall | ]. cbv beta.
  intros ai (_ & _ & _ & _ & _ & Hcn). rewrite Hcn. reflexivity.
Qed.

Lemma getaddrinfo_canonname_literal_witness :
  let out := getaddrinfo (Some "10.0.0.1") None (Some canon_hints) NULL
               (world0 [] no_hosts) in
  exists l, addrinfo_list (heap (snd out)) (snd (fst out)) l /\ l <> []
            /\ Forall (fun ai => canonname_of (heap (snd out)) ai = Some "10.0.0.1") l.
Proof.
  intros out.
  assert (E : getaddrinfo (Some "10.0.0.1") None (Some canon_hints) NULL
                (world0 [] no_hosts) = (0, snd (fst out), snd out))
    by (vm_compute; reflexivity).
  refine (getaddrinfo_canonname_literal _ _ _ _ _ _ _ _ E).
  intros n [= <-]. vm_compute. discriminate.
Defined.

(** ** getaddrinfo: the name lookup *)

Lemma resolve_node_lookup n flags w :
  inet_addr n = INADDR_NONE -> truthy (Z.land flags AI_NUMERICHOST) = false ->
  resolve_node (Some n) flags w
  = match resolver w n with
    | inl e =>
        if negb (h_length e =? 4) || negb (h_addrtype e =? AF_INET)
        then (inl EAI_FAMILY, log (EvLookup n) w)
        else (inr (h_addr e,
                   if truthy (Z.land flags AI_CANONNAME) then Some (h_name e)
                   else None), log (EvLookup n) w)
    | inr err =>
        (inl (gai_error_from_herrno (set_h_errno err (log (EvLookup n) w))),
         set_h_errno err (log (EvLookup n) w))
    end.
Proof.
  intros Hn Hf. unfold resolve_node, gethostbyname. rewrite Hn, Hf.
  change (INADDR_NONE =? INADDR_NONE) with true. cbn [negb].
  change (resolver (log (EvLookup n) w)) with (resolver w).
  destruct (resolver w n) as [e | err]; reflexivity.
Qed.

(** X11. A node that is not numeric is looked up exactly once, by its
    own name, unless AI_NUMERICHOST forbids it, whatever the resolver
    answers and however the call ends. When the call succeeds, the
    resolver has answered with a 4-byte IPv4 entry, every record carries
    the address of the entry, and its canonical name is the entry's name
    when AI_CANONNAME was asked for and absent otherwise. *)
Theorem getaddrinfo_lookup_answer n service hints flags protocol res0 w rc r w' :
  inet_addr n = INADDR_NONE ->
  check_hints hints = inr (flags, protocol) ->
  truthy (Z.land flags AI_NUMERICHOST) = false ->
  getaddrinfo (Some n) service hints res0 w = (rc, r, w') ->
  lookups (trace w') = (lookups (trace w) ++ [n])%list
  /\ (rc = 0 ->
      exists e l,
        resolver w n = inl e /\ h_length e = 4 /\ h_addrtype e = AF_INET
        /\ addrinfo_list (heap w') r l /\ l <> []
        /\ Forall (fun ai =>
                     (exists sa, sockaddr_of (heap w') ai = Some sa
                                 /\ sin_addr sa = h_addr e)
                     /\ canonname_of (heap w') ai
                        = if truthy (Z.land flags AI_CANONNAME)
                          then Some (h_name e) else None) l).
Proof.
  intros Hn Hc Hf E.
  assert (Hlk : lookups (trace (log (EvLookup n) w)) = (lookups (trace w) ++ [n])%list).
  { cbn [trace log]. unfold lookups. rewrite omap_app. reflexivity. }
  assert (Htr : forall x w1, resolve_node (Some n) flags w = (x, w1) ->
                  lookups (trace w1) = (lookups (trace w) ++ [n])%list).
  { intros x w1 Hx. rewrite resolve_node_lookup in Hx by assumption.
    destruct (resolver w n) as [e | err]; [ destruct (_ || _) | ];
      apply pair_equal_spec in Hx as [_ <-]; exact Hlk. }
  split.
  - apply getaddrinfo_cases in E as [(Hx & _) | (flags' & protocol' & Hc' & E)];
      [ congruence | ].
    rewrite Hc in Hc'. injection Hc' as <- <-.
    destruct E as [(Hx & _) | (ip & name & w1 & Hx & E)]; [ exact (Htr _ _ Hx) | ].
    apply Htr in Hx.
    destruct E as [(Hs & _) | (port & w2 & Hs & E)].
    + apply resolve_service_spec in Hs as (_ & _ & _ & _ & _ & -> & _). exact Hx.
    + apply resolve_service_spec in Hs as (_ & _ & _ & _ & _ & Ht & _).
      apply build_results_spec in E as ((_ & _ & _ & Hl) & _);
        [ | eapply check_hints_protocol; exact Hc ].
      rewrite Hl, Ht. exact Hx.
  - intros ->. apply getaddrinfo_records in E
      as (flags' & protocol' & ip & name & w1 & port & w2 & l & Hc' & Hx & _ & Hl & Hne & Hall).
    rewrite Hc in Hc'. injection Hc' as <- <-.
    rewrite resolve_node_lookup in Hx by assumption.
    destruct (resolver w n) as [e | err]; [ | discriminate Hx ].
    destruct (Z.eqb_spec (h_length e) 4) as [Hlen | _]; [ | discriminate Hx ].
    destruct (Z.eqb_spec (h_addrtype e) AF_INET) as [Hty | _]; [ | discriminate Hx ].
    cbn [negb orb] in Hx.
    apply pair_equal_spec in Hx as [Hx _]. injection Hx as <- <-.
    exists e, l. split; [ reflexivity | ]. split; [ exact Hlen | ].
    split; [ exact Hty | ]. split; [ exact Hl | ]. split; [ exact Hne | ].
    eapply Forall_impl; [ exact Hall | ]. cbv beta.
    intros ai (_ & _ & _ & _ & Hsa & Hcn). split.
    + eexists. split; [ exact Hsa | reflexivity ].
    + rewrite Hcn. unfold canon_name.
      destruct (truthy (Z.land flags AI_CANONNAME)); reflexivity.
Qed.

Lemma getaddrinfo_lookup_answer_witness :
  let out := getaddrinfo (Some "host") None (Some canon_hints) NULL
               (world0 [] one_host) in
  lookups (trace (snd out)) = ["host"]
  /\ exists e l,
       one_host "host" = inl e /\ h_length e = 4 /\ h_addrtype e = AF_INET
       /\ addrinfo_list (heap (snd out)) (snd (fst out)) l /\ l <> []
       /\ Forall (fun ai =>
                    (exists sa, sockaddr_of (heap (snd out)) ai = Some sa
                                /\ sin_addr sa = h_addr e)
                    /\ canonname_of (heap (snd out)) ai = Some (h_name e)) l.
Proof.
  intros out.
  assert (E : getaddrinfo (Some "host") None (Some canon_hints) NULL
                (world0 [] one_host) = (0, snd (fst out), snd out))
    by (vm_compute; reflexivity).
  destruct (getaddrinfo_lookup_answer "host" None (Some canon_hints) AI_CANONNAME 0
              NULL (world0 [] one_host) 0 _ _ eq_refl eq_refl eq_refl E) as (H1 & H3).
  split; [ exact H1 | ]. exact (H3 eq_refl).
Defined.

(** X12. When the lookup fails, the code returned is the one of the
    [h_errno] this very lookup has set (HOST_NOT_FOUND gives EAI_NONAME,
    NO_DATA EAI_NODATA, NO_RECOVERY EAI_FAIL, TRY_AGAIN EAI_AGAIN, anything
    else EAI_SYSTEM); when it answers with an entry that is not a 4-byte
    IPv4 one, the code is EAI_FAMILY. In both cases [*res] is null, the
    heap is untouched and the service text is not even read. *)
Theorem getaddrinfo_lookup_refused n service hints flags protocol res0 w :
  inet_addr n = INADDR_NONE ->
  check_hints hints = inr (flags, protocol) ->
  truthy (Z.land flags AI_NUMERICHOST) = false ->
  (forall err, resolver w n = inr err ->
     getaddrinfo (Some n) service hints res0 w
     = (if err =? HOST_NOT_FOUND then EAI_NONAME
        else if err =? NO_DATA then EAI_NODATA
        else if err =? NO_RECOVERY then EAI_FAIL
        else if err =? TRY_AGAIN then EAI_AGAIN
        else EAI_SYSTEM,
        NULL, set_h_errno err (log (EvLookup n) w)))
  /\ (forall e, resolver w n = inl e ->
        h_length e <> 4 \/ h_addrtype e <> AF_INET ->
        getaddrinfo (Some n) service hints res0 w
        = (EAI_FAMILY, NULL, log (EvLookup n) w)).
Proof.
  intros Hn Hc Hf. split.
  - intros err Hres. unfold getaddrinfo. rewrite Hc.
    rewrite resolve_node_lookup by assumption. rewrite Hres.
    unfold gai_error_from_herrno. cbn [h_errno set_h_errno].
    change NO_ADDRESS with NO_DATA.
    destruct (err =? HOST_NOT_FOUND); [ reflexivity | ].
    destruct (err =? NO_DATA); reflexivity.
  - intros e Hres Hbad. unfold getaddrinfo. rewrite Hc.
    rewrite resolve_node_lookup by assumption. rewrite Hres.
    destruct (Z.eqb_spec (h_length e) 4) as [Hl | _]; [ | reflexivity ].
    destruct (Z.eqb_spec (h_addrtype e) AF_INET) as [Ha | _]; [ | reflexivity ].
    destruct Hbad; contradiction.
Qed.

Lemma getaddrinfo_lookup_refused_witness :
  getaddrinfo (Some "nowhere") (Some "80abc") None 77 (world0 [] no_hosts)
  = (EAI_NONAME, NULL, set_h_errno HOST_NOT_FOUND
                         (log (EvLookup "nowhere") (world0 [] no_hosts))).
Proof.
  exact (proj1 (getaddrinfo_lookup_refused "nowhere" (Some "80abc") None 0 0 77
                  (world0 [] no_hosts) eq_refl eq_refl eq_refl)
           HOST_NOT_FOUND eq_refl).
Defined.

(** ** getaddrinfo: the hints *)

Lemma land_lnot_ai_mask (x : Z) :
  Z.land x (Z.lnot _AI_MASK) = 0 <-> 0 <= x <= 7.
Proof.
  change _AI_MASK with (Z.ones 3).
  rewrite <- Z.ldiff_land, Z.ldiff_ones_r by lia.
  rewrite Z.shiftl_mul_pow2, Z.shiftr_div_pow2 by lia.
  change (2 ^ 3) with 8. split; intros H.
  - assert (x / 8 = 0) by lia. Z.div_mod_to_equations. lia.
  - assert (x / 8 = 0) by (apply Z.div_small; lia). lia.
Qed.

(** X13. EAI_BADFLAGS is returned exactly when hints are given whose flags
    are not made of the three bits AI_PASSIVE, AI_CANONNAME and
    AI_NUMERICHOST, that is when [ai_flags] is outside 0..7; and
    EAI_SOCKTYPE exactly when the flags and the family are accepted and
    the socket type is none of 0, SOCK_STREAM, SOCK_DGRAM, SOCK_RAW. *)
Theorem getaddrinfo_hint_codes node service hints res0 w rc r w' :
  getaddrinfo node service hints res0 w = (rc, r, w') ->
  (rc = EAI_BADFLAGS <-> exists h, hints = Some h /\ ~ (0 <= ai_flags h <= 7))
  /\ (rc = EAI_SOCKTYPE <->
      exists h, hints = Some h /\ 0 <= ai_flags h <= 7
                /\ (ai_family h = 0 \/ ai_family h = AF_INET)
                /\ ~ (0 <= ai_socktype h <= 3)).
Proof.
  intros E.
  assert (Hlate : forall flags protocol,
             check_hints hints = inr (flags, protocol) ->
             rc <> EAI_BADFLAGS /\ rc <> EAI_SOCKTYPE).
  { intros flags protocol Hc.
    apply getaddrinfo_cases in E as [(Hx & _) | (flags' & protocol' & Hc' & E)];
      [ congruence | ].
    rewrite Hc in Hc'. injection Hc' as <- <-.
    destruct E as [(Hn & _) | (ip & name & w1 & Hn & E)].
    { apply resolve_node_spec in Hn as (_ & _ & _ & _ & _ & He & _).
      specialize (He rc eq_refl). unfold lookup_errors in He. simpl in He.
      split; intros ->;
        repeat (destruct He as [He | He]; [ discriminate He | ]); exact He. }
    destruct E as [(Hs & _) | (port & w2 & Hs & E)].
    { apply resolve_service_spec in Hs as (_ & _ & _ & _ & _ & _ & He & _).
      destruct (He rc eq_refl) as [-> _]. split; discriminate. }
    apply build_results_spec in E as (_ & _ & [(-> & _) | (-> & _)]);
      [ split; discriminate | split; discriminate | ].
    eapply check_hints_protocol. exact Hc. }
  assert (Hearly : forall e, check_hints hints = inl e -> rc = e).
  { intros e Hc.
    apply getaddrinfo_cases in E as [(Hx & _) | (flags' & protocol' & Hc' & _)];
      congruence. }
  unfold check_hints in Hlate, Hearly. destruct hints as [h |].
  2: { destruct (Hlate 0 0 eq_refl) as [H1 H2].
       split; (split; [ intros; contradiction | intros (h & Hx & _); discriminate ]). }
  pose proof (land_lnot_ai_mask (ai_flags h)) as Hmask. unfold truthy in *.
  assert (Hfl : (Z.land (ai_flags h) (Z.lnot _AI_MASK) =? 0) = true
                /\ 0 <= ai_flags h <= 7
                \/ (Z.land (ai_flags h) (Z.lnot _AI_MASK) =? 0) = false
                   /\ ~ 0 <= ai_flags h <= 7).
  { destruct (Z.eqb_spec (Z.land (ai_flags h) (Z.lnot _AI_MASK)) 0); tauto. }
  clear Hmask. unfold AF_INET, SOCK_STREAM, SOCK_DGRAM, SOCK_RAW in *.
  destruct Hfl as [[Eb Hfl] | [Eb Hfl]]; rewrite Eb in *; clear Eb;
    cbn [negb] in *;
    [ destruct (Z.eqb_spec (ai_family h) 0);
      destruct (Z.eqb_spec (ai_family h) 2); cbn [negb andb] in *;
      [ lia | | | ];
      try (destruct (Z.eqb_spec (ai_socktype h) 1);
           [ | destruct (Z.eqb_spec (ai_socktype h) 2);
               [ | destruct (Z.eqb_spec (ai_socktype h) 3); cbn [orb] in *;
                   [ | destruct (Z.eqb_spec (ai_socktype h) 0) ] ] ];
           try destruct (_ && _ && _))
    | ];
    first [ rewrite (Hearly _ eq_refl)
          | destruct (Hlate _ _ eq_refl) as [H1 H2] ];
    (split; (split;
      [ intros Hrc; try contradiction; try discriminate Hrc;
        exists h; repeat split; (lia || tauto)
      | intros (h' & Heq & Hrest); injection Heq as <-;
        try reflexivity; exfalso; (lia || tauto) ])).
Qed.

Lemma getaddrinfo_hint_codes_witness :
  getaddrinfo None None (Some bad_flag_hints) 77 (world0 [] no_hosts)
  = (EAI_BADFLAGS, 77, world0 [] no_hosts).
Proof.
  destruct (getaddrinfo None None (Some bad_flag_hints) 77 (world0 [] no_hosts))
    as [[rc r] w'] eqn:E.
  pose proof (proj2 (proj1 (getaddrinfo_hint_codes _ _ _ _ _ _ _ _ E))) as Hb.
  assert (Hrc : rc = EAI_BADFLAGS).
  { apply Hb. exists bad_flag_hints. split; [ reflexivity | ]. cbn. lia. }
  subst rc. vm_compute in E. injection E as <- <-. reflexivity.
Defined.

(** X14. With the socket type SOCK_RAW or none, neither the socket type
    nor the protocol of the hints matters: the call does what it does for
    the same hints with both fields 0. In particular a SOCK_RAW request
    is answered with a TCP and a UDP record. *)
Theorem getaddrinfo_raw_as_unspecified node service h res0 w :
  ai_socktype h = SOCK_RAW \/ ai_socktype h = 0 ->
  getaddrinfo node service (Some h) res0 w
  = getaddrinfo node service
      (Some (mk_addrinfo (ai_flags h) (ai_family h) 0 0 (ai_addrlen h)
               (ai_addr h) (ai_canonname h) (ai_next h))) res0 w.
Proof.
  intros Hty.
  assert (Hc : check_hints (Some h)
               = check_hints
                   (Some (mk_addrinfo (ai_flags h) (ai_family h) 0 0 (ai_addrlen h)
                            (ai_addr h) (ai_canonname h) (ai_next h)))).
  { unfold check_hints.
    cbn [ai_flags ai_family ai_socktype ai_protocol].
    destruct (truthy (Z.land (ai_flags h) (Z.lnot _AI_MASK))); [ reflexivity | ].
    destruct (truthy (ai_family h) && negb (ai_family h =? AF_INET));
      [ reflexivity | ].
    change (truthy 0) with false. cbn [andb].
    destruct Hty as [-> | ->].
    - change (SOCK_RAW =? SOCK_STREAM) with false.
      change (SOCK_RAW =? SOCK_DGRAM) with false.
      change ((SOCK_RAW =? SOCK_RAW) || (SOCK_RAW =? 0)) with true.
      cbv iota. rewrite Bool.andb_false_r. reflexivity.
    - change (0 =? SOCK_STREAM) with false. change (0 =? SOCK_DGRAM) with false.
      change ((0 =? SOCK_RAW) || (0 =? 0)) with true.
      cbv iota. rewrite Bool.andb_false_r. reflexivity. }
  unfold getaddrinfo. rewrite Hc. reflexivity.
Qed.

Lemma getaddrinfo_raw_as_unspecified_witness :
  getaddrinfo (Some "10.0.0.1") None
    (Some (mk_addrinfo 0 AF_INET SOCK_RAW 255 0 NULL NULL NULL)) NULL
    (world0 [] no_hosts)
  = getaddrinfo (Some "10.0.0.1") None
      (Some (mk_addrinfo 0 AF_INET 0 0 0 NULL NULL NULL)) NULL (world0 [] no_hosts).
Proof.
  exact (getaddrinfo_raw_as_unspecified (Some "10.0.0.1") None
           (mk_addrinfo 0 AF_INET SOCK_RAW 255 0 NULL NULL NULL) NULL
           (world0 [] no_hosts) (or_introl eq_refl)).
Defined.

(** ** getaddrinfo: what it never does *)

Lemma build_results_keeps flags protocol ip port name res w rc r w' :
  build_results flags protocol ip port name res w = (rc, r, w') ->
  preserves (heap w) (heap w') /\ fault w' = fault w.
Proof.
  unfold build_results. intros E.
  assert (Hstep : forall ty pr nxt w0 p w1,
             makeipv4info ty pr ip port name w0 = (p, w1) ->
             (p = NULL /\ preserves (heap w0) (heap w1) /\ fault w1 = fault w0)
             \/ (p <> NULL
                 /\ preserves (heap w0) (heap (or_passive flags p w1))
                 /\ fault (or_passive flags p w1) = fault w0
                 /\ preserves (heap w0) (heap (or_passive flags p (set_next p nxt w1)))
                 /\ fault (or_passive flags p (set_next p nxt w1)) = fault w0)).
  { intros ty pr nxt w0 p w1 E0. destruct (Z.eq_dec p NULL) as [-> | Hp].
    - left. apply record_failed in E0 as ((_ & _ & _ & Hf & _) & Hh & _).
      split; [ reflexivity | ]. split; [ | exact Hf ].
      rewrite Hh. intros q b Hq. exact Hq.
    - right. split; [ exact Hp | ].
      destruct (record_first flags _ _ _ _ _ _ _ _ E0 Hp)
        as ((_ & _ & _ & Hf1 & _) & _ & _ & _ & Hp1).
      destruct (record_step flags _ _ _ _ _ nxt _ _ _ E0 Hp)
        as ((_ & _ & _ & Hf2 & _) & _ & _ & _ & Hp2).
      auto. }
  destruct (negb (truthy protocol) || (protocol =? IPPROTO_UDP)).
  - destruct (makeipv4info SOCK_DGRAM IPPROTO_UDP ip port name w) as [p1 w1] eqn:E1.
    destruct (Hstep _ _ NULL _ _ _ E1)
      as [(-> & Hp1 & Hf1) | (Hnz & Hp1 & Hf1 & _)].
    { change (NULL =? NULL) with true in E. cbv iota in E.
      apply triple_eq in E as (_ & _ & <-). auto. }
    destruct (Z.eqb_spec p1 NULL) as [? | _]; [ contradiction | ].
    destruct (negb (truthy protocol) || (protocol =? IPPROTO_TCP)).
    + destruct (makeipv4info SOCK_STREAM IPPROTO_TCP ip port name
                  (or_passive flags p1 w1)) as [p2 w2] eqn:E2.
      destruct (Hstep _ _ p1 _ _ _ E2)
        as [(-> & Hp2 & Hf2) | (Hnz2 & _ & _ & Hp2 & Hf2)].
      * change (NULL =? NULL) with true in E. cbv iota in E.
        apply triple_eq in E as (_ & _ & <-). cbn [heap fault set_errno].
        split; [ eapply preserves_trans; eassumption | congruence ].
      * destruct (Z.eqb_spec p2 NULL) as [? | _]; [ contradiction | ].
        apply triple_eq in E as (_ & _ & <-).
        split; [ eapply preserves_trans; eassumption | congruence ].
    + apply triple_eq in E as (_ & _ & <-). auto.
  - destruct (negb (truthy protocol) || (protocol =? IPPROTO_TCP)).
    + destruct (makeipv4info SOCK_STREAM IPPROTO_TCP ip port name w) as [p2 w2] eqn:E2.
      destruct (Hstep _ _ res _ _ _ E2)
        as [(-> & Hp2 & Hf2) | (Hnz2 & _ & _ & Hp2 & Hf2)].
      * change (NULL =? NULL) with true in E. cbv iota in E.
        apply triple_eq in E as (_ & _ & <-). auto.
      * destruct (Z.eqb_spec p2 NULL) as [? | _]; [ contradiction | ].
        apply triple_eq in E as (_ & _ & <-). auto.
    + apply triple_eq in E as (_ & _ & <-).
      split; [ intros q b Hq; exact Hq | reflexivity ].
Qed.

(** X15. Whatever the arguments and whatever the outcome, [getaddrinfo]
    leaves every block that was on the heap before the call as it was,
    and never frees or reads through an invalid pointer. *)
Theorem getaddrinfo_keeps_heap node service hints res0 w rc r w' :
  getaddrinfo node service hints res0 w = (rc, r, w') ->
  preserves (heap w) (heap w') /\ fault w' = fault w.
Proof.
  intros E.
  apply getaddrinfo_cases in E as [(_ & _ & ->) | (flags & protocol & Hc & E)].
  { split; [ intros q b Hq; exact Hq | reflexivity ]. }
  destruct E as [(Hn & _) | (ip & name & w1 & Hn & E)].
  { apply resolve_node_spec in Hn as (Hh & _ & _ & Hf & _).
    rewrite Hh. split; [ intros q b Hq; exact Hq | exact Hf ]. }
  apply resolve_node_spec in Hn as (Hh & _ & _ & Hf & _).
  destruct E as [(Hs & _) | (port & w2 & Hs & E)].
  { apply resolve_service_spec in Hs as (Hh2 & _ & _ & Hf2 & _).
    rewrite Hh2, Hh. split; [ intros q b Hq; exact Hq | congruence ]. }
  apply resolve_service_spec in Hs as (Hh2 & _ & _ & Hf2 & _).
  apply build_results_keeps in E as [Hp Hf3].
  rewrite Hh2, Hh in Hp. split; [ exact Hp | congruence ].
Qed.

Lemma getaddrinfo_keeps_heap_witness :
  let w := mk_world (<[100 := BStr "mine"]> ∅) [true; true; false] no_hosts 0 0 false [] in
  let out := getaddrinfo None None None NULL w in
  heap (snd out) !! 100 = Some (BStr "mine") /\ fault (snd out) = false.
Proof.
  intros w out.
  assert (E : getaddrinfo None None None NULL w
              = (fst (fst out), snd (fst out), snd out)) by (vm_compute; reflexivity).
  destruct (getaddrinfo_keeps_heap _ _ _ _ _ _ _ _ E) as [Hp Hf].
  split; [ | exact Hf ]. apply Hp. vm_compute. reflexivity.
Defined.



(** ** makeaddrinfo and freeaddrinfo *)

Lemma built_lone h h' p af ty pr len addr name :
  built h h' p af ty pr len addr name -> lone_record h h' p.
Proof.
  intros (pa & pc & Hp & Hpa & Hne & Hfp & Hfa & Hlp & Hla & Hn & Hfr).
  eexists. split; [ exact Hp | ]. split; [ exact Hfp | ]. split; [ exact Hlp | ].
  cbn [ai_next ai_addr ai_canonname].
  split; [ reflexivity | ]. split; [ exact Hpa | ]. split; [ exact Hne | ].
  split; [ exact Hfa | ]. split; [ rewrite Hla; eauto | ]. split; [ | exact Hfr ].
  destruct name as [s |]; [ right | left; exact Hn ].
  destruct Hn as (H1 & H2 & H3 & H4 & H5). rewrite H5. eauto 10.
Qed.

(** [freeaddrinfo] releases a lone record completely. *)
Lemma freeaddrinfo_lone h p w :
  lone_record h (heap w) p ->
  heap (freeaddrinfo p w) = h /\ fault (freeaddrinfo p w) = fault w.
Proof.
  intros (ai & Hp & Hfp & Hlp & Hnx & Hpa & Hne & Hfa & Hla & Hcn & Hfr).
  unfold freeaddrinfo.
  destruct (Z.eqb_spec p NULL) as [? | _]; [ contradiction | ].
  rewrite (field_live ai_canonname p ai w Hlp).
  set (w1 := free (ai_canonname ai) w).
  assert (H1 : heap w1 !! p = Some (BInfo ai) /\ is_Some (heap w1 !! ai_addr ai)
               /\ fault w1 = fault w
               /\ forall q, q <> p -> q <> ai_addr ai ->
                            heap w1 !! q = h !! q).
  { subst w1. destruct Hcn as [Hc | (Hcz & Hc1 & Hc2 & Hc3 & Hc4)].
    - rewrite Hc. change (free NULL w) with w.
      repeat split; auto.
    - rewrite free_live by assumption. heap_proj.
      rewrite !lookup_delete_ne by congruence.
      repeat split; auto.
      intros q Hq1 Hq2. destruct (decide (q = ai_canonname ai)) as [-> | Hq3].
      + rewrite lookup_delete_eq. symmetry. exact Hc3.
      + rewrite lookup_delete_ne by congruence. apply Hfr; auto. }
  destruct H1 as (Hlp1 & Hla1 & Hf1 & Hfr1).
  rewrite (field_live ai_addr p ai w1 Hlp1).
  rewrite (free_live (ai_addr ai) w1 Hpa Hla1).
  set (w2 := log (EvFree (ai_addr ai)) (set_heap (delete (ai_addr ai) (heap w1)) w1)).
  assert (Hlp2 : heap w2 !! p = Some (BInfo ai)).
  { subst w2. heap_proj. rewrite lookup_delete_ne by congruence. exact Hlp1. }
  rewrite (field_live ai_next p ai w2 Hlp2). rewrite Hnx.
  change (free NULL w2) with w2.
  rewrite free_live by (try assumption; rewrite Hlp2; eauto).
  subst w2. heap_proj. split; [ | exact Hf1 ].
  apply map_eq. intros q.
  destruct (decide (q = p)) as [-> | Hq1];
    [ rewrite lookup_delete_eq; congruence | ].
  rewrite lookup_delete_ne by congruence.
  destruct (decide (q = ai_addr ai)) as [-> | Hq2];
    [ rewrite lookup_delete_eq; congruence | ].
  rewrite lookup_delete_ne by congruence. apply Hfr1; assumption.
Qed.

(** X17. [makeaddrinfo] builds all of a record or nothing. When it returns
    null the heap is exactly as before: whatever was allocated on the way
    has been released. When it returns a record, the struct, the address
    buffer and the copy of the name are three fresh blocks, the buffer
    holds the address given and the record's flags are 0 and its
    successor null. It fails only if an allocation does. *)
Theorem makeaddrinfo_all_or_nothing af ty pr addr len name w p w' :
  makeaddrinfo af ty pr addr len name w = (p, w') ->
  fault w' = fault w
  /\ (plenty w -> p <> NULL)
  /\ (p = NULL -> heap w' = heap w)
  /\ (p <> NULL ->
      heap w !! p = None
      /\ exists pa pc,
           heap w' !! p = Some (BInfo (mk_addrinfo 0 af ty pr len pa pc NULL))
           /\ pa <> NULL /\ pa <> p /\ heap w !! pa = None
           /\ heap w' !! pa = Some (BAddr addr)
           /\ match name with
              | None => pc = NULL
              | Some s => pc <> NULL /\ pc <> p /\ pc <> pa
                          /\ heap w !! pc = None
                          /\ heap w' !! pc = Some (BStr s)
              end).
Proof.
  intros E. apply makeaddrinfo_spec in E as ((_ & _ & _ & Hf & _) & Hpl & Hres).
  split; [ exact Hf | ]. split; [ intros Hw; apply Hpl, Hw | ]. split.
  - intros ->. destruct Hres as [[_ Hh] | Hb]; [ exact Hh | ].
    destruct Hb as (pa & pc & Hx & _). exfalso. apply Hx. reflexivity.
  - intros Hp. destruct Hres as [[Hx _] | Hb]; [ contradiction | ].
    destruct Hb as (pa & pc & _ & Hpa & Hne & Hfp & Hfa & Hlp & Hla & Hn & _).
    split; [ exact Hfp | ]. exists pa, pc. repeat split; assumption.
Qed.

Lemma makeaddrinfo_all_or_nothing_witness :
  let out := makeaddrinfo AF_INET SOCK_STREAM IPPROTO_TCP
               (mk_sockaddr_in 16 AF_INET 0 0) 16 (Some "name")
               (world0 [true; true; false] no_hosts) in
  fst out = NULL /\ heap (snd out) = ∅ /\ fault (snd out) = false.
Proof.
  intros out.
  assert (E : makeaddrinfo AF_INET SOCK_STREAM IPPROTO_TCP
                (mk_sockaddr_in 16 AF_INET 0 0) 16 (Some "name")
                (world0 [true; true; false] no_hosts) = (fst out, snd out))
    by (vm_compute; reflexivity).
  destruct (makeaddrinfo_all_or_nothing _ _ _ _ _ _ _ _ _ E) as (Hf & _ & Hn & _).
  assert (Hp : fst out = NULL) by (vm_compute; reflexivity).
  split; [ exact Hp | ]. split; [ exact (Hn Hp) | exact Hf ].
Defined.

(** X18. What [makeaddrinfo] builds, [freeaddrinfo] releases completely:
    after the two calls the heap is exactly as before, and no invalid
    pointer was freed. *)
Theorem makeaddrinfo_freeaddrinfo af ty pr addr len name w p w' :
  makeaddrinfo af ty pr addr len name w = (p, w') ->
  heap (freeaddrinfo p w') = heap w /\ fault (freeaddrinfo p w') = fault w.
Proof.
  intros E. apply makeaddrinfo_spec in E as ((_ & _ & _ & Hf & _) & _ & Hres).
  destruct Hres as [[-> Hh] | Hb].
  - change (freeaddrinfo NULL w') with w'. auto.
  - apply built_lone in Hb. apply freeaddrinfo_lone in Hb as [Hh Hf2].
    split; [ exact Hh | congruence ].
Qed.

Lemma makeaddrinfo_freeaddrinfo_witness :
  let out := makeaddrinfo AF_INET SOCK_STREAM IPPROTO_TCP
               (mk_sockaddr_in 16 AF_INET 0 0) 16 (Some "name")
               (world0 [] no_hosts) in
  fst out <> NULL
  /\ heap (freeaddrinfo (fst out) (snd out)) = ∅
  /\ fault (freeaddrinfo (fst out) (snd out)) = false.
Proof.
  intros out.
  assert (E : makeaddrinfo AF_INET SOCK_STREAM IPPROTO_TCP
                (mk_sockaddr_in 16 AF_INET 0 0) 16 (Some "name")
                (world0 [] no_hosts) = (fst out, snd out))
    by (vm_compute; reflexivity).
  split; [ vm_compute; discriminate | ].
  exact (makeaddrinfo_freeaddrinfo _ _ _ _ _ _ _ _ _ E).
Defined.

Lemma lone_record_update h h' h'' p ai ai' :
  lone_record h h' p ->
  h' !! p = Some (BInfo ai) -> h'' !! p = Some (BInfo ai') ->
  ai_addr ai' = ai_addr ai -> ai_canonname ai' = ai_canonname ai ->
  ai_next ai' = NULL ->
  (forall q, q <> p -> h'' !! q = h' !! q) ->
  lone_record h h'' p.
Proof.
  intros (ai0 & Hp & Hfp & Hlp & Hnx & Hpa & Hne & Hfa & Hla & Hcn & Hfr)
         Hl Hl' Ea Ec En Hsame.
  rewrite Hlp in Hl. injection Hl as <-.
  exists ai'. rewrite Ea, Ec.
  split; [ exact Hp | ]. split; [ exact Hfp | ]. split; [ exact Hl' | ].
  split; [ exact En | ]. split; [ exact Hpa | ]. split; [ exact Hne | ].
  split; [ exact Hfa | ]. split; [ rewrite Hsame by congruence; exact Hla | ].
  split.
  - destruct Hcn as [Hc | (H0 & H1 & H2 & H3 & H4)]; [ left; exact Hc | right ].
    repeat split; try assumption. rewrite Hsame by congruence. exact H4.
  - intros q Hq1 Hq2 Hq3. rewrite Hsame by exact Hq1. apply Hfr; assumption.
Qed.

Lemma set_next_null_lone h p w :
  lone_record h (heap w) p ->
  lone_record h (heap (set_next p NULL w)) p
  /\ fault (set_next p NULL w) = fault w.
Proof.
  intros Hl. pose proof Hl as (ai & _ & _ & Hlp & _).
  unfold set_next, read_info. rewrite Hlp.
  rewrite store_live by (rewrite Hlp; eauto). heap_proj.
  split; [ | reflexivity ].
  eapply lone_record_update; [ exact Hl | exact Hlp | apply lookup_insert_eq | .. ];
    try reflexivity.
  intros q Hq. apply lookup_insert_ne. congruence.
Qed.

Lemma or_passive_lone h flags p w :
  lone_record h (heap w) p ->
  lone_record h (heap (or_passive flags p w)) p
  /\ fault (or_passive flags p w) = fault w.
Proof.
  intros Hl. pose proof Hl as (ai & _ & _ & Hlp & Hnx & _).
  unfold or_passive. destruct (truthy (Z.land flags AI_PASSIVE)); [ | auto ].
  unfold read_info. rewrite Hlp.
  rewrite store_live by (rewrite Hlp; eauto). heap_proj.
  split; [ | reflexivity ].
  eapply lone_record_update; [ exact Hl | exact Hlp | apply lookup_insert_eq | .. ];
    try reflexivity; try exact Hnx.
  intros q Hq. apply lookup_insert_ne. congruence.
Qed.

Lemma makeipv4info_lone ty pr ip port name w p w1 :
  makeipv4info ty pr ip port name w = (p, w1) -> p <> NULL ->
  lone_record (heap w) (heap w1) p /\ fault w1 = fault w.
Proof.
  unfold makeipv4info. intros E Hp.
  apply makeaddrinfo_spec in E as ((_ & _ & _ & Hf & _) & _ & [[Hx _] | Hb]);
    [ contradiction | ].
  split; [ eapply built_lone; exact Hb | exact Hf ].
Qed.

(** The list of one record that [build_results] makes for one protocol. *)
Lemma build_results_lone flags protocol ip port name w r w' :
  protocol = IPPROTO_TCP \/ protocol = IPPROTO_UDP ->
  build_results flags protocol ip port name NULL w = (0, r, w') ->
  lone_record (heap w) (heap w') r /\ fault w' = fault w.
Proof.
  intros Hproto E. unfold build_results in E. destruct Hproto as [-> | ->].
  - change (negb (truthy IPPROTO_TCP) || (IPPROTO_TCP =? IPPROTO_UDP)) with false in E.
    change (negb (truthy IPPROTO_TCP) || (IPPROTO_TCP =? IPPROTO_TCP)) with true in E.
    cbv iota in E.
    destruct (makeipv4info SOCK_STREAM IPPROTO_TCP ip port name w) as [p w1] eqn:E1.
    destruct (Z.eqb_spec p NULL) as [-> | Hp].
    { apply triple_eq in E as (Hx & _). discriminate Hx. }
    apply triple_eq in E as (_ & <- & <-).
    destruct (makeipv4info_lone _ _ _ _ _ _ _ _ E1 Hp) as [Hl Hf].
    destruct (set_next_null_lone _ _ _ Hl) as [Hl2 Hf2].
    destruct (or_passive_lone _ flags _ _ Hl2) as [Hl3 Hf3].
    split; [ exact Hl3 | congruence ].
  - change (negb (truthy IPPROTO_UDP) || (IPPROTO_UDP =? IPPROTO_UDP)) with true in E.
    change (negb (truthy IPPROTO_UDP) || (IPPROTO_UDP =? IPPROTO_TCP)) with false in E.
    cbv iota in E.
    destruct (makeipv4info SOCK_DGRAM IPPROTO_UDP ip port name w) as [p w1] eqn:E1.
    destruct (Z.eqb_spec p NULL) as [-> | Hp].
    { apply triple_eq in E as (Hx & _). discriminate Hx. }
    apply triple_eq in E as (_ & <- & <-).
    destruct (makeipv4info_lone _ _ _ _ _ _ _ _ E1 Hp) as [Hl Hf].
    destruct (or_passive_lone _ flags _ _ Hl) as [Hl3 Hf3].
    split; [ exact Hl3 | congruence ].
Qed.

(** X19. A list of one record is released completely: after a successful
    call with the socket type SOCK_STREAM or SOCK_DGRAM, [freeaddrinfo] on
    the list returned leaves the heap exactly as it was before
    [getaddrinfo], and frees no invalid pointer. *)
Theorem getaddrinfo_freeaddrinfo_single node service hints res0 w r w' :
  hint_socktype hints = SOCK_STREAM \/ hint_socktype hints = SOCK_DGRAM ->
  getaddrinfo node service hints res0 w = (0, r, w') ->
  heap (freeaddrinfo r w') = heap w /\ fault (freeaddrinfo r w') = fault w.
Proof.
  intros Hty E.
  apply getaddrinfo_cases in E as [(Hc & _) | (flags & protocol & Hc & E)].
  { apply check_hints_error, hint_errors_eai, eai_codes_nonzero in Hc.
    contradiction. }
  assert (Hproto : protocol = IPPROTO_TCP \/ protocol = IPPROTO_UDP).
  { apply check_hints_ok in Hc as (_ & [[_ ->] | [[_ ->] | [[Hx | Hx] _]]]); auto;
      rewrite Hx in Hty; destruct Hty; discriminate. }
  destruct E as [(Hn & _) | (ip & name & w1 & Hn & E)].
  { apply resolve_node_spec in Hn as (_ & _ & _ & _ & _ & He & _).
    specialize (He 0 eq_refl).
    apply lookup_errors_eai, eai_codes_nonzero in He. contradiction. }
  apply resolve_node_spec in Hn as (Hh & _ & _ & Hf & _).
  destruct E as [(Hs & _) | (port & w2 & Hs & E)].
  { apply resolve_service_spec in Hs as (_ & _ & _ & _ & _ & _ & He & _).
    destruct (He 0 eq_refl) as [Hx _]. discriminate. }
  apply resolve_service_spec in Hs as (Hh2 & _ & _ & Hf2 & _).
  apply build_results_lone in E as [Hl Hf3]; [ | exact Hproto ].
  apply freeaddrinfo_lone in Hl as [Hh4 Hf4].
  split; congruence.
Qed.

Lemma getaddrinfo_freeaddrinfo_single_witness :
  let out := getaddrinfo (Some "10.0.0.1") (Some "80") (Some stream_hints) NULL
               (world0 [] no_hosts) in
  heap (freeaddrinfo (snd (fst out)) (snd out)) = ∅
  /\ fault (freeaddrinfo (snd (fst out)) (snd out)) = false.
Proof.
  intros out.
  assert (E : getaddrinfo (Some "10.0.0.1") (Some "80") (Some stream_hints) NULL
                (world0 [] no_hosts) = (0, snd (fst out), snd out))
    by (vm_compute; reflexivity).
  exact (getaddrinfo_freeaddrinfo_single (Some "10.0.0.1") (Some "80")
           (Some stream_hints) NULL (world0 [] no_hosts) _ _
           (or_introl eq_refl) E).
Defined.

(** The two statements that finish a record keep its address buffer and
    its name, and touch no other block. *)
Lemma finish_record flags p nxt ai w :
  heap w !! p = Some (BInfo ai) ->
  exists ai',
    heap (or_passive flags p (set_next p nxt w)) !! p = Some (BInfo ai')
    /\ ai_addr ai' = ai_addr ai /\ ai_canonname ai' = ai_canonname ai
    /\ ai_next ai' = nxt
    /\ (forall q, q <> p ->
          heap (or_passive flags p (set_next p nxt w)) !! q = heap w !! q).
Proof.
  intros Hlp. unfold set_next, read_info. rewrite Hlp.
  rewrite store_live by (rewrite Hlp; eauto).
  unfold or_passive, read_info. heap_proj. rewrite lookup_insert_eq.
  destruct (truthy (Z.land flags AI_PASSIVE)).
  - rewrite store_live by (heap_proj; rewrite lookup_insert_eq; eauto).
    heap_proj. eexists. split; [ apply lookup_insert_eq | ].
    repeat split. intros q Hq. rewrite !lookup_insert_ne by congruence. reflexivity.
  - heap_proj. eexists. split; [ apply lookup_insert_eq | ].
    repeat split. intros q Hq. rewrite lookup_insert_ne by congruence. reflexivity.
Qed.

(** X20. A list of two records is not released completely: after a
    successful call with no socket type (or SOCK_RAW), [freeaddrinfo] on
    the list returned leaves the address buffer of the second record, the
    UDP one, on the heap, a block that was not there before
    [getaddrinfo]. *)
Theorem getaddrinfo_freeaddrinfo_pair node service hints res0 w r w' :
  hint_socktype hints = 0 \/ hint_socktype hints = SOCK_RAW ->
  getaddrinfo node service hints res0 w = (0, r, w') ->
  exists t u,
    addrinfo_list (heap w') r [t; u]
    /\ ai_protocol u = IPPROTO_UDP
    /\ heap w !! ai_addr u = None
    /\ is_Some (heap (freeaddrinfo r w') !! ai_addr u).
Proof.
  intros Hty E.
  apply getaddrinfo_cases in E as [(Hc & _) | (flags & protocol & Hc & E)].
  { apply check_hints_error, hint_errors_eai, eai_codes_nonzero in Hc.
    contradiction. }
  assert (Hproto : protocol = 0).
  { apply check_hints_ok in Hc as (_ & [[Hx _] | [[Hx _] | [_ ->]]]);
      [ | | reflexivity ]; rewrite Hx in Hty; destruct Hty; discriminate. }
  subst protocol.
  destruct E as [(Hn & _) | (ip & name & w1 & Hn & E)].
  { apply resolve_node_spec in Hn as (_ & _ & _ & _ & _ & He & _).
    specialize (He 0 eq_refl).
    apply lookup_errors_eai, eai_codes_nonzero in He. contradiction. }
  apply resolve_node_spec in Hn as (Hh & _).
  destruct E as [(Hs & _) | (port & w2 & Hs & E)].
  { apply resolve_service_spec in Hs as (_ & _ & _ & _ & _ & _ & He & _).
    destruct (He 0 eq_refl) as [Hx _]. discriminate. }
  apply resolve_service_spec in Hs as (Hh2 & _).
  rewrite <- Hh, <- Hh2. clear Hh Hh2 Hc Hty.
  set (nm := canon_name flags name node) in *. clearbody nm.
  unfold build_results in E.
  change (negb (truthy 0) || (0 =? IPPROTO_UDP)) with true in E.
  change (negb (truthy 0) || (0 =? IPPROTO_TCP)) with true in E.
  cbv iota in E.
  destruct (makeipv4info SOCK_DGRAM IPPROTO_UDP ip port nm w2) as [p1 wa] eqn:E1.
  destruct (Z.eqb_spec p1 NULL) as [-> | Hp1].
  { apply triple_eq in E as (Hx & _). discriminate Hx. }
  destruct (makeipv4info SOCK_STREAM IPPROTO_TCP ip port nm (or_passive flags p1 wa))
    as [p2 wb] eqn:E2.
  destruct (Z.eqb_spec p2 NULL) as [-> | Hp2].
  { apply triple_eq in E as (Hx & _). discriminate Hx. }
  apply triple_eq in E as (_ & <- & <-).
  (* the UDP record *)
  destruct (record_first flags _ _ _ _ _ _ _ _ E1 Hp1) as (_ & _ & Hn1 & _).
  apply node_at_record in Hn1
    as (u & _ & Hlu & Hnu & _ & _ & _ & _ & Hpu & _).
  destruct (makeipv4info_lone _ _ _ _ _ _ _ _ E1 Hp1) as [Hl1 _].
  destruct (or_passive_lone _ flags _ _ Hl1) as [Hl1' _].
  destruct Hl1' as (u' & _ & _ & Hlu' & _ & Hua & Hune & Hufresh & Hulive & _).
  rewrite Hlu in Hlu'. injection Hlu' as <-.
  (* the TCP record *)
  unfold makeipv4info in E2.
  apply makeaddrinfo_spec in E2 as (_ & _ & [[Hx _] | Hb]); [ contradiction | ].
  destruct Hb as (pa & pc & _ & Hpa & Hne & Hfp & Hfa & Hlp & Hla & Hnm & Hfr).
  destruct (finish_record flags p2 p1 _ wb Hlp)
    as (t & Hlt & Eta & Etc & Etn & Hsame).
  cbn [ai_addr ai_canonname] in Eta, Etc.
  set (h2 := heap (or_passive flags p1 wa)) in *.
  set (h' := heap (or_passive flags p2 (set_next p2 p1 wb))) in *.
  assert (Dp2 : ai_addr u <> p2) by (intros Hx; rewrite Hx in Hulive;
                                     rewrite Hfp in Hulive; destruct Hulive; discriminate).
  assert (Dpa : ai_addr u <> pa) by (intros Hx; rewrite Hx in Hulive;
                                     rewrite Hfa in Hulive; destruct Hulive; discriminate).
  assert (Dpc : ai_addr u <> pc).
  { destruct nm as [s |].
    - destruct Hnm as (_ & _ & _ & Hfc & _). intros Hx. rewrite Hx in Hulive.
      rewrite Hfc in Hulive. destruct Hulive; discriminate.
    - subst pc. exact Hua. }
  assert (Kp1 : p1 <> p2) by (intros Hx; rewrite Hx in Hlu; congruence).
  assert (Kpa : p1 <> pa) by (intros Hx; rewrite Hx in Hlu; congruence).
  assert (Kpc : pc = NULL \/ p1 <> pc).
  { destruct nm as [s |]; [ right | left; exact Hnm ].
    destruct Hnm as (_ & _ & _ & Hfc & _). intros Hx. rewrite Hx in Hlu. congruence. }
  assert (Hu' : h' !! p1 = Some (BInfo u)).
  { rewrite Hsame by exact Kp1. rewrite Hfr by assumption. exact Hlu. }
  assert (Hbuf : is_Some (h' !! ai_addr u)).
  { rewrite Hsame by exact Dp2. rewrite Hfr; [ exact Hulive | | | ]; auto. }
  exists t, u. split; [ | split; [ exact Hpu | split; [ exact Hufresh | ] ] ].
  - apply addrinfo_list_cons; [ exact Hp2 | exact Hlt | ]. rewrite Etn.
    apply addrinfo_list_cons; [ exact Hp1 | exact Hu' | ]. rewrite Hnu.
    apply addrinfo_list_nil.
  - rewrite (freeaddrinfo_frame p2 t (ai_addr u)); try assumption;
      congruence.
Qed.

Lemma getaddrinfo_freeaddrinfo_pair_witness :
  let out := getaddrinfo (Some "10.0.0.1") None None NULL (world0 [] no_hosts) in
  exists t u,
    addrinfo_list (heap (snd out)) (snd (fst out)) [t; u]
    /\ ai_protocol u = IPPROTO_UDP
    /\ is_Some (heap (freeaddrinfo (snd (fst out)) (snd out)) !! ai_addr u).
Proof.
  intros out.
  assert (E : getaddrinfo (Some "10.0.0.1") None None NULL (world0 [] no_hosts)
              = (0, snd (fst out), snd out)) by (vm_compute; reflexivity).
  destruct (getaddrinfo_freeaddrinfo_pair (Some "10.0.0.1") None None NULL
              (world0 [] no_hosts) _ _ (or_introl eq_refl) E)
    as (t & u & H1 & H2 & _ & H4).
  exists t, u. auto.
Defined.

(** ** gai_strerror: the table *)

(** X21. Every text [gai_strerror] returns fits the 41-byte array of the
    table: it has from 1 to 40 characters. *)
Theorem gai_strerror_length (code : Z) :
  (1 <= String.length (gai_strerror code) <= 40)%nat.
Proof.
  unfold gai_strerror, gai_errlist. cbn [gai_strerror_from].
  split_code code; vm_compute; split; repeat constructor.
Qed.

(** X22. The thirteen texts of the table are pairwise different: the code
    (0 or one of the twelve EAI_ codes) can be read back from its text. *)
Theorem gai_strerror_injective (c1 c2 : Z) :
  In c1 (0 :: eai_codes) -> In c2 (0 :: eai_codes) ->
  gai_strerror c1 = gai_strerror c2 -> c1 = c2.
Proof.
  unfold eai_codes, In. intros H1 H2.
  repeat (destruct H1 as [<- | H1]);
    try contradiction;
    repeat (destruct H2 as [<- | H2]);
    try contradiction; intros E; try reflexivity; discriminate E.
Qed.

Lemma gai_strerror_injective_witness :
  gai_strerror EAI_AGAIN = "Temporary name service failure"
  /\ EAI_AGAIN = 2 - 5.
Proof.
  split; [ reflexivity | ].
  apply (gai_strerror_injective EAI_AGAIN (2 - 5)).
  - unfold eai_codes, In. tauto.
  - unfold eai_codes, In. vm_compute. tauto.
  - reflexivity.
Defined.

(** ** getnameinfo: the address length *)

(** X23. The length of the address is compared as an unsigned number: for
    an IPv4 address, a length from 0 to 15 is refused with EAI_FAMILY,
    while any length from 16 on, and any negative length, is accepted and
    the call then does what it does for the length 16. *)
Theorem getnameinfo_salen sa salen host hostlen serv servlen flags :
  - 2 ^ 31 <= salen < 2 ^ 31 -> sin_family sa = AF_INET ->
  (0 <= salen < 16 ->
   getnameinfo sa salen host hostlen serv servlen flags = (EAI_FAMILY, host, serv))
  /\ (16 <= salen \/ salen < 0 ->
      getnameinfo sa salen host hostlen serv servlen flags
      = getnameinfo sa 16 host hostlen serv servlen flags).
Proof.
  intros Hs Hf. rewrite !getnameinfo_cases. unfold getnameinfo_gate.
  rewrite Hf. change (AF_INET =? AF_INET) with true.
  change (to_size_t 16 <? sizeof_sockaddr_in) with false.
  unfold to_size_t, sizeof_sockaddr_in. cbn [negb orb].
  split.
  - intros Hl. rewrite Z.mod_small by lia.
    destruct (Z.ltb_spec salen 16); [ reflexivity | lia ].
  - intros Hl.
    assert (Hge : 16 <= salen mod 2 ^ 32).
    { destruct Hl as [Hl | Hl].
      - rewrite Z.mod_small by lia. exact Hl.
      - change (2 ^ 32) with 4294967296 in *. change (2 ^ 31) with 2147483648 in *.
        Z.div_mod_to_equations. lia. }
    destruct (Z.ltb_spec (salen mod 2 ^ 32) 16); [ lia | reflexivity ].
Qed.

Lemma getnameinfo_salen_witness :
  getnameinfo (mk_sockaddr_in 16 AF_INET 0 0) (-1) (Some "") 8 None 0 0
  = getnameinfo (mk_sockaddr_in 16 AF_INET 0 0) 16 (Some "") 8 None 0 0.
Proof.
  apply (proj2 (getnameinfo_salen (mk_sockaddr_in 16 AF_INET 0 0) (-1) (Some "") 8
                  None 0 0 ltac:(lia) eq_refl)).
  right. lia.
Defined.

(** ** getaddrinfo: AI_NUMERICHOST *)

(** X24. With AI_NUMERICHOST no name is ever looked up and [h_errno] is
    left alone, whatever the node is. *)
Theorem getaddrinfo_numerichost_no_lookup node service hints res0 w rc r w' :
  truthy (Z.land (hint_flags hints) AI_NUMERICHOST) = true ->
  getaddrinfo node service hints res0 w = (rc, r, w') ->
  lookups (trace w') = lookups (trace w) /\ h_errno w' = h_errno w.
Proof.
  intros Hf E.
  apply getaddrinfo_cases in E as [(_ & _ & ->) | (flags & protocol & Hc & E)];
    [ auto | ].
  pose proof Hc as Hc'. apply check_hints_ok in Hc' as (-> & _).
  assert (Hnode : forall x w1, resolve_node node (hint_flags hints) w = (x, w1) ->
                     trace w1 = trace w /\ h_errno w1 = h_errno w).
  { intros x w1 Hn. unfold resolve_node in Hn. destruct node as [n |].
    - rewrite Hf in Hn. cbn [negb] in Hn.
      destruct (inet_addr n =? INADDR_NONE); injection Hn as _ <-; auto.
    - injection Hn as _ <-. auto. }
  destruct E as [(Hn & _) | (ip & name & w1 & Hn & E)].
  { apply Hnode in Hn as [-> ->]. auto. }
  apply Hnode in Hn as [Ht Hh].
  destruct E as [(Hs & _) | (port & w2 & Hs & E)].
  { apply resolve_service_spec in Hs as (_ & _ & Hh2 & _ & _ & Ht2 & _).
    rewrite Ht2, Ht, Hh2, Hh. auto. }
  apply resolve_service_spec in Hs as (_ & _ & Hh2 & _ & _ & Ht2 & _).
  apply build_results_spec in E as ((_ & Hh3 & _ & Hl) & _);
    [ | eapply check_hints_protocol; exact Hc ].
  rewrite Hl, Ht2, Ht, Hh3, Hh2, Hh. auto.
Qed.

Lemma getaddrinfo_numerichost_no_lookup_witness :
  let out := getaddrinfo (Some "host") None (Some numeric_hints) NULL
               (world0 [] one_host) in
  lookups (trace (snd out)) = [] /\ h_errno (snd out) = 0.
Proof.
  intros out.
  assert (E : getaddrinfo (Some "host") None (Some numeric_hints) NULL
                (world0 [] one_host) = (fst (fst out), snd (fst out), snd out))
    by (vm_compute; reflexivity).
  exact (getaddrinfo_numerichost_no_lookup (Some "host") None (Some numeric_hints)
           NULL (world0 [] one_host) _ _ _ eq_refl E).
Defined.

Lemma land_lor_numerichost (f m : Z) :
  Z.land AI_NUMERICHOST m = 0 ->
  Z.land (Z.lor f AI_NUMERICHOST) m = Z.land f m.
Proof.
  intros H. rewrite Z.land_lor_distr_l, H. apply Z.lor_0_r.
Qed.

Lemma build_results_flags f1 f2 protocol ip port name res w :
  Z.land f1 AI_PASSIVE = Z.land f2 AI_PASSIVE ->
  build_results f1 protocol ip port name res w
  = build_results f2 protocol ip port name res w.
Proof.
  intros H. unfold build_results, or_passive. rewrite H. reflexivity.
Qed.

(** X25. For a node that is absent or numeric, AI_NUMERICHOST changes
    nothing: the call with the bit added to the flags of the hints does
    exactly what the call without it does. *)
Theorem getaddrinfo_numerichost_no_effect node service h res0 w :
  (forall n, node = Some n -> inet_addr n <> INADDR_NONE) ->
  getaddrinfo node service
    (Some (mk_addrinfo (Z.lor (ai_flags h) AI_NUMERICHOST) (ai_family h)
             (ai_socktype h) (ai_protocol h) (ai_addrlen h) (ai_addr h)
             (ai_canonname h) (ai_next h))) res0 w
  = getaddrinfo node service (Some h) res0 w.
Proof.
  intros Hnum. unfold getaddrinfo, check_hints.
  cbn [ai_flags ai_family ai_socktype ai_protocol].
  rewrite (land_lor_numerichost _ (Z.lnot _AI_MASK)) by reflexivity.
  destruct (truthy (Z.land (ai_flags h) (Z.lnot _AI_MASK))); [ reflexivity | ].
  destruct (truthy (ai_family h) && negb (ai_family h =? AF_INET)); [ reflexivity | ].
  assert (Hrest : forall protocol,
             match resolve_node node (Z.lor (ai_flags h) AI_NUMERICHOST) w with
             | (inl e, w0) => (e, NULL, w0)
             | (inr (ip, name), w0) =>
                 let name := canon_name (Z.lor (ai_flags h) AI_NUMERICHOST) name node in
                 match resolve_service service w0 with
                 | (inl e, w1) => (e, NULL, w1)
                 | (inr port, w1) =>
                     build_results (Z.lor (ai_flags h) AI_NUMERICHOST) protocol ip
                       port name NULL w1
                 end
             end
             = match resolve_node node (ai_flags h) w with
               | (inl e, w0) => (e, NULL, w0)
               | (inr (ip, name), w0) =>
                   let name := canon_name (ai_flags h) name node in
                   match resolve_service service w0 with
                   | (inl e, w1) => (e, NULL, w1)
                   | (inr port, w1) =>
                       build_results (ai_flags h) protocol ip port name NULL w1
                   end
               end).
  { intros protocol.
    assert (Hnode : resolve_node node (Z.lor (ai_flags h) AI_NUMERICHOST) w
                    = resolve_node node (ai_flags h) w).
    { destruct node as [n |].
      - rewrite !resolve_node_numeric by (apply Hnum; reflexivity). reflexivity.
      - cbn [resolve_node].
        rewrite (land_lor_numerichost _ AI_PASSIVE) by reflexivity. reflexivity. }
    rewrite Hnode. destruct (resolve_node node (ai_flags h) w) as [[e | [ip name]] w0];
      [ reflexivity | ].
    cbv zeta. unfold canon_name.
    rewrite (land_lor_numerichost _ AI_CANONNAME) by reflexivity.
    destruct (resolve_service service w0) as [[e | port] w1]; [ reflexivity | ].
    apply build_results_flags. apply land_lor_numerichost. reflexivity. }
  destruct (ai_socktype h =? SOCK_STREAM).
  { destruct (_ && _ && _); [ reflexivity | apply Hrest ]. }
  destruct (ai_socktype h =? SOCK_DGRAM).
  { destruct (_ && _ && _); [ reflexivity | apply Hrest ]. }
  destruct ((ai_socktype h =? SOCK_RAW) || (ai_socktype h =? 0)); [ | reflexivity ].
  destruct (_ && _ && _); [ reflexivity | apply Hrest ].
Qed.

Lemma getaddrinfo_numerichost_no_effect_witness :
  getaddrinfo (Some "10.0.0.1") (Some "80")
    (Some (mk_addrinfo (Z.lor AI_PASSIVE AI_NUMERICHOST) AF_INET SOCK_STREAM 0 0
             NULL NULL NULL)) NULL (world0 [] no_hosts)
  = getaddrinfo (Some "10.0.0.1") (Some "80") (Some stream_hints) NULL
      (world0 [] no_hosts).
Proof.
  refine (getaddrinfo_numerichost_no_effect (Some "10.0.0.1") (Some "80")
            stream_hints NULL (world0 [] no_hosts) _).
  intros n [= <-]. vm_compute. discriminate.
Defined.
